(** * TAXII to Neo4j synchronizer: a shallow embedding of [neo4j-taxii.py]

    The development follows the script top to bottom: the decoded JSON
    values the script manipulates, the three Cypher statements it sends to
    the graph store and what they do to a property graph, the session whose
    write transactions carry them, [Neo4jHandler.load_stix_object], the
    pagination loop [fetch_stix_objects], and the per-record loop of [main].
    The theorems come after the definitions. *)

From Stdlib Require Import ZArith Ascii Floats.SpecFloat.
From stdpp Require Import base strings list gmap fin_maps.

Local Open Scope string_scope.
Local Open Scope list_scope.

(** ** Decoded JSON values

    [requests.get(url).json()] yields dictionaries, lists, strings, integers,
    floats, booleans and [None].  A dictionary is kept as its items in
    insertion order (the order [for k in d] walks them); a Python dictionary
    never holds a key twice, and every reader below takes the first
    binding.  Strings are ASCII text. *)

#[local] Unset Elimination Schemes.
Inductive pyval : Type :=
  | VNone
  | VBool (b : bool)
  | VInt (z : Z)
  | VFloat (f : spec_float)
  | VStr (s : string)
  | VList (items : list pyval)
  | VDict (items : list (string * pyval)).

#[local] Set Elimination Schemes.

Global Instance spec_float_eq_dec : EqDecision spec_float.
Proof. solve_decision. Defined.

Global Instance pyval_eq_dec : EqDecision pyval.
Proof.
  refine (fix go (a b : pyval) {struct a} : Decision (a = b) :=
    match a, b with
    | VNone, VNone => left eq_refl
    | VBool x, VBool y => cast_if (decide (x = y))
    | VInt x, VInt y => cast_if (decide (x = y))
    | VFloat x, VFloat y => cast_if (decide (x = y))
    | VStr x, VStr y => cast_if (decide (x = y))
    | VList l, VList l' => cast_if (@list_eq_dec _ go l l')
    | VDict d, VDict d' =>
        cast_if (@list_eq_dec _ (@prod_eq_dec _ _ _ go) d d')
    | _, _ => right _
    end); clear go; abstract congruence.
Defined.

(** ** Python primitives used by the script *)

(** Exceptions the script can meet.  [ClientError] and [ServiceUnavailable]
    are the driver's: the store refusing a statement, and the store being
    out of reach while a transaction runs. *)
Inductive exn : Type :=
  | KeyError (key : string)
  | AttributeError (attr : string)
  | TypeError (what : string)
  | ClientError (what : string)
  | ServiceUnavailable
  | ConnectionError.

Inductive result (A : Type) : Type :=
  | Ok (a : A)
  | Raise (e : exn).
Arguments Ok {A} a.
Arguments Raise {A} e.

(** [isinstance(v, (str, int, float, bool))] *)
Definition is_scalar (v : pyval) : bool :=
  match v with
  | VStr _ | VInt _ | VFloat _ | VBool _ => true
  | VNone | VList _ | VDict _ => false
  end.

(** Truth value of [v] in [if v] and [a and b]. *)
Definition truthy (v : pyval) : bool :=
  match v with
  | VNone => false
  | VBool b => b
  | VInt z => negb (Z.eqb z 0)
  | VFloat (S754_zero _) => false
  | VFloat _ => true
  | VStr s => negb (String.eqb s "")
  | VList l => negb (bool_decide (l = []))
  | VDict d => negb (bool_decide (d = []))
  end.

(** [a and b] *)
Definition py_and (a b : pyval) : pyval := if truthy a then b else a.

(** First binding of [k] among the items of a dictionary. *)
Fixpoint dict_get (k : string) (d : list (string * pyval)) : option pyval :=
  match d with
  | [] => None
  | (k', v) :: rest => if decide (k' = k) then Some v else dict_get k rest
  end.

(** [d.items()]: the bindings a lookup can reach, in insertion order. *)
Fixpoint py_items (d : list (string * pyval)) : list (string * pyval) :=
  match d with
  | [] => []
  | (k, v) :: rest => (k, v) :: filter (λ kv, kv.1 ≠ k) (py_items rest)
  end.

(** [obj.get(k, default)] *)
Definition py_get (obj : pyval) (k : string) (dflt : pyval) : result pyval :=
  match obj with
  | VDict d => Ok (default dflt (dict_get k d))
  | _ => Raise (AttributeError "get")
  end.

(** [obj[k]] with a string key *)
Definition py_getitem (obj : pyval) (k : string) : result pyval :=
  match obj with
  | VDict d =>
      match dict_get k d with Some v => Ok v | None => Raise (KeyError k) end
  | _ => Raise (TypeError "subscript")
  end.

(** [k in obj] with a string key: key of a dictionary, element of a list,
    substring of a string. *)
Definition py_in (k : string) (obj : pyval) : result bool :=
  match obj with
  | VDict d => Ok (bool_decide (is_Some (dict_get k d)))
  | VList l => Ok (bool_decide (VStr k ∈ l))
  | VStr s => Ok (bool_decide (is_Some (String.index 0 k s)))
  | _ => Raise (TypeError "argument is not iterable")
  end.

Fixpoint chars (s : string) : list pyval :=
  match s with
  | EmptyString => []
  | String c rest => VStr (String c EmptyString) :: chars rest
  end.

(** The values [for x in v] walks through. *)
Definition py_iter (v : pyval) : result (list pyval) :=
  match v with
  | VList l => Ok l
  | VDict d => Ok ((λ kv, VStr kv.1) <$> py_items d)
  | VStr s => Ok (chars s)
  | _ => Raise (TypeError "object is not iterable")
  end.

(** [s.replace(old, new)] for one-character [old] and [new]. *)
Fixpoint replace (old new : Ascii.ascii) (s : string) : string :=
  match s with
  | EmptyString => EmptyString
  | String c rest =>
      String (if Ascii.eqb c old then new else c) (replace old new rest)
  end.

Definition upper_char (c : Ascii.ascii) : Ascii.ascii :=
  let n := Ascii.nat_of_ascii c in
  if (97 <=? n)%nat && (n <=? 122)%nat then Ascii.ascii_of_nat (n - 32) else c.

(** [s.upper()] on the ASCII range: [a] to [z] go to [A] to [Z], every
    other character stays.  Cased letters outside that range, which Python
    maps as well, are left as they are. *)
Fixpoint upper (s : string) : string :=
  match s with
  | EmptyString => EmptyString
  | String c rest => String (upper_char c) (upper rest)
  end.

(** A method of [str] called on a decoded value. *)
Definition str_method (name : string) (f : string → string) (v : pyval)
    : result string :=
  match v with VStr s => Ok (f s) | _ => Raise (AttributeError name) end.

(** [{k: v for k, v in obj.items() if isinstance(v, (str, int, float, bool))}] *)
Definition scalar_props (d : list (string * pyval)) : gmap string pyval :=
  list_to_map (filter (λ kv, is_scalar kv.2 = true) (py_items d)).

(** ** The property graph

    A vertex is known by its position in [nodes]; the script never deletes
    one, and a new vertex is appended.  An edge names its endpoints by
    position. *)

Record node : Type := Node {
  n_labels : list string;
  n_props : gmap string pyval
}.

Record edge : Type := Edge {
  e_src : nat;
  e_tgt : nat;
  e_type : string;
  e_props : gmap string pyval
}.

Record graph : Type := Graph {
  nodes : list node;
  edges : list edge
}.

Definition empty_graph : graph := Graph [] [].

(** ** The three Cypher statements of the script

    Each constructor stands for one query template together with what the
    f-string splices into it and the parameters handed to [tx.run]:
    - [MergeNode l i p]: [MERGE (n:l {id: $id}) SET n += $props];
    - [MergeReference t s d]: two [MATCH]es by [id], then
      [MERGE (source)-[r:t]->(target)];
    - [MergeRelationship t s d k p]: two [MATCH]es by [id], then
      [MERGE (source)-[r:t {id: $relationship_id}]->(target) SET r += $props]. *)
Inductive stmt : Type :=
  | MergeNode (label : string) (id : pyval) (props : gmap string pyval)
  | MergeReference (rel_type : string) (source_id target_id : pyval)
  | MergeRelationship (rel_type : string)
      (source_id target_id relationship_id : pyval)
      (props : gmap string pyval).

(** The pattern [{id: $v}]: the property is there and equal to the
    parameter; a null parameter matches nothing.  Keys are compared as
    stored values; the range of integers and the store's own checks on
    label names and on the type of a property value are left out. *)
Definition has_id (v : pyval) (p : gmap string pyval) : bool :=
  bool_decide (v ≠ VNone ∧ p !! "id" = Some v).

(** [SET x += $props]: the incoming properties win, the others stay. *)
Definition set_props (props p : gmap string pyval) : gmap string pyval :=
  props ∪ p.

Definition node_hit (label : string) (v : pyval) (n : node) : bool :=
  bool_decide (label ∈ n_labels n) && has_id v (n_props n).

Definition node_set (label : string) (v : pyval) (props : gmap string pyval)
    (n : node) : node :=
  if node_hit label v n then Node (n_labels n) (set_props props (n_props n))
  else n.

(** [MERGE (n:label {id: $id})]: the vertices as they are when one answers
    to the pattern, and with a fresh one at the end when none does. *)
Definition merged_over (label : string) (v : pyval) (ns : list node)
    : list node :=
  if List.existsb (node_hit label v) ns then ns
  else ns ++ [Node [label] {["id" := v]}].

(** [MERGE (n:label {id: $id}) SET n += $props] *)
Definition merge_node (label : string) (v : pyval) (props : gmap string pyval)
    (g : graph) : graph :=
  Graph (node_set label v props <$> merged_over label v (nodes g)) (edges g).

(** [MATCH (x {id: $v})]: the positions of the vertices it binds. *)
Definition matching (v : pyval) (ns : list node) : list nat :=
  filter (λ i, from_option (λ n, has_id v (n_props n)) false (ns !! i) = true)
         (seq 0 (length ns)).

(** The rows the two [MATCH] clauses hand to [MERGE]. *)
Definition rows (s t : pyval) (ns : list node) : list (nat * nat) :=
  list_prod (matching s ns) (matching t ns).

Definition edge_hit (rel_type : string) (r : nat * nat) (e : edge) : bool :=
  bool_decide (e_src e = r.1 ∧ e_tgt e = r.2 ∧ e_type e = rel_type).

(** [MERGE (source)-[r:rel_type]->(target)] for one row *)
Definition merge_reference_row (rel_type : string) (es : list edge)
    (r : nat * nat) : list edge :=
  if List.existsb (edge_hit rel_type r) es then es
  else es ++ [Edge r.1 r.2 rel_type ∅].

Definition merge_reference (rel_type : string) (s t : pyval) (g : graph)
    : graph :=
  Graph (nodes g) (foldl (merge_reference_row rel_type) (edges g)
                         (rows s t (nodes g))).

Definition keyed_hit (rel_type : string) (k : pyval) (r : nat * nat)
    (e : edge) : bool :=
  edge_hit rel_type r e && has_id k (e_props e).

Definition edge_set (rel_type : string) (k : pyval)
    (props : gmap string pyval) (r : nat * nat) (e : edge) : edge :=
  if keyed_hit rel_type k r e
  then Edge (e_src e) (e_tgt e) (e_type e) (set_props props (e_props e))
  else e.

(** [MERGE (source)-[r:rel_type {id: $k}]->(target) SET r += $props] for
    one row *)
Definition merge_relationship_row (rel_type : string) (k : pyval)
    (props : gmap string pyval) (es : list edge) (r : nat * nat) : list edge :=
  let es1 :=
    if List.existsb (keyed_hit rel_type k r) es then es
    else es ++ [Edge r.1 r.2 rel_type {["id" := k]}] in
  edge_set rel_type k props r <$> es1.

Definition merge_relationship (rel_type : string) (s t k : pyval)
    (props : gmap string pyval) (g : graph) : graph :=
  Graph (nodes g) (foldl (merge_relationship_row rel_type k props) (edges g)
                         (rows s t (nodes g))).

(** What the store does with a statement: the new graph, or the error it
    answers with.  [MERGE] refuses a null key when it has a row to work
    on. *)
Definition run_stmt (q : stmt) (g : graph) : result graph :=
  match q with
  | MergeNode label v props =>
      if decide (v = VNone)
      then Raise (ClientError "Cannot merge node using null property value for id")
      else Ok (merge_node label v props g)
  | MergeReference rel_type s t => Ok (merge_reference rel_type s t g)
  | MergeRelationship rel_type s t k props =>
      if decide (k = VNone ∧ rows s t (nodes g) ≠ [])
      then Raise (ClientError "Cannot merge relationship using null property value for id")
      else Ok (merge_relationship rel_type s t k props g)
  end.

(** ** Sessions and write transactions

    [session.execute_write(work, ...)] opens a transaction, calls [work],
    and commits when [work] returns.  A transaction function of the script
    builds its query and ends with one [tx.run]; it is embedded as the
    statement it hands over, or the exception it raises before getting
    there.  The store may be out of reach while a transaction runs:
    [outages] says, for each statement still to come, whether that happens
    (no entry left means no outage).  The [journal] keeps every transaction
    attempted, [errors] every [logger.error] line. *)

Record txn : Type := Txn {
  statements : list stmt;
  committed : bool
}.

Inductive logline : Type :=
  | LogExn (msg : string) (e : exn)
  | LogObj (msg : string) (obj : pyval).

Record session : Type := Session {
  db : graph;
  outages : list bool;
  journal : list txn;
  errors : list logline
}.

Definition connect (g : graph) : session := Session g [] [] [].

Definition M (A : Type) : Type := session → result A * session.

Definition ret {A} (a : A) : M A := λ s, (Ok a, s).

Definition lift {A} (r : result A) : M A := λ s, (r, s).

Definition bind {A B} (m : M A) (k : A → M B) : M B := λ s,
  match m s with
  | (Ok a, s') => k a s'
  | (Raise e, s') => (Raise e, s')
  end.

(** [try: m  except Exception as e: h e] *)
Definition try_except {A} (m : M A) (h : exn → M A) : M A := λ s,
  match m s with
  | (Ok a, s') => (Ok a, s')
  | (Raise e, s') => h e s'
  end.

Fixpoint for_each {A} (l : list A) (body : A → M unit) : M unit :=
  match l with
  | [] => ret tt
  | x :: xs => bind (body x) (λ _, for_each xs body)
  end.

Definition rbind {A B} (r : result A) (k : A → result B) : result B :=
  match r with Ok a => k a | Raise e => Raise e end.

Declare Scope py_scope.
Delimit Scope py_scope with py.
Notation "'let!' x ':=' m 'in' k" := (bind m (λ x, k))
  (at level 10, x name, m at level 100, k at level 200) : py_scope.
Notation "m1 '>>' m2" := (bind m1 (λ _, m2))
  (at level 100, m2 at level 200, right associativity) : py_scope.
Notation "'let?' x ':=' r 'in' k" := (rbind r (λ x, k))
  (at level 10, x name, r at level 100, k at level 200) : py_scope.
Local Open Scope py_scope.

Definition logger_error (l : logline) : M unit := λ s,
  (Ok tt, Session (db s) (outages s) (journal s) (errors s ++ [l])).

Definition record_txn (t : txn) (g : graph) (left : list bool) (s : session)
    : session :=
  Session g left (journal s ++ [t]) (errors s).

(** [session.execute_write(work, ...)] *)
Definition execute_write (work : result stmt) : M unit := λ s,
  match work with
  | Raise e => (Raise e, record_txn (Txn [] false) (db s) (outages s) s)
  | Ok q =>
      let down := default false (head (outages s)) in
      let left := tail (outages s) in
      match run_stmt q (db s) with
      | Ok g' =>
          if down
          then (Raise ServiceUnavailable, record_txn (Txn [q] false) (db s) left s)
          else (Ok tt, record_txn (Txn [q] true) g' left s)
      | Raise e => (Raise e, record_txn (Txn [q] false) (db s) left s)
      end
  end.

(** ** Neo4jHandler *)

(** The label of a vertex: [.replace('-', '_')]. *)
Definition sanitize_label (s : string) : string := replace "-"%char "_"%char s.

(** The type of an edge: [.replace('-', '_').replace(' ', '_')]. *)
Definition sanitize_rel_type (s : string) : string :=
  replace " "%char "_"%char (replace "-"%char "_"%char s).

(** [obj.items()] filtered by the comprehension *)
Definition py_scalar_props (obj : pyval) : result (gmap string pyval) :=
  match obj with
  | VDict d => Ok (scalar_props d)
  | _ => Raise (AttributeError "items")
  end.

Definition _create_node (obj : pyval) : result stmt :=
  let? ty := py_get obj "type" (VStr "STIXObject") in
  let? label := str_method "replace" sanitize_label ty in
  let? props := py_scalar_props obj in
  let? id := py_getitem obj "id" in
  Ok (MergeNode label id props).

Definition _create_relationship (source_id target_id : pyval)
    (rel_type : string) : result stmt :=
  Ok (MergeReference (sanitize_rel_type rel_type) source_id target_id).

Definition _create_stix_relationship (source_id target_id : pyval)
    (rel_type : string) (relationship_id : pyval)
    (props : gmap string pyval) : result stmt :=
  Ok (MergeRelationship (sanitize_rel_type rel_type) source_id target_id
        relationship_id props).

Definition load_stix_object (stix_obj : pyval) : M unit :=
  try_except
    (let! obj_type := lift (py_get stix_obj "type" (VStr "")) in
     (if bool_decide (obj_type ≠ VStr "relationship")
      then execute_write (_create_node stix_obj)
      else ret tt) >>
     let! with_refs :=
       (if bool_decide (obj_type = VStr "report")
        then lift (py_in "object_refs" stix_obj)
        else ret false) in
     if with_refs then
       let! refs := lift (py_getitem stix_obj "object_refs") in
       let! ref_ids := lift (py_iter refs) in
       for_each ref_ids (λ ref_id,
         try_except
           (let! id := lift (py_getitem stix_obj "id") in
            execute_write (_create_relationship id ref_id "REFERENCES"))
           (λ e, logger_error
                   (LogExn "Error creating report reference relationship" e)))
     else if bool_decide (obj_type = VStr "relationship") then
       let! source_ref := lift (py_get stix_obj "source_ref" VNone) in
       let! target_ref := lift (py_get stix_obj "target_ref" VNone) in
       let! declared :=
         lift (py_get stix_obj "relationship_type" (VStr "RELATED_TO")) in
       let! relationship_type := lift (str_method "upper" upper declared) in
       if truthy (py_and source_ref target_ref) then
         try_except
           (let! id := lift (py_get stix_obj "id" VNone) in
            let! props := lift (py_scalar_props stix_obj) in
            execute_write
              (_create_stix_relationship source_ref target_ref
                 relationship_type id props))
           (λ e, logger_error (LogExn "Error creating STIX relationship" e))
       else ret tt
     else ret tt)
    (λ e,
       logger_error (LogExn "Error processing STIX object" e) >>
       logger_error (LogObj "Problematic STIX object" stix_obj)).

(** The [for obj in stix_objects['objects']] loop of [main]. *)
Definition process_objects (objs : list pyval) : M unit :=
  for_each objs (λ obj,
    try_except (load_stix_object obj)
      (λ e, logger_error (LogExn "Error processing object" e))).

(** ** fetch_stix_objects

    The feed is what it answers: the JSON bodies of the GETs still to come,
    in the order they will be served; a GET with no answer left fails in
    transport.  The fetcher is run together with the URLs it asked for and
    the answers it left unread. *)

Definition TAXII_BASE_URL : string :=
  "http://localhost:8080/opencti/taxii2/root/collections/0e40e6df-709d-448e-92de-ab970be4c00f/objects".

Inductive fetch_outcome : Type :=
  | Fetched (body : pyval)
  | FetchFailed (e : exn).

Record fetch_run : Type := FetchRun {
  outcome : fetch_outcome;
  requested : list string;
  unread : list pyval
}.

Section fetch.

(** How an f-string prints a value that is not a string (Python's own
    formatting of numbers and containers). *)
Variable py_repr : pyval → string.

(** [f"{v}"] *)
Definition py_format (v : pyval) : string :=
  match v with VStr s => s | _ => py_repr v end.

(** One turn of the [while current_url:] loop on the decoded [response]:
    the records gathered so far and the next value of [current_url]. *)
Definition fetch_page (response : pyval) (all_objects : list pyval)
    : result (list pyval * option string) :=
  let? listed := py_in "objects" response in
  let? all_objects :=
    (if listed : bool
     then let? objs := py_getitem response "objects" in
          let? more := py_iter objs in
          Ok (all_objects ++ more)
     else Ok all_objects) in
  let? has_more := py_get response "more" (VBool false) in
  let? next_token := py_get response "next" VNone in
  if truthy (py_and has_more next_token)
  then Ok (all_objects,
           Some (TAXII_BASE_URL +:+ "?next=" +:+ py_format next_token))
  else Ok (all_objects, None).

Fixpoint fetch_loop (feed : list pyval) (current_url : string)
    (all_objects : list pyval) (asked : list string) : fetch_run :=
  match feed with
  | [] => FetchRun (FetchFailed ConnectionError) (asked ++ [current_url]) []
  | response :: later =>
      match fetch_page response all_objects with
      | Raise e => FetchRun (FetchFailed e) (asked ++ [current_url]) later
      | Ok (all_objects, Some next_url) =>
          fetch_loop later next_url all_objects (asked ++ [current_url])
      | Ok (all_objects, None) =>
          FetchRun (Fetched (VDict [("objects", VList all_objects)]))
                   (asked ++ [current_url]) later
      end
  end.

Definition fetch_stix_objects (feed : list pyval) : fetch_run :=
  fetch_loop feed TAXII_BASE_URL [] [].

End fetch.

(** A page as the TAXII protocol describes it, and its JSON body. *)
Record page : Type := Page {
  p_objects : list pyval;
  p_more : bool;
  p_next : option string
}.

Definition page_body (p : page) : pyval :=
  VDict ([("objects", VList (p_objects p)); ("more", VBool (p_more p))]
         ++ match p_next p with
            | Some token => [("next", VStr token)]
            | None => []
            end).

(** The page says there is more and supplies a non-empty token. *)
Definition continues (p : page) : bool :=
  p_more p && match p_next p with
              | Some token => negb (String.eqb token "")
              | None => false
              end.

Definition next_url (p : page) : string :=
  TAXII_BASE_URL +:+ "?next=" +:+ default "" (p_next p).

(** ** Vocabulary of the statements below *)

(** The statements handed to the store so far, in order. *)
Definition intents (s : session) : list stmt :=
  concat (statements <$> journal s).

(** Delivering [objs] to a store in reach, from graph [g]. *)
Definition deliver (objs : list pyval) (g : graph) : graph :=
  db (process_objects objs (connect g)).2.

(** Position [i] holds a vertex whose [id] is [v]. *)
Definition vertex_at (g : graph) (v : pyval) (i : nat) : Prop :=
  ∃ n, nodes g !! i = Some n ∧ has_id v (n_props n) = true.

(** Some edge of type [rel_type] runs from position [i] to position [j]. *)
Definition edge_between (g : graph) (rel_type : string) (i j : nat) : Prop :=
  ∃ e, e ∈ edges g ∧ e_src e = i ∧ e_tgt e = j ∧ e_type e = rel_type.

(** The edges that carry relationship id [k]. *)
Definition edges_keyed (k : pyval) (g : graph) : list edge :=
  filter (λ e, has_id k (e_props e) = true) (edges g).

(** At most one vertex answers to a label together with an id. *)
Definition label_id_unique (g : graph) : Prop :=
  ∀ label v i j n m,
    nodes g !! i = Some n → nodes g !! j = Some m →
    node_hit label v n = true → node_hit label v m = true → i = j.

(** The incoming properties do not disagree with the key they are merged
    under. *)
Definition agrees (props : gmap string pyval) (k : pyval) : Prop :=
  props !! "id" = None ∨ props !! "id" = Some k.

Definition wf_stmt (q : stmt) : Prop :=
  match q with
  | MergeNode _ v props => agrees props v
  | MergeReference _ _ _ => True
  | MergeRelationship _ _ _ k props => agrees props k
  end.

(** What a run of statements leaves of a graph when the store is in reach:
    a refused statement changes nothing. *)
Definition effect (qs : list stmt) (g : graph) : graph :=
  foldl (λ g q, match run_stmt q g with Ok g' => g' | Raise _ => g end) g qs.

(** Every row has its edge of type [rel_type]. *)
Definition rows_linked (rel_type : string) (rs : list (nat * nat))
    (es : list edge) : Prop :=
  ∀ r, r ∈ rs → List.existsb (edge_hit rel_type r) es = true.

(** Row [r] has its keyed edge, and every such edge already carries the
    incoming properties. *)
Definition settled (rel_type : string) (k : pyval)
    (props : gmap string pyval) (es : list edge) (r : nat * nat) : Prop :=
  List.existsb (keyed_hit rel_type k r) es = true ∧
  ∀ e, e ∈ es → keyed_hit rel_type k r e = true →
       set_props props (e_props e) = e_props e.

(** The statements one record gives rise to come in three shapes. *)
Inductive record_plan : list stmt → Prop :=
  | plan_nothing : record_plan []
  | plan_entity label v props refs :
      v ≠ VNone → agrees props v →
      record_plan (MergeNode label v props
                     :: (MergeReference "REFERENCES" v <$> refs))
  | plan_relationship rel_type s t k props :
      agrees props k →
      record_plan [MergeRelationship rel_type s t k props].

(** The statements [load_stix_object] gets committed for a record when the
    store is in reach (shown below to be what it does). *)
Definition statements_of (stix_obj : pyval) : list stmt :=
  match stix_obj with
  | VDict d =>
      let obj_type := default (VStr "") (dict_get "type" d) in
      if decide (obj_type = VStr "relationship") then
        let s := default VNone (dict_get "source_ref" d) in
        let t := default VNone (dict_get "target_ref" d) in
        match default (VStr "RELATED_TO") (dict_get "relationship_type" d) with
        | VStr declared =>
            if truthy (py_and s t)
            then [MergeRelationship (sanitize_rel_type (upper declared)) s t
                    (default VNone (dict_get "id" d)) (scalar_props d)]
            else []
        | _ => []
        end
      else
        match _create_node stix_obj with
        | Ok (MergeNode label v props) =>
            if decide (v = VNone) then []
            else MergeNode label v props ::
                 (if decide (obj_type = VStr "report") then
                    match dict_get "object_refs" d with
                    | Some refs =>
                        match py_iter refs with
                        | Ok ref_ids => MergeReference "REFERENCES" v <$> ref_ids
                        | Raise _ => []
                        end
                    | None => []
                    end
                  else [])
        | _ => []
        end
  | _ => []
  end.

(** A relationship record with the given id, endpoints and declared type. *)
Definition relationship_record (d : list (string * pyval))
    (k s t : pyval) (declared : string) : Prop :=
  dict_get "type" d = Some (VStr "relationship") ∧
  dict_get "id" d = Some k ∧
  dict_get "source_ref" d = Some s ∧
  dict_get "target_ref" d = Some t ∧
  default (VStr "RELATED_TO") (dict_get "relationship_type" d) = VStr declared.

(** A relation between the session before and the session after that a
    computation respects. *)
Definition steps {A} (R : session → session → Prop) (m : M A) : Prop :=
  ∀ s, R s (m s).2.

(** The journal has grown by transactions of at most one statement each. *)
Definition one_statement_each (s s' : session) : Prop :=
  ∃ ts, journal s' = journal s ++ ts ∧
        Forall (λ t, (length (statements t) ≤ 1)%nat) ts.

(** An invariant of the graph kept by a computation. *)
Definition keeps {A} (I : graph → Prop) (m : M A) : Prop :=
  ∀ s, I (db s) → I (db (m s).2).

(** ** Sample records *)

Definition report_fields : list (string * pyval) :=
  [("id", VStr "r1"); ("type", VStr "report");
   ("object_refs", VList [VStr "i1"; VStr "i2"])].

Definition report_r1 : pyval := VDict report_fields.

Definition indicator_i1 : pyval :=
  VDict [("id", VStr "i1"); ("type", VStr "indicator"); ("pattern", VStr "x")].

Definition indicator_i2 : pyval :=
  VDict [("id", VStr "i2"); ("type", VStr "indicator")].

Definition note_fields : list (string * pyval) :=
  [("id", VStr "n1"); ("type", VStr "note");
   ("object_refs", VList [VStr "i1"])].

Definition note_n1 : pyval := VDict note_fields.

Definition malware_i1 : pyval :=
  VDict [("id", VStr "i1"); ("type", VStr "malware")].

Definition untyped_u1 : list (string * pyval) :=
  [("id", VStr "u1"); ("name", VStr "x")].

Definition anonymous : list (string * pyval) := [("name", VStr "x")].

Definition uses_1 : list (string * pyval) :=
  [("id", VStr "rel1"); ("type", VStr "relationship");
   ("source_ref", VStr "i1"); ("target_ref", VStr "i2");
   ("relationship_type", VStr "uses")].

Definition uses_2 : list (string * pyval) :=
  [("id", VStr "rel2"); ("type", VStr "relationship");
   ("source_ref", VStr "i1"); ("target_ref", VStr "i2");
   ("relationship_type", VStr "uses")].

(** The graph after the two indicators have been delivered. *)
Definition two_indicators : graph :=
  deliver [indicator_i1; indicator_i2] empty_graph.

(** A session on that graph in which the second statement to come meets an
    outage. *)
Definition flaky_session : session :=
  Session two_indicators [false; true; false] [] [].

Definition first_pages : list page :=
  [Page [VStr "o1"] true (Some "a"); Page [VStr "o2"; VStr "o3"] true (Some "b")].

Definition last_page : page := Page [VStr "o4"] false None.

(** ** main

    One turn of the [while True:] loop: fetch the whole batch, process the
    records one by one, sleep; any exception that gets out of that is
    logged, and the loop sleeps all the same.  The daemon is the session
    with the store, the answers the feed still has to give, and the naps
    taken so far, in seconds.  The handler's construction and [close] belong
    to the driver and are not modelled. *)

Definition POLL_INTERVAL_SECONDS : nat := 10.

Record daemon : Type := Daemon {
  store : session;
  web : list pyval;
  naps : list nat
}.

Section main.

Variable py_repr : pyval → string.

Definition main_iteration (w : daemon) : daemon :=
  let run := fetch_stix_objects py_repr (web w) in
  let attempt : result unit * session :=
    match outcome run with
    | Fetched stix_objects =>
        (let! listed := lift (py_getitem stix_objects "objects") in
         let! objs := lift (py_iter listed) in
         process_objects objs) (store w)
    | FetchFailed e => (Raise e, store w)
    end in
  match attempt with
  | (Ok _, s) => Daemon s (unread run) (naps w ++ [POLL_INTERVAL_SECONDS])
  | (Raise e, s) =>
      Daemon (logger_error (LogExn "Error in main loop" e) s).2 (unread run)
        (naps w ++ [POLL_INTERVAL_SECONDS])
  end.

(** The first [turns] turns of the loop. *)
Definition main_loop (turns : nat) (w : daemon) : daemon :=
  Nat.iter turns main_iteration w.

End main.

(** ** Vocabulary of the further properties *)

(** What tells an edge from another: its endpoints, its type and the
    relationship id it carries, if any. *)
Definition edge_key (e : edge) : nat * nat * string * option pyval :=
  (e_src e, e_tgt e, e_type e, e_props e !! "id").

(** No two edges of a list share endpoints, type and relationship id. *)
Definition keys_unique (es : list edge) : Prop :=
  ∀ i j e e',
    es !! i = Some e → es !! j = Some e' → edge_key e = edge_key e' → i = j.

Definition edge_key_unique (g : graph) : Prop := keys_unique (edges g).

(** A vertex is still itself: same labels, same id, no property gone. *)
Definition node_kept (n n' : node) : Prop :=
  n_labels n' = n_labels n ∧
  n_props n' !! "id" = n_props n !! "id" ∧
  dom (n_props n) ⊆ dom (n_props n').

(** An edge is still itself: same endpoints, type and id, no property gone. *)
Definition edge_kept (e e' : edge) : Prop :=
  edge_key e' = edge_key e ∧ dom (e_props e) ⊆ dom (e_props e').

(** Everything of the first list is still in the second, where it was. *)
Definition all_kept {A} (kept : A → A → Prop) (l l' : list A) : Prop :=
  ∀ i x, l !! i = Some x → ∃ x', l' !! i = Some x' ∧ kept x x'.

(** Every vertex and every edge of [g] is still in [g'], where it was. *)
Definition nothing_lost (g g' : graph) : Prop :=
  all_kept node_kept (nodes g) (nodes g') ∧
  all_kept edge_kept (edges g) (edges g').

(** A lower-case ASCII letter. *)
Definition is_lower (c : ascii) : bool :=
  (97 <=? nat_of_ascii c)%nat && (nat_of_ascii c <=? 122)%nat.

(** The characters of a string. *)
Definition letters (s : string) : list ascii := String.list_ascii_of_string s.

(** ** Further sample records *)

Definition rel_no_target : list (string * pyval) :=
  [("id", VStr "rel9"); ("type", VStr "relationship");
   ("source_ref", VStr "i1"); ("target_ref", VStr "")].

Definition rel_attributed : list (string * pyval) :=
  [("id", VStr "rel7"); ("type", VStr "relationship");
   ("source_ref", VStr "i1"); ("target_ref", VStr "i2");
   ("relationship_type", VStr "attributed-to")].

Definition rel_numeric_type : list (string * pyval) :=
  [("id", VStr "rel8"); ("type", VStr "relationship");
   ("source_ref", VStr "i1"); ("target_ref", VStr "i2");
   ("relationship_type", VInt 7)].

Definition opening_page : page := Page [indicator_i1] true (Some "a").

Definition closing_page : page := Page [indicator_i2; report_r1] false None.

(** A daemon about to be served the two pages, and one that will be served
    the first only. *)
Definition served_daemon : daemon :=
  Daemon (connect empty_graph)
    (page_body <$> [opening_page; closing_page]) [].

Definition stalled_daemon : daemon :=
  Daemon (connect empty_graph) (page_body <$> [opening_page]) [].

(** ** Upserts, vertices and edges alike

    The three statements work in the same way on the vertices or on the
    edges: look for the items a pattern hits, add a fresh one when there is
    none, and set the incoming properties on those hit.  [getp] and [setp]
    read and write the properties of an item. *)

Section upsert.

Context {X : Type}.
Variable getp : X → gmap string pyval.
Variable setp : X → gmap string pyval → X.

Record upsert : Type := Upsert {
  u_hit : X → bool;
  u_fresh : X;
  u_payload : gmap string pyval
}.

Definition u_set (o : upsert) (x : X) : X :=
  if u_hit o x then setp x (set_props (u_payload o) (getp x)) else x.

Definition u_step (l : list X) (o : upsert) : list X :=
  u_set o <$> (if List.existsb (u_hit o) l then l else l ++ [u_fresh o]).

Definition u_run (os : list upsert) (l : list X) : list X := foldl u_step l os.

(** The properties the upserts of [os] that hit [x] have put on it, the
    later ones on top. *)
Definition absorbed (os : list upsert) (x : X) : gmap string pyval :=
  foldl (λ a o, if u_hit o x then set_props (u_payload o) a else a) ∅ os.

(** Setting properties changes no hit, a fresh item is hit by its own
    upsert, and an upsert that hits the fresh item of another one either
    sets nothing or hits only what the other one hits. *)
Definition coherent (os : list upsert) : Prop :=
  (∀ o o' x, o ∈ os → o' ∈ os → u_hit o (u_set o' x) = u_hit o x) ∧
  (∀ o, o ∈ os → u_hit o (u_fresh o) = true) ∧
  (∀ o o', o ∈ os → o' ∈ os → u_hit o' (u_fresh o) = true →
           u_payload o' = ∅ ∨ ∀ x, u_hit o' x = true → u_hit o x = true).

(** Every upsert has an item it hits, and every item already carries what
    the upserts that hit it set. *)
Definition saturated (os : list upsert) (l : list X) : Prop :=
  (∀ o, o ∈ os → List.existsb (u_hit o) l = true) ∧
  (∀ x, x ∈ l → set_props (absorbed os x) (getp x) = getp x).

End upsert.

Arguments upsert X : clear implicits.

Definition node_setp (n : node) (p : gmap string pyval) : node :=
  Node (n_labels n) p.

Definition edge_setp (e : edge) (p : gmap string pyval) : edge :=
  Edge (e_src e) (e_tgt e) (e_type e) p.

Definition node_upsert (label : string) (v : pyval)
    (props : gmap string pyval) : upsert node :=
  Upsert (node_hit label v) (Node [label] {["id" := v]}) props.

Definition ref_upsert (rel_type : string) (r : nat * nat) : upsert edge :=
  Upsert (edge_hit rel_type r) (Edge r.1 r.2 rel_type ∅) ∅.

Definition rel_upsert (rel_type : string) (k : pyval)
    (props : gmap string pyval) (r : nat * nat) : upsert edge :=
  Upsert (keyed_hit rel_type k r) (Edge r.1 r.2 rel_type {["id" := k]}) props.

(** What a statement does to the vertices. *)
Definition node_ops (q : stmt) : list (upsert node) :=
  match q with
  | MergeNode label v props =>
      if decide (v = VNone) then [] else [node_upsert label v props]
  | _ => []
  end.

(** What a statement does to the edges when the vertices carry the ids of
    [sk]. *)
Definition edge_ops (sk : list node) (q : stmt) : list (upsert edge) :=
  match q with
  | MergeNode _ _ _ => []
  | MergeReference rel_type s t => ref_upsert rel_type <$> rows s t sk
  | MergeRelationship rel_type s t k props =>
      if decide (k = VNone) then []
      else rel_upsert rel_type k props <$> rows s t sk
  end.

(** The ids of the vertices, place by place. *)
Definition ids (ns : list node) : list (option pyval) :=
  (λ n, n_props n !! "id") <$> ns.

(** A daemon whose feed breaks after the first page, and one that is served
    the same two pages at each of three turns. *)
Definition broken_daemon : daemon :=
  Daemon (connect empty_graph)
    ((page_body <$> [opening_page])
       ++ [VList [VStr "o9"]; page_body closing_page]) [].

Definition steady_daemon : daemon :=
  Daemon (connect empty_graph)
    ((replicate 3 (page_body <$> [opening_page] ++ [closing_page]) ≫= id)
       ++ []) [].

(** A batch that names its endpoints before it brings them. *)
Definition edge_first : list pyval :=
  [VDict uses_1; report_r1; indicator_i1; indicator_i2].

(** The statements of the transactions that committed, in order. *)
Definition committed_statements (ts : list txn) : list stmt :=
  concat (statements <$> filter (λ t, committed t = true) ts).

(** The characters [str.upper] and [str.replace] are followed on here:
    those of the ASCII range. *)
Definition is_ascii (c : ascii) : bool := (nat_of_ascii c <? 128)%nat.

(** * Properties *)

(** ** Sanitization *)

Lemma replace_no_occurrence (old new : ascii) (s : string) :
  (∀ c, c ∈ String.list_ascii_of_string s → c ≠ old) → replace old new s = s.
Proof.
  induction s as [|c s IH]; simpl; [done|]. intros H.
  destruct (Ascii.eqb_spec c old) as [->|_].
  - exfalso. apply (H old); [left|done].
  - rewrite IH; [done|]. intros c' Hc'. apply H. by right.
Qed.

(** C4. The label of a vertex and the type of an edge do not go through the
    same sanitization: on a name with a blank, [_create_node] keeps the
    blank in the label it splices into its query, and the two relationship
    writers turn it into an underscore. *)
Lemma sanitize_label_keeps_blank :
  sanitize_label "attack pattern" = "attack pattern" ∧
  sanitize_rel_type "attack pattern" = "attack_pattern" ∧
  sanitize_label "attack pattern" ≠ sanitize_rel_type "attack pattern" ∧
  _create_node (VDict [("id", VStr "x1"); ("type", VStr "attack pattern")]) =
    Ok (MergeNode "attack pattern" (VStr "x1")
          (scalar_props [("id", VStr "x1"); ("type", VStr "attack pattern")])) ∧
  _create_relationship (VStr "x1") (VStr "x2") "attack pattern" =
    Ok (MergeReference "attack_pattern" (VStr "x1") (VStr "x2")) ∧
  _create_stix_relationship (VStr "x1") (VStr "x2") "attack pattern"
      (VStr "r1") ∅ =
    Ok (MergeRelationship "attack_pattern" (VStr "x1") (VStr "x2")
          (VStr "r1") ∅).
Proof. repeat split; try reflexivity. discriminate. Qed.

(** Away from blanks the two agree. *)
Lemma sanitize_agree_without_blank (s : string) :
  (∀ c, c ∈ String.list_ascii_of_string s → c ≠ " "%char) →
  sanitize_rel_type s = sanitize_label s.
Proof.
  intros H. unfold sanitize_rel_type, sanitize_label.
  apply replace_no_occurrence. clear -H.
  induction s as [|c s IH]; simpl; [intros c Hc; by apply elem_of_nil in Hc|].
  intros c' [->|Hc']%elem_of_cons.
  - destruct (Ascii.eqb_spec c "-"%char) as [->|_]; [done|].
    apply H. by left.
  - apply IH; [|done]. intros c'' Hc''. apply H. by right.
Qed.

(** ** Pagination *)

Lemma fetch_page_body (py_repr : pyval → string) (p : page)
    (acc : list pyval) :
  fetch_page py_repr (page_body p) acc =
    Ok (acc ++ p_objects p,
        if continues p then Some (next_url p) else None).
Proof.
  destruct p as [objs more [token|]]; unfold fetch_page, continues, next_url;
    destruct more; simpl; try reflexivity.
  destruct token; reflexivity.
Qed.

Lemma fetch_loop_pages (py_repr : pyval → string) (ps : list page)
    (last : page) (later : list pyval) :
  Forall (λ p, continues p = true) ps → continues last = false →
  ∀ url acc asked,
    fetch_loop py_repr ((page_body <$> ps ++ [last]) ++ later) url acc asked =
      FetchRun
        (Fetched (VDict [("objects",
                          VList (acc ++ concat (p_objects <$> ps ++ [last])))]))
        (asked ++ url :: (next_url <$> ps))
        later.
Proof.
  intros Hps Hlast. induction Hps as [|p ps Hp _ IH]; intros url acc asked.
  - simpl. rewrite fetch_page_body, Hlast. by rewrite app_nil_r.
  - simpl. rewrite fetch_page_body, Hp.
    rewrite IH. by rewrite <- !(assoc_L (++)).
Qed.

(** C5. On a feed whose pages each carry a record list, a [more] flag and an
    optional [next] token, the fetcher goes on while the page says [more]
    and supplies a non-empty token, stops at the first page that does not,
    and returns the pages' records in page order: one request per page, the
    first to the base URL and each further one carrying the token of the
    page before. *)
Theorem fetch_stix_objects_paginates (py_repr : pyval → string)
    (ps : list page) (last : page) (later : list pyval) :
  Forall (λ p, continues p = true) ps →
  continues last = false →
  fetch_stix_objects py_repr ((page_body <$> ps ++ [last]) ++ later) =
    FetchRun
      (Fetched (VDict [("objects", VList (concat (p_objects <$> ps ++ [last])))]))
      (TAXII_BASE_URL :: (next_url <$> ps))
      later
  ∧ length (TAXII_BASE_URL :: (next_url <$> ps)) = length (ps ++ [last]).
Proof.
  intros Hps Hlast. split.
  - unfold fetch_stix_objects. by rewrite fetch_loop_pages.
  - rewrite length_app, length_cons, length_fmap. simpl. lia.
Qed.

(** The three-page feed [more, next a], [more, next b], [no more]: all
    records in page order, three requests. *)
Lemma fetch_stix_objects_paginates_witness :
  (Forall (λ p, continues p = true) first_pages ∧ continues last_page = false) ∧
  fetch_stix_objects (λ _, "") (page_body <$> first_pages ++ [last_page]) =
    FetchRun
      (Fetched (VDict [("objects",
                        VList [VStr "o1"; VStr "o2"; VStr "o3"; VStr "o4"])]))
      [TAXII_BASE_URL; TAXII_BASE_URL +:+ "?next=a"; TAXII_BASE_URL +:+ "?next=b"]
      []
  ∧ length [TAXII_BASE_URL; TAXII_BASE_URL +:+ "?next=a";
            TAXII_BASE_URL +:+ "?next=b"] = 3.
Proof.
  assert (Forall (λ p, continues p = true) first_pages) as H1
    by (repeat constructor).
  assert (continues last_page = false) as H2 by reflexivity.
  split; [by split|].
  pose proof (fetch_stix_objects_paginates (λ _, "") first_pages last_page []
                H1 H2) as [H _].
  rewrite app_nil_r in H. split; [exact H|reflexivity].
Defined.

(** ** Running the handler *)

Lemma bind_lift_ok {A B} (a : A) (k : A → M B) (s : session) :
  bind (lift (Ok a)) k s = k a s.
Proof. reflexivity. Qed.

Lemma bind_lift_raise {A B} (e : exn) (k : A → M B) (s : session) :
  bind (lift (Raise e)) k s = (Raise e, s).
Proof. reflexivity. Qed.

Lemma type_is_not (d : list (string * pyval)) (tag : string) :
  dict_get "type" d ≠ Some (VStr tag) → tag ≠ "" →
  default (VStr "") (dict_get "type" d) ≠ VStr tag.
Proof. destruct (dict_get "type" d); simpl; congruence. Qed.

Lemma create_node_without_id (d : list (string * pyval)) :
  dict_get "id" d = None → ∃ e, _create_node (VDict d) = Raise e.
Proof.
  intros Hid. unfold _create_node; simpl.
  destruct (default (VStr "STIXObject") (dict_get "type" d)); simpl; eauto.
  rewrite Hid. simpl. eauto.
Qed.

Lemma load_stix_object_ok (stix_obj : pyval) (s : session) :
  (load_stix_object stix_obj s).1 = Ok tt.
Proof.
  unfold load_stix_object, try_except.
  match goal with |- context [match ?b s with _ => _ end] =>
    destruct (b s) as [[[]|e] s'] end; reflexivity.
Qed.

(** C10. [load_stix_object] returns normally on every input.  A record
    without an [id] that is not a relationship makes [_create_node] raise
    inside its transaction; the handler logs the error and the object, the
    graph and the store are as before.  In the loop of [main] the records
    that follow are processed from there. *)
Theorem load_stix_object_never_raises :
  (∀ stix_obj s, (load_stix_object stix_obj s).1 = Ok tt) ∧
  (∀ d s,
     dict_get "id" d = None →
     dict_get "type" d ≠ Some (VStr "relationship") →
     ∃ e, _create_node (VDict d) = Raise e ∧
          load_stix_object (VDict d) s =
            (Ok tt,
             Session (db s) (outages s) (journal s ++ [Txn [] false])
               (errors s ++ [LogExn "Error processing STIX object" e;
                             LogObj "Problematic STIX object" (VDict d)]))) ∧
  (∀ stix_obj objs s,
     process_objects (stix_obj :: objs) s =
       process_objects objs (load_stix_object stix_obj s).2).
Proof.
  split; [|split].
  - apply load_stix_object_ok.
  - intros d s Hid Hty. destruct (create_node_without_id d Hid) as [e He].
    exists e. split; [done|].
    unfold load_stix_object, try_except. cbn [py_get]. rewrite bind_lift_ok.
    rewrite bool_decide_eq_true_2 by (by apply type_is_not).
    unfold bind at 1. unfold execute_write at 1. rewrite He. simpl.
    unfold bind, logger_error, record_txn. simpl.
    by rewrite <- (assoc_L (++)).
  - intros stix_obj objs s. unfold process_objects. simpl.
    unfold bind at 1, try_except at 1.
    pose proof (load_stix_object_ok stix_obj s) as H.
    destruct (load_stix_object stix_obj s) as [[[]|e] s']; simpl in *;
      [reflexivity|discriminate].
Qed.

Lemma load_stix_object_never_raises_witness :
  (dict_get "id" anonymous = None ∧
   dict_get "type" anonymous ≠ Some (VStr "relationship")) ∧
  load_stix_object (VDict anonymous) (connect empty_graph) =
    (Ok tt,
     Session empty_graph [] [Txn [] false]
       [LogExn "Error processing STIX object" (KeyError "id");
        LogObj "Problematic STIX object" (VDict anonymous)]).
Proof.
  assert (dict_get "id" anonymous = None) as H1 by reflexivity.
  assert (dict_get "type" anonymous ≠ Some (VStr "relationship")) as H2
    by discriminate.
  split; [by split|].
  destruct load_stix_object_never_raises as (_ & H & _).
  destruct (H anonymous (connect empty_graph) H1 H2) as (e & He & ->).
  vm_compute in He. injection He as <-. reflexivity.
Defined.

(** ** The store: vertices *)

Lemma existsb_elem_of {A} (f : A → bool) (l : list A) :
  List.existsb f l = true ↔ ∃ x, x ∈ l ∧ f x = true.
Proof.
  rewrite existsb_exists. split; intros (x & Hx & Hf); exists x;
    (split; [by apply list_elem_of_In|done]).
Qed.

Lemma existsb_false_elem_of {A} (f : A → bool) (l : list A) (x : A) :
  List.existsb f l = false → x ∈ l → f x = false.
Proof.
  intros Hno Hx. destruct (f x) eqn:Hf; [|done].
  assert (List.existsb f l = true) by (apply existsb_elem_of; eauto).
  congruence.
Qed.

Lemma set_props_idemp (props p : gmap string pyval) :
  set_props props (set_props props p) = set_props props p.
Proof. unfold set_props. by rewrite (assoc_L (∪)), (idemp_L (∪)). Qed.

Lemma set_props_id (props p : gmap string pyval) (k : pyval) :
  agrees props k → p !! "id" = Some k → set_props props p !! "id" = Some k.
Proof.
  intros [Hnone|Hsome] Hp; unfold set_props.
  - by rewrite lookup_union_r.
  - by erewrite lookup_union_Some_l.
Qed.

Lemma has_id_true (v : pyval) (p : gmap string pyval) :
  has_id v p = true ↔ v ≠ VNone ∧ p !! "id" = Some v.
Proof. unfold has_id. by rewrite bool_decide_eq_true. Qed.

Lemma node_set_labels (label : string) (v : pyval)
    (props : gmap string pyval) (n : node) :
  n_labels (node_set label v props n) = n_labels n.
Proof. unfold node_set. by destruct (node_hit label v n). Qed.

Lemma node_set_id (label : string) (v : pyval) (props : gmap string pyval)
    (n : node) :
  agrees props v →
  n_props (node_set label v props n) !! "id" = n_props n !! "id".
Proof.
  intros Hag. unfold node_set. destruct (node_hit label v n) eqn:Hhit; [|done].
  apply andb_true_iff in Hhit as [_ [_ Hid]%has_id_true]. simpl.
  rewrite Hid. by apply set_props_id.
Qed.

Lemma node_hit_node_set (label label' : string) (v w : pyval)
    (props : gmap string pyval) (n : node) :
  agrees props v →
  node_hit label' w (node_set label v props n) = node_hit label' w n.
Proof.
  intros Hag. unfold node_hit, has_id.
  by rewrite node_set_labels, node_set_id.
Qed.

Lemma node_set_idemp (label : string) (v : pyval) (props : gmap string pyval)
    (n : node) :
  agrees props v →
  node_set label v props (node_set label v props n) = node_set label v props n.
Proof.
  intros Hag. unfold node_set at 1. rewrite node_hit_node_set by done.
  unfold node_set. destruct (node_hit label v n) eqn:Hhit; [|done].
  simpl. by rewrite set_props_idemp.
Qed.

Lemma node_hit_new (label : string) (v : pyval) :
  v ≠ VNone → node_hit label v (Node [label] {["id" := v]}) = true.
Proof.
  intros Hv. unfold node_hit. apply andb_true_iff. split.
  - apply bool_decide_eq_true. simpl. by left.
  - apply has_id_true. split; [done|]. simpl. by rewrite lookup_singleton_eq.
Qed.

Lemma merged_over_hit (label : string) (v : pyval) (ns : list node) :
  v ≠ VNone → List.existsb (node_hit label v) (merged_over label v ns) = true.
Proof.
  intros Hv. unfold merged_over.
  destruct (List.existsb (node_hit label v) ns) eqn:Hex; [done|].
  apply existsb_elem_of. exists (Node [label] {["id" := v]}). split.
  - apply elem_of_app. right. by left.
  - by apply node_hit_new.
Qed.

Lemma existsb_node_set (label : string) (v : pyval)
    (props : gmap string pyval) (ns : list node) :
  agrees props v →
  List.existsb (node_hit label v) (node_set label v props <$> ns) =
    List.existsb (node_hit label v) ns.
Proof.
  intros Hag. induction ns as [|n ns IH]; [done|].
  rewrite fmap_cons. cbn [List.existsb]. by rewrite node_hit_node_set, IH.
Qed.

Lemma merge_node_settled (label : string) (v : pyval)
    (props : gmap string pyval) (g g' : graph) :
  v ≠ VNone → agrees props v →
  nodes g' = nodes (merge_node label v props g) →
  merge_node label v props g' = g'.
Proof.
  intros Hv Hag Hnodes. destruct g' as [ns' es']. simpl in Hnodes.
  unfold merge_node at 1. simpl. f_equal.
  assert (List.existsb (node_hit label v) ns' = true) as Hex.
  { rewrite Hnodes, existsb_node_set by done. by apply merged_over_hit. }
  unfold merged_over. rewrite Hex. rewrite Hnodes.
  rewrite <- list_fmap_compose. apply list_fmap_ext. intros _ n _. simpl.
  by apply node_set_idemp.
Qed.

Lemma merge_node_hit (label : string) (v : pyval)
    (props : gmap string pyval) (g : graph) :
  v ≠ VNone → agrees props v →
  ∃ i n, nodes (merge_node label v props g) !! i = Some n ∧
         node_hit label v n = true.
Proof.
  intros Hv Hag.
  assert (List.existsb (node_hit label v) (nodes (merge_node label v props g))
          = true) as Hex.
  { unfold merge_node. simpl.
    rewrite existsb_node_set by done. by apply merged_over_hit. }
  apply existsb_elem_of in Hex as (n & Hn & Hhit).
  apply list_elem_of_lookup in Hn as [i Hi]. eauto.
Qed.

Lemma merge_node_same_size (label : string) (v : pyval)
    (props : gmap string pyval) (g : graph) :
  List.existsb (node_hit label v) (nodes g) = true →
  length (nodes (merge_node label v props g)) = length (nodes g).
Proof.
  intros Hex. unfold merge_node, merged_over. simpl.
  by rewrite Hex, length_fmap.
Qed.

Lemma node_hit_new_inv (label l : string) (v w : pyval) :
  node_hit l w (Node [label] {["id" := v]}) = true → l = label ∧ w = v.
Proof.
  unfold node_hit. intros [Hl [_ Hw]%has_id_true]%andb_true_iff.
  apply bool_decide_eq_true in Hl. simpl in *.
  apply list_elem_of_singleton in Hl.
  rewrite lookup_singleton_eq in Hw. split; congruence.
Qed.

Lemma merge_node_unique (label : string) (v : pyval)
    (props : gmap string pyval) (g : graph) :
  agrees props v → label_id_unique g →
  label_id_unique (merge_node label v props g).
Proof.
  intros Hag Huniq l w i j n m. unfold merge_node, merged_over. simpl.
  rewrite !list_lookup_fmap.
  destruct (List.existsb (node_hit label v) (nodes g)) eqn:Hex.
  - intros (n0 & Hn0 & ->)%fmap_Some (m0 & Hm0 & ->)%fmap_Some.
    rewrite !node_hit_node_set by done. eauto.
  - intros (n0 & Hn0 & ->)%fmap_Some (m0 & Hm0 & ->)%fmap_Some.
    rewrite !node_hit_node_set by done. intros Hn Hm.
    apply lookup_app_Some in Hn0 as [Hn0|[Hi Hn0]];
      apply lookup_app_Some in Hm0 as [Hm0|[Hj Hm0]].
    + eauto.
    + apply list_lookup_singleton_Some in Hm0 as [Hj0 <-].
      exfalso. assert (node_hit label v n0 = false) as Hno.
      { eapply existsb_false_elem_of; [done|]. by eapply list_elem_of_lookup_2. }
      apply node_hit_new_inv in Hm as [-> ->]. congruence.
    + apply list_lookup_singleton_Some in Hn0 as [Hi0 <-].
      exfalso. assert (node_hit label v m0 = false) as Hno.
      { eapply existsb_false_elem_of; [done|]. by eapply list_elem_of_lookup_2. }
      apply node_hit_new_inv in Hn as [-> ->]. congruence.
    + apply list_lookup_singleton_Some in Hn0 as [? _].
      apply list_lookup_singleton_Some in Hm0 as [? _]. lia.
Qed.

(** ** The store: matching and rows *)

Lemma elem_of_matching (v : pyval) (ns : list node) (i : nat) :
  i ∈ matching v ns ↔ ∃ n, ns !! i = Some n ∧ has_id v (n_props n) = true.
Proof.
  unfold matching. rewrite list_elem_of_filter, elem_of_seq. split.
  - intros [Hhit _]. destruct (ns !! i) as [n|]; [eauto|done].
  - intros (n & Hn & Hhit). rewrite Hn. split; [done|].
    apply lookup_lt_Some in Hn. lia.
Qed.

Lemma elem_of_rows (s t : pyval) (ns : list node) (i j : nat) :
  (i, j) ∈ rows s t ns ↔ i ∈ matching s ns ∧ j ∈ matching t ns.
Proof.
  unfold rows. by rewrite !list_elem_of_In, in_prod_iff.
Qed.

Lemma rows_without_source (s t : pyval) (ns : list node) :
  matching s ns = [] → rows s t ns = [].
Proof. unfold rows. by intros ->. Qed.

Lemma rows_without_target (s t : pyval) (ns : list node) :
  matching t ns = [] → rows s t ns = [].
Proof.
  unfold rows. intros ->. induction (matching s ns); [done|]. by simpl.
Qed.

(** ** The store: reference edges *)

Lemma existsb_prefix {A} (f : A → bool) (l l' : list A) :
  l `prefix_of` l' → List.existsb f l = true → List.existsb f l' = true.
Proof.
  intros [k ->] (x & Hx & Hf)%existsb_elem_of. apply existsb_elem_of.
  exists x. split; [|done]. apply elem_of_app. by left.
Qed.

Lemma merge_reference_row_prefix (rel_type : string) (es : list edge)
    (r : nat * nat) :
  es `prefix_of` merge_reference_row rel_type es r.
Proof.
  unfold merge_reference_row.
  destruct (List.existsb (edge_hit rel_type r) es); [done|].
  by apply prefix_app_r.
Qed.

Lemma merge_reference_row_hit (rel_type : string) (es : list edge)
    (r : nat * nat) :
  List.existsb (edge_hit rel_type r) (merge_reference_row rel_type es r) = true.
Proof.
  unfold merge_reference_row.
  destruct (List.existsb (edge_hit rel_type r) es) eqn:Hex; [done|].
  apply existsb_elem_of. exists (Edge r.1 r.2 rel_type ∅). split.
  - apply elem_of_app. right. by left.
  - by apply bool_decide_eq_true.
Qed.

Lemma fold_reference_prefix (rel_type : string) (rs : list (nat * nat))
    (es : list edge) :
  es `prefix_of` foldl (merge_reference_row rel_type) es rs.
Proof.
  revert es. induction rs as [|r rs IH]; intros es; simpl; [done|].
  etrans; [apply merge_reference_row_prefix|apply IH].
Qed.

Lemma fold_reference_linked (rel_type : string) (rs : list (nat * nat))
    (es : list edge) :
  rows_linked rel_type rs (foldl (merge_reference_row rel_type) es rs).
Proof.
  revert es. induction rs as [|r rs IH]; intros es r' Hr'.
  - by apply elem_of_nil in Hr'.
  - simpl. apply elem_of_cons in Hr' as [->|Hr']; [|by apply IH].
    eapply existsb_prefix; [apply fold_reference_prefix|].
    apply merge_reference_row_hit.
Qed.

Lemma fold_reference_fix (rel_type : string) (rs : list (nat * nat))
    (es : list edge) :
  rows_linked rel_type rs es →
  foldl (merge_reference_row rel_type) es rs = es.
Proof.
  induction rs as [|r rs IH]; intros Hlinked; simpl; [done|].
  unfold merge_reference_row at 2. rewrite Hlinked by left.
  apply IH. intros r' Hr'. apply Hlinked. by right.
Qed.

Lemma rows_linked_prefix (rel_type : string) (rs : list (nat * nat))
    (es es' : list edge) :
  es `prefix_of` es' → rows_linked rel_type rs es → rows_linked rel_type rs es'.
Proof. intros Hpre Hl r Hr. eapply existsb_prefix; [done|]. by apply Hl. Qed.

Lemma merge_reference_nodes (rel_type : string) (s t : pyval) (g : graph) :
  nodes (merge_reference rel_type s t g) = nodes g.
Proof. reflexivity. Qed.

Lemma merge_reference_prefix (rel_type : string) (s t : pyval) (g : graph) :
  edges g `prefix_of` edges (merge_reference rel_type s t g).
Proof. apply fold_reference_prefix. Qed.

Lemma merge_reference_linked (rel_type : string) (s t : pyval) (g : graph) :
  rows_linked rel_type (rows s t (nodes g))
    (edges (merge_reference rel_type s t g)).
Proof. apply fold_reference_linked. Qed.

Lemma merge_reference_fix (rel_type : string) (s t : pyval) (g : graph) :
  rows_linked rel_type (rows s t (nodes g)) (edges g) →
  merge_reference rel_type s t g = g.
Proof.
  intros Hl. unfold merge_reference. rewrite fold_reference_fix by done.
  by destruct g.
Qed.

(** ** The store: relationship edges *)

Lemma edge_set_ends (rel_type : string) (k : pyval)
    (props : gmap string pyval) (r r' : nat * nat) (e : edge) (t : string) :
  edge_hit t r (edge_set rel_type k props r' e) = edge_hit t r e.
Proof. unfold edge_set. by destruct (keyed_hit rel_type k r' e). Qed.

Lemma edge_set_id (rel_type : string) (k : pyval)
    (props : gmap string pyval) (r : nat * nat) (e : edge) :
  agrees props k →
  e_props (edge_set rel_type k props r e) !! "id" = e_props e !! "id".
Proof.
  intros Hag. unfold edge_set.
  destruct (keyed_hit rel_type k r e) eqn:Hhit; [|done].
  apply andb_true_iff in Hhit as [_ [_ Hid]%has_id_true]. simpl.
  rewrite Hid. by apply set_props_id.
Qed.

Lemma has_id_edge_set (rel_type : string) (k w : pyval)
    (props : gmap string pyval) (r : nat * nat) (e : edge) :
  agrees props k →
  has_id w (e_props (edge_set rel_type k props r e)) = has_id w (e_props e).
Proof. intros Hag. unfold has_id. by rewrite edge_set_id. Qed.

Lemma keyed_hit_edge_set (rel_type t : string) (k w : pyval)
    (props : gmap string pyval) (r r' : nat * nat) (e : edge) :
  agrees props k →
  keyed_hit t w r (edge_set rel_type k props r' e) = keyed_hit t w r e.
Proof.
  intros Hag. unfold keyed_hit. by rewrite edge_set_ends, has_id_edge_set.
Qed.

Lemma keyed_hit_new (rel_type : string) (k : pyval) (r : nat * nat) :
  k ≠ VNone →
  keyed_hit rel_type k r (Edge r.1 r.2 rel_type {["id" := k]}) = true.
Proof.
  intros Hk. unfold keyed_hit. apply andb_true_iff. split.
  - by apply bool_decide_eq_true.
  - apply has_id_true. split; [done|]. simpl. by rewrite lookup_singleton_eq.
Qed.

Lemma existsb_edge_set (rel_type t : string) (k w : pyval)
    (props : gmap string pyval) (r r' : nat * nat) (es : list edge) :
  agrees props k →
  List.existsb (keyed_hit t w r) (edge_set rel_type k props r' <$> es) =
    List.existsb (keyed_hit t w r) es.
Proof.
  intros Hag. induction es as [|e es IH]; [done|].
  rewrite fmap_cons. cbn [List.existsb]. by rewrite keyed_hit_edge_set, IH.
Qed.

Lemma edge_set_settled (rel_type : string) (k : pyval)
    (props : gmap string pyval) (r : nat * nat) (e : edge) :
  set_props props (e_props (edge_set rel_type k props r e))
    = e_props (edge_set rel_type k props r e) ∨
  (edge_set rel_type k props r e = e ∧ keyed_hit rel_type k r e = false).
Proof.
  unfold edge_set. destruct (keyed_hit rel_type k r e); [left|by right].
  simpl. apply set_props_idemp.
Qed.

Lemma merge_relationship_row_fix (rel_type : string) (k : pyval)
    (props : gmap string pyval) (es : list edge) (r : nat * nat) :
  settled rel_type k props es r →
  merge_relationship_row rel_type k props es r = es.
Proof.
  intros [Hex Hset]. unfold merge_relationship_row. rewrite Hex.
  rewrite <- (list_fmap_id es) at 2. apply list_fmap_ext. intros i e He.
  unfold edge_set. destruct (keyed_hit rel_type k r e) eqn:Hhit; [|done].
  apply list_elem_of_lookup_2 in He. rewrite (Hset e He Hhit). by destruct e.
Qed.

Lemma merge_relationship_row_keeps (rel_type : string) (k : pyval)
    (props : gmap string pyval) (es : list edge) (r r' : nat * nat) :
  k ≠ VNone → agrees props k →
  (r = r' ∨ settled rel_type k props es r) →
  settled rel_type k props (merge_relationship_row rel_type k props es r') r.
Proof.
  intros Hk Hag Hr. unfold merge_relationship_row.
  set (es1 := if List.existsb (keyed_hit rel_type k r') es then es
              else es ++ [Edge r'.1 r'.2 rel_type {["id" := k]}]).
  assert (es `prefix_of` es1) as Hpre.
  { subst es1. destruct (List.existsb (keyed_hit rel_type k r') es); [done|].
    by apply prefix_app_r. }
  assert (∀ e, e ∈ es1 → e ∈ es ∨ keyed_hit rel_type k r' e = true) as Hin.
  { subst es1. intros e He.
    destruct (List.existsb (keyed_hit rel_type k r') es); [by left|].
    apply elem_of_app in He as [He|He]; [by left|right].
    apply list_elem_of_singleton in He as ->. by apply keyed_hit_new. }
  split.
  - rewrite existsb_edge_set by done. destruct Hr as [->|[Hex _]].
    + subst es1.
      destruct (List.existsb (keyed_hit rel_type k r') es) eqn:Hex; [done|].
      apply existsb_elem_of. eexists. split; [|by apply keyed_hit_new].
      apply elem_of_app. right. by left.
    + by eapply existsb_prefix.
  - intros e' (e0 & -> & He0)%list_elem_of_fmap Hhit.
    destruct (edge_set_settled rel_type k props r' e0) as [Hdone|[Heq Hno]];
      [done|].
    rewrite Heq in *. destruct Hr as [->|[_ Hset]]; [congruence|].
    destruct (Hin e0 He0) as [Hold|Hnew]; [by apply Hset|congruence].
Qed.

Lemma fold_relationship_settled (rel_type : string) (k : pyval)
    (props : gmap string pyval) (rs : list (nat * nat)) (es : list edge) :
  k ≠ VNone → agrees props k →
  ∀ r, r ∈ rs →
    settled rel_type k props
      (foldl (merge_relationship_row rel_type k props) es rs) r.
Proof.
  intros Hk Hag. induction rs as [|r' rs IH] using rev_ind; intros r Hr.
  - by apply elem_of_nil in Hr.
  - rewrite foldl_snoc. apply merge_relationship_row_keeps; [done..|].
    apply elem_of_app in Hr as [Hr|Hr]; [right; by apply IH|left].
    by apply list_elem_of_singleton in Hr.
Qed.

Lemma fold_relationship_fix (rel_type : string) (k : pyval)
    (props : gmap string pyval) (rs : list (nat * nat)) (es : list edge) :
  (∀ r, r ∈ rs → settled rel_type k props es r) →
  foldl (merge_relationship_row rel_type k props) es rs = es.
Proof.
  induction rs as [|r rs IH]; intros Hset; simpl; [done|].
  rewrite merge_relationship_row_fix by (apply Hset; left).
  apply IH. intros r' Hr'. apply Hset. by right.
Qed.

Lemma merge_relationship_idemp (rel_type : string) (s t k : pyval)
    (props : gmap string pyval) (g : graph) :
  k ≠ VNone → agrees props k →
  merge_relationship rel_type s t k props
    (merge_relationship rel_type s t k props g)
  = merge_relationship rel_type s t k props g.
Proof.
  intros Hk Hag. unfold merge_relationship at 1. simpl. unfold merge_relationship.
  f_equal. apply fold_relationship_fix. by apply fold_relationship_settled.
Qed.

Lemma merge_relationship_no_rows (rel_type : string) (s t k : pyval)
    (props : gmap string pyval) (g : graph) :
  rows s t (nodes g) = [] → merge_relationship rel_type s t k props g = g.
Proof. unfold merge_relationship. intros ->. by destruct g. Qed.

(** ** The handler when the store is in reach *)

Lemma elem_of_py_items (d : list (string * pyval)) (k : string) (v : pyval) :
  (k, v) ∈ py_items d → dict_get k d = Some v.
Proof.
  induction d as [|[k' v'] d IH]; simpl; [by intros ?%elem_of_nil|].
  intros [[= -> ->]|Hin]%elem_of_cons.
  - by rewrite decide_True.
  - apply list_elem_of_filter in Hin as [Hne Hin]. simpl in Hne.
    rewrite decide_False by done. by apply IH.
Qed.

Lemma scalar_props_lookup (d : list (string * pyval)) (k : string) (v : pyval) :
  scalar_props d !! k = Some v → dict_get k d = Some v.
Proof.
  unfold scalar_props. intros Hin%elem_of_list_to_map_2.
  apply list_elem_of_filter in Hin as [_ Hin]. by apply elem_of_py_items.
Qed.

Lemma scalar_props_agrees (d : list (string * pyval)) :
  agrees (scalar_props d) (default VNone (dict_get "id" d)).
Proof.
  unfold agrees. destruct (scalar_props d !! "id") as [w|] eqn:Hw; [|by left].
  right. apply scalar_props_lookup in Hw. by rewrite Hw.
Qed.

Lemma create_node_wf (stix_obj : pyval) (q : stmt) :
  _create_node stix_obj = Ok q → wf_stmt q.
Proof.
  unfold _create_node. destruct stix_obj as [| | | | | |d]; try done. simpl.
  destruct (default (VStr "STIXObject") (dict_get "type" d)); try done. simpl.
  destruct (dict_get "id" d) as [v|] eqn:Hid; [|done]. simpl.
  intros [= <-]. simpl. pose proof (scalar_props_agrees d) as H.
  by rewrite Hid in H.
Qed.

Lemma execute_write_in_reach (q : stmt) (s : session) :
  outages s = [] →
  execute_write (Ok q) s =
    match run_stmt q (db s) with
    | Ok g' => (Ok tt, record_txn (Txn [q] true) g' [] s)
    | Raise e => (Raise e, record_txn (Txn [q] false) (db s) [] s)
    end.
Proof. intros Hup. unfold execute_write. rewrite Hup. simpl. done. Qed.

Lemma effect_app (qs qs' : list stmt) (g : graph) :
  effect (qs ++ qs') g = effect qs' (effect qs g).
Proof. unfold effect. by rewrite foldl_app. Qed.

Lemma references_in_reach (stix_obj : pyval) (v : pyval)
    (ref_ids : list pyval) (s : session) :
  py_getitem stix_obj "id" = Ok v → outages s = [] →
  ∃ s',
    for_each ref_ids (λ ref_id,
      try_except
        (let! id := lift (py_getitem stix_obj "id") in
         execute_write (_create_relationship id ref_id "REFERENCES"))
        (λ e, logger_error
                (LogExn "Error creating report reference relationship" e))) s
    = (Ok tt, s') ∧
    outages s' = [] ∧
    db s' = effect (MergeReference "REFERENCES" v <$> ref_ids) (db s).
Proof.
  intros Hid. set (body := λ ref_id : pyval, try_except _ _).
  revert s. induction ref_ids as [|r rs IH]; intros s Hup.
  - exists s. by rewrite Hup.
  - cbn [for_each]. unfold bind at 1. unfold body at 1.
    unfold try_except at 1. rewrite Hid, bind_lift_ok.
    unfold _create_relationship.
    change (sanitize_rel_type "REFERENCES") with "REFERENCES".
    rewrite execute_write_in_reach by done. cbn [run_stmt].
    destruct (IH (record_txn (Txn [MergeReference "REFERENCES" v r] true)
                    (merge_reference "REFERENCES" v r (db s)) [] s) eq_refl)
      as (s' & -> & H2 & H3).
    exists s'. by rewrite H2, H3.
Qed.

Lemma create_node_inv (d : list (string * pyval)) (q : stmt) :
  _create_node (VDict d) = Ok q →
  ∃ ty v,
    default (VStr "STIXObject") (dict_get "type" d) = VStr ty ∧
    dict_get "id" d = Some v ∧
    q = MergeNode (sanitize_label ty) v (scalar_props d).
Proof.
  unfold _create_node. simpl.
  destruct (default (VStr "STIXObject") (dict_get "type" d)) as [| | | |ty| |];
    try done. simpl.
  destruct (dict_get "id" d) as [v|]; [|done]. simpl. intros [= <-]. eauto.
Qed.

Lemma load_in_reach (stix_obj : pyval) (s : session) :
  outages s = [] →
  ∃ s', load_stix_object stix_obj s = (Ok tt, s') ∧
        outages s' = [] ∧
        db s' = effect (statements_of stix_obj) (db s).
Proof.
  intros Hup.
  destruct stix_obj as [| | | | | |d];
    try (eexists; split; [reflexivity|by split]).
  unfold load_stix_object, statements_of. cbn [py_get py_in]. 
  set (handler := λ e : exn, bind _ _).
  set (obj_type := default (VStr "") (dict_get "type" d)).
  destruct (decide (obj_type = VStr "relationship")) as [Hrel|Hrel].
  - unfold try_except. rewrite bind_lift_ok.
    rewrite bool_decide_eq_false_2 by (by intros ?).
    rewrite Hrel.
    rewrite (bool_decide_eq_false_2 (VStr "relationship" = VStr "report"))
      by discriminate.
    rewrite (bool_decide_eq_true_2 (VStr "relationship" = VStr "relationship"))
      by done.
    unfold bind at 1. unfold ret at 1. unfold bind at 1. unfold ret at 1.
    rewrite !bind_lift_ok.
    destruct (default (VStr "RELATED_TO") (dict_get "relationship_type" d))
      as [| | | |declared| |] eqn:Hdecl;
      try (eexists; split; [reflexivity|by split]).
    cbn [str_method]. rewrite bind_lift_ok.
    destruct (truthy _) eqn:Htruthy;
      [|eexists; split; [reflexivity|by split]].
    unfold try_except. cbn [py_scalar_props]. rewrite !bind_lift_ok.
    unfold _create_stix_relationship.
    rewrite execute_write_in_reach by done. unfold effect. cbn [foldl].
    destruct (run_stmt _ (db s)) as [g'|e];
      eexists; (split; [reflexivity|by split]).
  - unfold try_except at 1. rewrite bind_lift_ok.
    rewrite bool_decide_eq_true_2 by done. unfold bind at 1.
    destruct (_create_node (VDict d)) as [q|e] eqn:Hnode;
      [|eexists; split; [reflexivity|by split]].
    destruct (create_node_inv d q Hnode) as (ty & v & Hty & Hid & ->).
    rewrite execute_write_in_reach by done. cbn [run_stmt].
    destruct (decide (v = VNone)) as [Hv|Hv];
      [eexists; split; [reflexivity|by split]|].
    unfold effect. cbn [foldl run_stmt]. rewrite decide_False by done.
    fold (effect). 
    set (s1 := record_txn _ _ [] s).
    change (merge_node (sanitize_label ty) v (scalar_props d) (db s))
      with (db s1).
    assert (outages s1 = []) as Hup1 by done. clearbody s1.
    destruct (decide (obj_type = VStr "report")) as [Hrep|Hrep].
    + rewrite (bool_decide_eq_true_2 _ Hrep). rewrite bind_lift_ok.
      destruct (dict_get "object_refs" d) as [refs|] eqn:Hrefs.
      * rewrite bool_decide_eq_true_2 by done. cbn [py_getitem].
        rewrite Hrefs, bind_lift_ok.
        destruct (py_iter refs) as [ref_ids|e];
          [|eexists; split; [reflexivity|by split]].
        rewrite bind_lift_ok.
        destruct (references_in_reach (VDict d) v ref_ids s1)
          as (s' & Hrun & H2 & H3); [by simpl; rewrite Hid|done|].
        cbn [py_getitem] in Hrun. rewrite Hrun. exists s'. done.
      * rewrite bool_decide_eq_false_2 by (by intros [? ?]).
        rewrite bool_decide_eq_false_2 by done.
        eexists; split; [reflexivity|by split].
    + rewrite (bool_decide_eq_false_2 _ Hrep).
      unfold bind at 1. unfold ret at 1.
      rewrite bool_decide_eq_false_2 by done.
      eexists; split; [reflexivity|by split].
Qed.

Lemma process_objects_cons (stix_obj : pyval) (objs : list pyval)
    (s : session) :
  process_objects (stix_obj :: objs) s =
    process_objects objs (load_stix_object stix_obj s).2.
Proof.
  unfold process_objects. cbn [for_each]. unfold bind at 1, try_except at 1.
  pose proof (load_stix_object_ok stix_obj s) as H.
  destruct (load_stix_object stix_obj s) as [[[]|e] s']; simpl in *;
    [reflexivity|discriminate].
Qed.

Lemma process_in_reach (objs : list pyval) (s : session) :
  outages s = [] →
  ∃ s', process_objects objs s = (Ok tt, s') ∧
        outages s' = [] ∧
        db s' = effect (objs ≫= statements_of) (db s).
Proof.
  revert s. induction objs as [|obj objs IH]; intros s Hup.
  - exists s. by rewrite Hup.
  - rewrite process_objects_cons.
    destruct (load_in_reach obj s Hup) as (s1 & -> & Hup1 & Hdb1).
    cbn [snd]. destruct (IH s1 Hup1) as (s' & -> & Hup' & Hdb').
    exists s'. split; [done|split; [done|]].
    cbn [mbind list_bind]. simpl. by rewrite effect_app, <- Hdb1.
Qed.

Lemma deliver_effect (objs : list pyval) (g : graph) :
  deliver objs g = effect (objs ≫= statements_of) g.
Proof.
  unfold deliver.
  destruct (process_in_reach objs (connect g) eq_refl) as (s' & -> & _ & H).
  exact H.
Qed.

(** ** Doing a record's statements again *)

Lemma effect_references_nodes (v : pyval) (refs : list pyval) (g : graph) :
  nodes (effect (MergeReference "REFERENCES" v <$> refs) g) = nodes g.
Proof.
  revert g. induction refs as [|r refs IH]; intros g; [done|].
  rewrite fmap_cons. change (effect (?q :: ?qs) g) with (effect qs (effect [q] g)).
  by rewrite IH.
Qed.

Lemma effect_references_prefix (v : pyval) (refs : list pyval) (g : graph) :
  edges g `prefix_of` edges (effect (MergeReference "REFERENCES" v <$> refs) g).
Proof.
  revert g. induction refs as [|r refs IH]; intros g; [done|].
  rewrite fmap_cons. change (effect (?q :: ?qs) g) with (effect qs (effect [q] g)).
  etrans; [|apply IH]. apply merge_reference_prefix.
Qed.

Lemma effect_references_linked (v : pyval) (refs : list pyval) (g : graph)
    (r : pyval) :
  r ∈ refs →
  rows_linked "REFERENCES" (rows v r (nodes g))
    (edges (effect (MergeReference "REFERENCES" v <$> refs) g)).
Proof.
  revert g. induction refs as [|r' refs IH]; intros g Hr;
    [by apply elem_of_nil in Hr|].
  rewrite fmap_cons. change (effect (?q :: ?qs) g) with (effect qs (effect [q] g)).
  apply elem_of_cons in Hr as [->|Hr].
  - eapply rows_linked_prefix; [apply effect_references_prefix|].
    apply merge_reference_linked.
  - apply (IH (merge_reference "REFERENCES" v r' g) Hr).
Qed.

Lemma effect_references_fix (v : pyval) (refs : list pyval) (g : graph) :
  (∀ r, r ∈ refs →
        rows_linked "REFERENCES" (rows v r (nodes g)) (edges g)) →
  effect (MergeReference "REFERENCES" v <$> refs) g = g.
Proof.
  induction refs as [|r refs IH]; intros Hl; [done|].
  rewrite fmap_cons. change (effect (?q :: ?qs) g) with (effect qs (effect [q] g)).
  change (effect [MergeReference "REFERENCES" v r] g)
    with (merge_reference "REFERENCES" v r g).
  rewrite merge_reference_fix by (apply Hl; left).
  apply IH. intros r' Hr'. apply Hl. by right.
Qed.

Lemma record_plan_idempotent (qs : list stmt) (g : graph) :
  record_plan qs → effect qs (effect qs g) = effect qs g.
Proof.
  intros [|label v props refs Hv Hag|rel_type s t k props Hag]; [done| |].
  - assert (∀ g, effect (MergeNode label v props
                           :: (MergeReference "REFERENCES" v <$> refs)) g
                 = effect (MergeReference "REFERENCES" v <$> refs)
                     (merge_node label v props g)) as Heff.
    { intros g0. unfold effect at 1. cbn [foldl run_stmt].
      by rewrite decide_False. }
    rewrite !Heff.
    set (g1 := merge_node label v props g).
    set (g2 := effect _ g1).
    assert (nodes g2 = nodes g1) as Hnodes by apply effect_references_nodes.
    rewrite (merge_node_settled label v props g g2) by done.
    apply effect_references_fix. intros r Hr. rewrite Hnodes.
    by apply effect_references_linked.
  - unfold effect. cbn [foldl run_stmt].
    destruct (decide (k = VNone ∧ rows s t (nodes g) ≠ [])) as [Hnull|Hok].
    { by rewrite decide_True. }
    destruct (decide (k = VNone)) as [->|Hk].
    + assert (rows s t (nodes g) = []) as Hrows.
      { destruct (rows s t (nodes g)); [done|]. exfalso. by apply Hok. }
      rewrite !(merge_relationship_no_rows rel_type s t VNone props g Hrows).
      by destruct (decide _).
    + rewrite decide_False by (by intros [? _]).
      by apply merge_relationship_idemp.
Qed.

Lemma statements_of_plan (stix_obj : pyval) : record_plan (statements_of stix_obj).
Proof.
  destruct stix_obj as [| | | | | |d]; try constructor.
  unfold statements_of.
  destruct (decide (default (VStr "") (dict_get "type" d) = VStr "relationship")).
  - destruct (default (VStr "RELATED_TO") (dict_get "relationship_type" d));
      try constructor.
    destruct (truthy _); constructor. apply scalar_props_agrees.
  - destruct (_create_node (VDict d)) as [q|e] eqn:Hnode; [|constructor].
    pose proof (create_node_wf _ _ Hnode) as Hwf.
    destruct q as [label v props| |]; try constructor.
    destruct (decide (v = VNone)); [constructor|].
    destruct (decide _).
    + destruct (dict_get "object_refs" d) as [refs|].
      * destruct (py_iter refs) as [ref_ids|]; [by constructor|].
        by apply (plan_entity label v props []).
      * by apply (plan_entity label v props []).
    + by apply (plan_entity label v props []).
Qed.

Lemma effect_repeat (qs : list stmt) (n : nat) (g : graph) :
  record_plan qs →
  effect (replicate (S n) qs ≫= id) g = effect qs g.
Proof.
  intros Hplan. revert g. induction n as [|n IH]; intros g.
  - simpl. by rewrite app_nil_r.
  - change (replicate (S (S n)) qs ≫= id)
      with (qs ++ (replicate (S n) qs ≫= id)).
    rewrite effect_app, IH. by apply record_plan_idempotent.
Qed.

Lemma replicate_bind {A B} (f : A → list B) (x : A) (n : nat) :
  replicate n x ≫= f = replicate n (f x) ≫= id.
Proof.
  induction n as [|n IH]; [done|]. cbn [replicate]. by rewrite !bind_cons, IH.
Qed.

(** C1. Delivering the same record N times, N at least one, to a store in
    reach leaves the graph that delivering it once leaves, whatever the
    graph was before: the same vertices, the same edges, the same
    properties. *)
Theorem redelivery_is_idempotent (stix_obj : pyval) (g : graph) (N : nat) :
  (1 ≤ N)%nat →
  deliver (replicate N stix_obj) g = deliver [stix_obj] g.
Proof.
  intros HN. destruct N as [|n]; [lia|].
  rewrite !deliver_effect, replicate_bind.
  rewrite effect_repeat by apply statements_of_plan.
  simpl. by rewrite app_nil_r.
Qed.

Lemma redelivery_is_idempotent_witness :
  (1 ≤ 3)%nat ∧
  deliver (replicate 3 report_r1) (deliver [indicator_i1] empty_graph) =
    deliver [report_r1] (deliver [indicator_i1] empty_graph).
Proof.
  split; [lia|]. apply redelivery_is_idempotent. lia.
Defined.

(** ** Reference edges and their endpoints *)

Lemma vertex_at_matching (g : graph) (v : pyval) (i : nat) :
  vertex_at g v i ↔ i ∈ matching v (nodes g).
Proof. unfold vertex_at. by rewrite elem_of_matching. Qed.

Lemma no_vertex_no_match (g : graph) (v : pyval) :
  ¬ (∃ i, vertex_at g v i) → matching v (nodes g) = [].
Proof.
  intros Hno. destruct (matching v (nodes g)) as [|i l] eqn:Hm; [done|].
  exfalso. apply Hno. exists i. apply vertex_at_matching. rewrite Hm. by left.
Qed.

(** C6. A reference-edge upsert whose source or target vertex is not in
    the graph runs without error and leaves the graph as it is.  Run again
    in a graph that holds both, it leaves an edge of that type between
    them, touches no vertex, and has nothing more to do after that. *)
Theorem reference_edge_waits_for_endpoints (source_id target_id : pyval) :
  ∃ q, _create_relationship source_id target_id "REFERENCES" = Ok q ∧
    (∀ g,
       ¬ (∃ i, vertex_at g source_id i) ∨ ¬ (∃ j, vertex_at g target_id j) →
       run_stmt q g = Ok g) ∧
    (∀ g i j,
       vertex_at g source_id i → vertex_at g target_id j →
       ∃ g', run_stmt q g = Ok g' ∧
             nodes g' = nodes g ∧
             edge_between g' "REFERENCES" i j ∧
             run_stmt q g' = Ok g').
Proof.
  eexists. split; [reflexivity|].
  change (sanitize_rel_type "REFERENCES") with "REFERENCES". split.
  - intros g Hmiss. cbn [run_stmt]. f_equal.
    apply merge_reference_fix. intros r Hr. exfalso.
    destruct Hmiss as [Hs|Ht].
    + rewrite (rows_without_source _ _ _ (no_vertex_no_match _ _ Hs)) in Hr.
      by apply elem_of_nil in Hr.
    + rewrite (rows_without_target _ _ _ (no_vertex_no_match _ _ Ht)) in Hr.
      by apply elem_of_nil in Hr.
  - intros g i j Hi%vertex_at_matching Hj%vertex_at_matching.
    exists (merge_reference "REFERENCES" source_id target_id g).
    split; [done|]. split; [done|]. split.
    + pose proof (merge_reference_linked "REFERENCES" source_id target_id g
                    (i, j)) as Hl.
      rewrite elem_of_rows in Hl. specialize (Hl (conj Hi Hj)).
      apply existsb_elem_of in Hl as (e & He & Hhit).
      apply bool_decide_eq_true in Hhit as (? & ? & ?). by exists e.
    + cbn [run_stmt]. f_equal. apply merge_reference_fix.
      rewrite merge_reference_nodes. apply merge_reference_linked.
Qed.

Lemma reference_edge_waits_for_endpoints_witness :
  (¬ (∃ i, vertex_at empty_graph (VStr "r1") i)) ∧
  vertex_at (deliver [report_r1; indicator_i1] empty_graph) (VStr "r1") 0 ∧
  vertex_at (deliver [report_r1; indicator_i1] empty_graph) (VStr "i1") 1 ∧
  ∃ q, _create_relationship (VStr "r1") (VStr "i1") "REFERENCES" = Ok q ∧
       run_stmt q empty_graph = Ok empty_graph ∧
       ∃ g', run_stmt q (deliver [report_r1; indicator_i1] empty_graph) = Ok g' ∧
             edge_between g' "REFERENCES" 0 1.
Proof.
  assert (¬ (∃ i, vertex_at empty_graph (VStr "r1") i)) as H0.
  { intros (i & n & Hn & _). simpl in Hn. by rewrite lookup_nil in Hn. }
  assert (vertex_at (deliver [report_r1; indicator_i1] empty_graph)
            (VStr "r1") 0) as H1.
  { eexists. split; [vm_compute; reflexivity|vm_compute; reflexivity]. }
  assert (vertex_at (deliver [report_r1; indicator_i1] empty_graph)
            (VStr "i1") 1) as H2.
  { eexists. split; [vm_compute; reflexivity|vm_compute; reflexivity]. }
  split; [done|]. split; [done|]. split; [done|].
  destruct (reference_edge_waits_for_endpoints (VStr "r1") (VStr "i1"))
    as (q & Hq & Hwait & Hthen).
  exists q. split; [done|]. split; [apply Hwait; by left|].
  destruct (Hthen _ 0 1 H1 H2) as (g' & Hrun & _ & Hedge & _). eauto.
Defined.

(** ** What every run of the handler respects, whatever fails on the way

    A relation between the session before and the session after that is
    reflexive and transitive, that a log line respects, and that a write
    transaction carrying a well-formed statement respects, is respected by
    [load_stix_object] and by the loop of [main]. *)

Section steps.
Context (R : session → session → Prop).
Hypothesis R_refl : ∀ s, R s s.
Hypothesis R_trans : ∀ s1 s2 s3, R s1 s2 → R s2 s3 → R s1 s3.
Hypothesis R_log : ∀ l s, R s (logger_error l s).2.
Hypothesis R_write :
  ∀ work s, (∀ q, work = Ok q → wf_stmt q) → R s (execute_write work s).2.

Lemma steps_ret {A} (a : A) : steps R (ret a).
Proof. intros s. apply R_refl. Qed.

Lemma steps_lift {A} (r : result A) : steps R (lift r).
Proof. intros s. apply R_refl. Qed.

Lemma steps_bind_lift {A B} (r : result A) (k : A → M B) :
  (∀ a, r = Ok a → steps R (k a)) → steps R (bind (lift r) k).
Proof.
  intros Hk s. destruct r as [a|e]; [by apply (Hk a)|apply R_refl].
Qed.

Lemma steps_bind {A B} (m : M A) (k : A → M B) :
  steps R m → (∀ a, steps R (k a)) → steps R (bind m k).
Proof.
  intros Hm Hk s. specialize (Hm s). unfold bind.
  destruct (m s) as [[a|e] s']; [|done].
  eapply R_trans; [exact Hm|apply Hk].
Qed.

Lemma steps_try_except {A} (m : M A) (h : exn → M A) :
  steps R m → (∀ e, steps R (h e)) → steps R (try_except m h).
Proof.
  intros Hm Hh s. specialize (Hm s). unfold try_except.
  destruct (m s) as [[a|e] s']; [done|].
  eapply R_trans; [exact Hm|apply Hh].
Qed.

Lemma steps_for_each {A} (l : list A) (body : A → M unit) :
  (∀ x, steps R (body x)) → steps R (for_each l body).
Proof.
  intros Hbody. induction l as [|x l IH]; [apply steps_ret|].
  cbn [for_each]. apply steps_bind; [apply Hbody|by intros _].
Qed.

Lemma steps_load_stix_object (stix_obj : pyval) :
  steps R (load_stix_object stix_obj).
Proof.
  unfold load_stix_object.
  apply steps_try_except;
    [|intros e; apply steps_bind; [|intros _]; intros s; apply R_log].
  apply steps_bind_lift. intros obj_type Htype.
  apply steps_bind.
  { destruct (bool_decide _); [|apply steps_ret].
    intros s. apply R_write, create_node_wf. }
  intros _. apply steps_bind.
  { destruct (bool_decide _); [|apply steps_ret]. apply steps_lift. }
  intros [|].
  - apply steps_bind_lift. intros refs _. apply steps_bind_lift.
    intros ref_ids _. apply steps_for_each. intros ref_id.
    apply steps_try_except; [|intros e s; apply R_log].
    apply steps_bind_lift. intros id _ s. apply R_write.
    by intros q [= <-].
  - destruct (bool_decide _); [|apply steps_ret].
    apply steps_bind_lift. intros source_ref _.
    apply steps_bind_lift. intros target_ref _.
    apply steps_bind_lift. intros declared _.
    apply steps_bind_lift. intros relationship_type _.
    destruct (truthy _); [|apply steps_ret].
    apply steps_try_except; [|intros e s; apply R_log].
    apply steps_bind_lift. intros id Hid.
    apply steps_bind_lift. intros props Hprops s.
    apply R_write. intros q [= <-]. simpl.
    destruct stix_obj as [| | | | | |d]; try done.
    simpl in Hid, Hprops. injection Hid as <-. injection Hprops as <-.
    apply scalar_props_agrees.
Qed.

Lemma steps_process_objects (objs : list pyval) :
  steps R (process_objects objs).
Proof.
  apply steps_for_each. intros obj.
  apply steps_try_except; [apply steps_load_stix_object|].
  intros e s. apply R_log.
Qed.

End steps.

Lemma keeps_process_objects (I : graph → Prop) (objs : list pyval) :
  (∀ q g g', wf_stmt q → run_stmt q g = Ok g' → I g → I g') →
  keeps I (process_objects objs).
Proof.
  intros Hstmt.
  apply (steps_process_objects (λ s s', I (db s) → I (db s'))); try done.
  - intros s1 s2 s3 H12 H23 H1. auto.
  - intros work s Hwf Hs. unfold execute_write. destruct work as [q|e]; [|done].
    destruct (run_stmt q (db s)) as [g'|e] eqn:Hrun; [|done].
    destruct (default false (head (outages s))); [done|].
    simpl. eapply Hstmt; [by apply Hwf|done..].
Qed.

Lemma label_id_unique_nodes (g g' : graph) :
  nodes g' = nodes g → label_id_unique g → label_id_unique g'.
Proof. unfold label_id_unique. by intros ->. Qed.

Lemma run_stmt_unique (q : stmt) (g g' : graph) :
  wf_stmt q → run_stmt q g = Ok g' → label_id_unique g → label_id_unique g'.
Proof.
  destruct q as [label v props|rel_type s t|rel_type s t k props]; simpl.
  - intros Hag. destruct (decide (v = VNone)); [done|]. intros [= <-].
    by apply merge_node_unique.
  - intros _ [= <-]. by apply label_id_unique_nodes.
  - intros _. destruct (decide _); [done|]. intros [= <-].
    by apply label_id_unique_nodes.
Qed.

Lemma statements_of_entity (d : list (string * pyval)) (label : string)
    (v : pyval) (props : gmap string pyval) :
  _create_node (VDict d) = Ok (MergeNode label v props) →
  default (VStr "") (dict_get "type" d) ≠ VStr "relationship" →
  v ≠ VNone →
  ∃ refs, statements_of (VDict d) =
            MergeNode label v props :: (MergeReference "REFERENCES" v <$> refs).
Proof.
  intros Hnode Hty Hv. unfold statements_of.
  rewrite decide_False by done. rewrite Hnode, decide_False by done.
  destruct (decide _); [|by exists []].
  destruct (dict_get "object_refs" d) as [refs|]; [|by exists []].
  destruct (py_iter refs) as [ref_ids|]; [by exists ref_ids|by exists []].
Qed.

Lemma effect_entity (label : string) (v : pyval) (props : gmap string pyval)
    (refs : list pyval) (g : graph) :
  v ≠ VNone →
  effect (MergeNode label v props :: (MergeReference "REFERENCES" v <$> refs)) g
  = effect (MergeReference "REFERENCES" v <$> refs) (merge_node label v props g).
Proof. intros Hv. unfold effect at 1. cbn [foldl run_stmt]. by rewrite decide_False. Qed.

Lemma deliver_one (stix_obj : pyval) (g : graph) :
  deliver [stix_obj] g = effect (statements_of stix_obj) g.
Proof.
  rewrite deliver_effect. cbn [mbind list_bind]. by rewrite app_nil_r.
Qed.

Lemma matching_snoc (v : pyval) (ns : list node) (n : node) (i : nat) :
  i ∈ matching v (ns ++ [n]) ↔
    i ∈ matching v ns ∨ (i = length ns ∧ has_id v (n_props n) = true).
Proof.
  rewrite !elem_of_matching. split.
  - intros (m & Hm & Hid).
    apply lookup_app_Some in Hm as [Hm|[Hlen Hm]]; [left; eauto|right].
    apply list_lookup_singleton_Some in Hm as [Hi ->]. split; [lia|done].
  - intros [(m & Hm & Hid)|[-> Hid]].
    + exists m. split; [|done]. by apply lookup_app_l_Some.
    + exists n. split; [|done]. by rewrite list_lookup_middle.
Qed.

(** C8. Starting from the empty graph, whatever records are processed and
    whichever transactions fail, at most one vertex answers to a label
    together with an id.  A record whose sanitized label and id already
    have a vertex gets its scalar properties set on that vertex, the others
    staying, and no vertex is added.  A record with a non-null id to whose
    sanitized label and id no vertex answers gets a vertex of its own at
    the end, whichever vertices carry that id under other labels: the
    vertices carrying the id are then those that carried it and the new
    one. *)
Theorem one_vertex_per_label_and_id :
  (∀ objs down,
     label_id_unique
       (db (process_objects objs (Session empty_graph down [] [])).2)) ∧
  (∀ d ty v g i n,
     dict_get "type" d = Some (VStr ty) → ty ≠ "relationship" →
     dict_get "id" d = Some v →
     nodes g !! i = Some n → node_hit (sanitize_label ty) v n = true →
     length (nodes (deliver [VDict d] g)) = length (nodes g) ∧
     nodes (deliver [VDict d] g) !! i =
       Some (Node (n_labels n) (set_props (scalar_props d) (n_props n)))) ∧
  (∀ d ty v g,
     dict_get "type" d = Some (VStr ty) → ty ≠ "relationship" →
     dict_get "id" d = Some v → v ≠ VNone →
     (∀ n, n ∈ nodes g → node_hit (sanitize_label ty) v n = false) →
     nodes (deliver [VDict d] g) =
       nodes g ++ [Node [sanitize_label ty]
                     (set_props (scalar_props d) {["id" := v]})] ∧
     ∀ i, i ∈ matching v (nodes (deliver [VDict d] g)) ↔
          i ∈ matching v (nodes g) ∨ i = length (nodes g)).
Proof.
  split; [|split].
  - intros objs down.
    apply (keeps_process_objects label_id_unique objs run_stmt_unique
             (Session empty_graph down [] [])).
    intros label v i j n m Hn. simpl in Hn. by rewrite lookup_nil in Hn.
  - intros d ty v g i n Hty Hne Hid Hn Hhit.
    assert (v ≠ VNone) as Hv.
    { apply andb_true_iff in Hhit as [_ [? _]%has_id_true]. done. }
    destruct (statements_of_entity d (sanitize_label ty) v (scalar_props d))
      as [refs Hst]; [|rewrite Hty; simpl; congruence|done|].
    { unfold _create_node. simpl. by rewrite Hty, Hid. }
    rewrite deliver_one, Hst.
    rewrite effect_entity, effect_references_nodes by done.
    assert (List.existsb (node_hit (sanitize_label ty) v) (nodes g) = true)
      as Hex.
    { apply existsb_elem_of. exists n. split; [|done].
      by eapply list_elem_of_lookup_2. }
    unfold merge_node, merged_over. rewrite Hex. simpl.
    rewrite length_fmap, list_lookup_fmap, Hn. simpl.
    unfold node_set. by rewrite Hhit.
  - intros d ty v g Hty Hne Hid Hv Hfresh.
    assert (nodes (deliver [VDict d] g) =
            nodes g ++ [Node [sanitize_label ty]
                          (set_props (scalar_props d) {["id" := v]})]) as Hnew.
    { destruct (statements_of_entity d (sanitize_label ty) v (scalar_props d))
        as [refs Hst]; [|rewrite Hty; simpl; congruence|done|].
      { unfold _create_node. simpl. by rewrite Hty, Hid. }
      rewrite deliver_one, Hst.
      rewrite effect_entity, effect_references_nodes by done.
      assert (List.existsb (node_hit (sanitize_label ty) v) (nodes g) = false)
        as Hex.
      { destruct (List.existsb _ (nodes g)) eqn:Hex; [|done].
        apply existsb_elem_of in Hex as (n & Hn & Hhit).
        rewrite Hfresh in Hhit; done. }
      unfold merge_node, merged_over. rewrite Hex. simpl.
      rewrite fmap_app. f_equal.
      - rewrite <- (list_fmap_id (nodes g)) at 2. apply list_fmap_ext.
        intros i n Hn. unfold node_set. rewrite Hfresh; [done|].
        by eapply list_elem_of_lookup_2.
      - simpl. unfold node_set. by rewrite node_hit_new. }
    split; [done|]. intros i. rewrite Hnew, matching_snoc. simpl.
    assert (has_id v (set_props (scalar_props d) {["id" := v]}) = true) as Hid'.
    { apply has_id_true. split; [done|].
      apply set_props_id; [|apply lookup_singleton_eq].
      pose proof (scalar_props_agrees d) as H. by rewrite Hid in H. }
    rewrite Hid'. split; [intros [?|[? _]]; auto|intros [?|?]; auto].
Qed.

Lemma one_vertex_per_label_and_id_witness :
  (dict_get "type" [("id", VStr "i1"); ("type", VStr "indicator");
                    ("score", VInt 7)] = Some (VStr "indicator") ∧
   "indicator" ≠ "relationship" ∧
   nodes (deliver [indicator_i1] empty_graph) !! 0
     = Some (Node ["indicator"]
               {[ "id" := VStr "i1"; "type" := VStr "indicator";
                  "pattern" := VStr "x" ]}) ∧
   ∀ n, n ∈ nodes (deliver [indicator_i1] empty_graph) →
        node_hit (sanitize_label "malware") (VStr "i1") n = false) ∧
  length (nodes (deliver [VDict [("id", VStr "i1"); ("type", VStr "indicator");
                                 ("score", VInt 7)]]
                   (deliver [indicator_i1] empty_graph))) = 1 ∧
  label_id_unique (deliver [indicator_i1; malware_i1; indicator_i1] empty_graph) ∧
  (0 ∈ matching (VStr "i1")
         (nodes (deliver [malware_i1] (deliver [indicator_i1] empty_graph))) ∧
   1 ∈ matching (VStr "i1")
         (nodes (deliver [malware_i1] (deliver [indicator_i1] empty_graph)))).
Proof.
  destruct one_vertex_per_label_and_id as (Hall & Hsame & Hother).
  assert (nodes (deliver [indicator_i1] empty_graph) !! 0
          = Some (Node ["indicator"]
                    {[ "id" := VStr "i1"; "type" := VStr "indicator";
                       "pattern" := VStr "x" ]})) as Hn
    by (vm_compute; reflexivity).
  assert (∀ n, n ∈ nodes (deliver [indicator_i1] empty_graph) →
               node_hit (sanitize_label "malware") (VStr "i1") n = false)
    as Hfresh.
  { intros n Hn'.
    apply (existsb_false_elem_of _ (nodes (deliver [indicator_i1] empty_graph)));
      [vm_compute; reflexivity|done]. }
  split; [split; [reflexivity|split; [discriminate|split; [exact Hn|exact Hfresh]]]|].
  split; [|split].
  - destruct (Hsame [("id", VStr "i1"); ("type", VStr "indicator");
                     ("score", VInt 7)] "indicator" (VStr "i1")
                (deliver [indicator_i1] empty_graph) 0 _
                eq_refl ltac:(discriminate) eq_refl Hn)
      as [Hlen _]; [vm_compute; reflexivity|].
    rewrite Hlen. vm_compute. reflexivity.
  - apply (Hall [indicator_i1; malware_i1; indicator_i1] []).
  - destruct (Hother [("id", VStr "i1"); ("type", VStr "malware")] "malware"
                (VStr "i1") (deliver [indicator_i1] empty_graph)
                eq_refl ltac:(discriminate) eq_refl ltac:(discriminate) Hfresh)
      as [_ Hm].
    split; apply Hm.
    + left. apply elem_of_matching. eexists. split; [exact Hn|].
      vm_compute. reflexivity.
    + right. vm_compute. reflexivity.
Defined.

(** C8, the claim as worded fails: the same id delivered under two type
    tags leaves two vertices carrying that id. *)
Lemma same_id_other_type_second_vertex :
  matching (VStr "i1") (nodes (deliver [indicator_i1; malware_i1] empty_graph))
    = [0; 1] ∧
  n_labels <$> nodes (deliver [indicator_i1; malware_i1] empty_graph)
    = [["indicator"]; ["malware"]].
Proof. split; vm_compute; reflexivity. Qed.

(** ** Relationship records *)

Lemma statements_of_relationship (d : list (string * pyval))
    (k s t : pyval) (declared : string) :
  relationship_record d k s t declared →
  truthy s = true → truthy t = true →
  statements_of (VDict d) =
    [MergeRelationship (sanitize_rel_type (upper declared)) s t k
       (scalar_props d)].
Proof.
  intros (Hty & Hid & Hs & Ht & Hdecl) Hts Htt. unfold statements_of.
  rewrite Hty, Hid, Hs, Ht, Hdecl. cbn [default from_option id].
  rewrite decide_True by done.
  unfold py_and. by rewrite Hts, Htt.
Qed.

Lemma relationship_record_agrees (d : list (string * pyval))
    (k s t : pyval) (declared : string) :
  relationship_record d k s t declared → agrees (scalar_props d) k.
Proof.
  intros (_ & Hid & _). pose proof (scalar_props_agrees d) as H.
  by rewrite Hid in H.
Qed.

Lemma edges_keyed_none (k : pyval) (es : list edge) (e : edge) :
  filter (λ e, has_id k (e_props e) = true) es = [] → e ∈ es →
  has_id k (e_props e) = false.
Proof.
  intros Hnone He. destruct (has_id k (e_props e)) eqn:Hk; [|done].
  assert (e ∈ filter (λ e, has_id k (e_props e) = true) es) as Hin
    by (by apply list_elem_of_filter).
  rewrite Hnone in Hin. by apply elem_of_nil in Hin.
Qed.

Lemma merge_relationship_row_fresh (rel_type : string) (k : pyval)
    (props : gmap string pyval) (es : list edge) (r : nat * nat) :
  k ≠ VNone →
  filter (λ e, has_id k (e_props e) = true) es = [] →
  merge_relationship_row rel_type k props es r =
    es ++ [Edge r.1 r.2 rel_type (set_props props {["id" := k]})].
Proof.
  intros Hk Hnone. unfold merge_relationship_row.
  assert (∀ e, e ∈ es → keyed_hit rel_type k r e = false) as Hmiss.
  { intros e He. unfold keyed_hit. rewrite (edges_keyed_none k es e) by done.
    apply andb_false_r. }
  assert (List.existsb (keyed_hit rel_type k r) es = false) as ->.
  { destruct (List.existsb _ es) eqn:Hex; [|done].
    apply existsb_elem_of in Hex as (e & He & Hhit).
    rewrite Hmiss in Hhit; done. }
  rewrite fmap_app. f_equal.
  - rewrite <- (list_fmap_id es) at 2. apply list_fmap_ext. intros n e He.
    unfold edge_set. rewrite Hmiss; [done|]. by eapply list_elem_of_lookup_2.
  - simpl. unfold edge_set. by rewrite keyed_hit_new.
Qed.

Lemma has_id_inj (k w : pyval) (p : gmap string pyval) :
  has_id k p = true → has_id w p = true → k = w.
Proof. intros [_ Hk]%has_id_true [_ Hw]%has_id_true. congruence. Qed.

Lemma has_id_fresh_edge (k w : pyval) (props : gmap string pyval) :
  k ≠ VNone → agrees props k →
  has_id w (set_props props {["id" := k]}) = bool_decide (w = k).
Proof.
  intros Hk Hag. unfold has_id.
  rewrite (set_props_id props _ k Hag) by apply lookup_singleton_eq.
  apply bool_decide_ext. split; [by intros [_ [= ->]]|by intros ->].
Qed.

Lemma deliver_relationship (d : list (string * pyval)) (k s t : pyval)
    (declared : string) (g : graph) (r : nat * nat) :
  relationship_record d k s t declared →
  truthy s = true → truthy t = true → k ≠ VNone →
  rows s t (nodes g) = [r] → edges_keyed k g = [] →
  deliver [VDict d] g =
    Graph (nodes g)
      (edges g ++ [Edge r.1 r.2 (sanitize_rel_type (upper declared))
                     (set_props (scalar_props d) {["id" := k]})]).
Proof.
  intros Hrec Hs Ht Hk Hrows Hfresh.
  rewrite deliver_one, (statements_of_relationship d k s t declared) by done.
  unfold effect. cbn [foldl run_stmt].
  rewrite decide_False by (by intros [? _]).
  unfold merge_relationship. rewrite Hrows. cbn [foldl].
  by rewrite merge_relationship_row_fresh.
Qed.

Lemma NoDup_matching (v : pyval) (ns : list node) : NoDup (matching v ns).
Proof. unfold matching. apply NoDup_filter, NoDup_seq. Qed.

Lemma NoDup_rows (s t : pyval) (ns : list node) : NoDup (rows s t ns).
Proof.
  unfold rows. pose proof (NoDup_matching t ns) as Ht.
  induction (NoDup_matching s ns) as [|i l Hi _ IH]; simpl; [constructor|].
  apply NoDup_app. split; [|split; [|done]].
  - change (NoDup (pair i <$> matching t ns)). apply NoDup_fmap_2; [|done].
    by intros x y [= ->].
  - intros [a b] Ha Hb. change ((a, b) ∈ pair i <$> matching t ns) in Ha.
    apply list_elem_of_fmap in Ha as (j & [= -> ->] & _).
    apply list_elem_of_In, in_prod_iff in Hb as [Hb _].
    by apply list_elem_of_In in Hb.
Qed.

Lemma merge_relationship_row_miss (rel_type : string) (k : pyval)
    (props : gmap string pyval) (es : list edge) (r : nat * nat) :
  k ≠ VNone →
  (∀ e, e ∈ es → keyed_hit rel_type k r e = false) →
  merge_relationship_row rel_type k props es r =
    es ++ [Edge r.1 r.2 rel_type (set_props props {["id" := k]})].
Proof.
  intros Hk Hmiss. unfold merge_relationship_row.
  assert (List.existsb (keyed_hit rel_type k r) es = false) as ->.
  { destruct (List.existsb _ es) eqn:Hex; [|done].
    apply existsb_elem_of in Hex as (e & He & Hhit).
    rewrite Hmiss in Hhit; done. }
  rewrite fmap_app. f_equal.
  - rewrite <- (list_fmap_id es) at 2. apply list_fmap_ext. intros n e He.
    unfold edge_set. rewrite Hmiss; [done|]. by eapply list_elem_of_lookup_2.
  - simpl. unfold edge_set. by rewrite keyed_hit_new.
Qed.

Lemma fold_relationship_fresh (rel_type : string) (k : pyval)
    (props : gmap string pyval) (es : list edge) (rs : list (nat * nat)) :
  k ≠ VNone →
  filter (λ e, has_id k (e_props e) = true) es = [] →
  NoDup rs →
  foldl (merge_relationship_row rel_type k props) es rs =
    es ++ ((λ r, Edge r.1 r.2 rel_type (set_props props {["id" := k]})) <$> rs).
Proof.
  intros Hk Hnone. induction rs as [|r rs IH] using rev_ind; intros Hnd.
  - by rewrite app_nil_r.
  - apply NoDup_app in Hnd as (Hnd & Hr & _).
    rewrite foldl_snoc, IH by done.
    rewrite merge_relationship_row_miss; [|done|].
    + by rewrite fmap_app, (assoc_L (++)).
    + intros e [He|He]%elem_of_app.
      * unfold keyed_hit. rewrite (edges_keyed_none k es e) by done.
        apply andb_false_r.
      * apply list_elem_of_fmap in He as (r' & -> & Hr').
        unfold keyed_hit, edge_hit. simpl.
        rewrite bool_decide_eq_false_2; [done|].
        intros (H1 & H2 & _). apply (Hr r' Hr').
        destruct r, r'; simpl in *; subst. by left.
Qed.

Lemma filter_all {A} (P : A → Prop) `{!∀ x, Decision (P x)} (l : list A) :
  Forall P l → filter P l = l.
Proof.
  induction 1 as [|x l Hx _ IH]; [done|].
  by rewrite filter_cons, decide_True, IH.
Qed.

Lemma deliver_relationship_rows (d : list (string * pyval)) (k s t : pyval)
    (declared : string) (g : graph) :
  relationship_record d k s t declared →
  truthy s = true → truthy t = true → k ≠ VNone →
  edges_keyed k g = [] →
  deliver [VDict d] g =
    Graph (nodes g)
      (edges g ++
       ((λ r, Edge r.1 r.2 (sanitize_rel_type (upper declared))
                (set_props (scalar_props d) {["id" := k]}))
          <$> rows s t (nodes g))).
Proof.
  intros Hrec Hs Ht Hk Hfresh.
  rewrite deliver_one, (statements_of_relationship d k s t declared) by done.
  unfold effect. cbn [foldl run_stmt].
  rewrite decide_False by (by intros [? _]).
  unfold merge_relationship.
  by rewrite fold_relationship_fresh; [|done|done|apply NoDup_rows].
Qed.

(** C7. For relationship records with a non-null id, non-empty source and
    target references and a relationship type that is a string or absent.
    In a graph where one vertex carries the source id, one the target id,
    and no edge carries either record's id: two such records with the same
    source, target and relationship type and different ids leave two edges
    more, one carrying each id; and the same record delivered any number of
    times leaves one edge more, carrying its id.  In any graph where no edge
    carries the record's id yet, such a record leaves the vertices as they
    are and adds one edge per pair of a vertex carrying the source id and a
    vertex carrying the target id, each between its pair and carrying the
    record's id: none when an endpoint has no vertex, several when an
    endpoint has several. *)
Theorem relationship_edge_keyed_by_id :
  (∀ g d1 d2 k1 k2 s t declared i j,
     relationship_record d1 k1 s t declared →
     relationship_record d2 k2 s t declared →
     k1 ≠ VNone → k2 ≠ VNone → k1 ≠ k2 →
     truthy s = true → truthy t = true →
     matching s (nodes g) = [i] → matching t (nodes g) = [j] →
     edges_keyed k1 g = [] → edges_keyed k2 g = [] →
     (length (edges_keyed k1 (deliver [VDict d1; VDict d2] g)) = 1 ∧
      length (edges_keyed k2 (deliver [VDict d1; VDict d2] g)) = 1 ∧
      length (edges (deliver [VDict d1; VDict d2] g)) = length (edges g) + 2) ∧
     (∀ N, (1 ≤ N)%nat →
        length (edges_keyed k1 (deliver (replicate N (VDict d1)) g)) = 1 ∧
        length (edges (deliver (replicate N (VDict d1)) g))
          = length (edges g) + 1)) ∧
  (∀ g d k s t declared,
     relationship_record d k s t declared →
     k ≠ VNone → truthy s = true → truthy t = true →
     edges_keyed k g = [] →
     ∃ new,
       deliver [VDict d] g = Graph (nodes g) (edges g ++ new) ∧
       (λ e, (e_src e, e_tgt e)) <$> new = rows s t (nodes g) ∧
       Forall (λ e, has_id k (e_props e) = true) new ∧
       length (edges_keyed k (deliver [VDict d] g))
         = length (matching s (nodes g)) * length (matching t (nodes g))).
Proof.
  split.
  - intros g d1 d2 k1 k2 s t declared i j
      Hd1 Hd2 Hk1 Hk2 Hne Hs Ht Hi Hj Hf1 Hf2.
    assert (rows s t (nodes g) = [(i, j)]) as Hrows
      by (unfold rows; by rewrite Hi, Hj).
    pose proof (relationship_record_agrees _ _ _ _ _ Hd1) as Hag1.
    pose proof (relationship_record_agrees _ _ _ _ _ Hd2) as Hag2.
    pose proof (deliver_relationship d1 k1 s t declared g (i, j)
                  Hd1 Hs Ht Hk1 Hrows Hf1) as H1.
    assert (∀ w, edges_keyed w (deliver [VDict d1] g) =
                 edges_keyed w g ++
                 (if bool_decide (w = k1)
                  then [Edge i j (sanitize_rel_type (upper declared))
                          (set_props (scalar_props d1) {["id" := k1]})]
                  else [])) as Hkeyed1.
    { intros w. rewrite H1. unfold edges_keyed. simpl.
      rewrite filter_app, filter_cons. simpl.
      rewrite has_id_fresh_edge by done.
      destruct (bool_decide (w = k1)) eqn:Hw.
      - by rewrite decide_True.
      - by rewrite decide_False. }
    split.
    + assert (deliver [VDict d1; VDict d2] g
              = deliver [VDict d2] (deliver [VDict d1] g)) as ->.
      { rewrite !deliver_effect. cbn [mbind list_bind].
        by rewrite !app_nil_r, effect_app. }
      rewrite (deliver_relationship d2 k2 s t declared _ (i, j)); try done;
        [|by rewrite H1|].
      2:{ rewrite Hkeyed1, Hf2. by rewrite bool_decide_eq_false_2. }
      unfold edges_keyed. simpl. rewrite !filter_app, !filter_cons. simpl.
      rewrite !has_id_fresh_edge by done.
      fold (edges_keyed k1 (deliver [VDict d1] g)).
      fold (edges_keyed k2 (deliver [VDict d1] g)).
      rewrite !Hkeyed1, Hf1, Hf2. rewrite H1. simpl.
      rewrite (bool_decide_eq_true_2 (k1 = k1)) by done.
      rewrite (bool_decide_eq_true_2 (k2 = k2)) by done.
      rewrite (bool_decide_eq_false_2 (k1 = k2)) by done.
      rewrite (bool_decide_eq_false_2 (k2 = k1)) by done.
      simpl. rewrite !length_app. simpl. split; [done|split; [done|lia]].
    + intros [|n] HN; [lia|].
      assert (deliver (replicate (S n) (VDict d1)) g = deliver [VDict d1] g)
        as ->.
      { rewrite deliver_effect, deliver_one, replicate_bind.
        apply effect_repeat, statements_of_plan. }
      rewrite Hkeyed1, Hf1, bool_decide_eq_true_2 by done.
      rewrite H1. simpl. rewrite length_app. simpl. split; [done|lia].
  - intros g d k s t declared Hd Hk Hs Ht Hf.
    pose proof (relationship_record_agrees _ _ _ _ _ Hd) as Hag.
    rewrite (deliver_relationship_rows d k s t declared g) by done.
    eexists. split; [reflexivity|].
    assert (Forall (λ e, has_id k (e_props e) = true)
              ((λ r, Edge r.1 r.2 (sanitize_rel_type (upper declared))
                       (set_props (scalar_props d) {["id" := k]}))
                 <$> rows s t (nodes g))) as Hall.
    { apply Forall_fmap, Forall_forall. intros r _. simpl.
      rewrite has_id_fresh_edge by done. by apply bool_decide_eq_true. }
    split; [|split; [done|]].
    + rewrite <- list_fmap_compose.
      rewrite <- (list_fmap_id (rows s t (nodes g))) at 2.
      apply list_fmap_ext. by intros n [a b] _.
    + unfold edges_keyed at 1. simpl. rewrite filter_app.
      fold (edges_keyed k g). rewrite Hf. simpl.
      rewrite filter_all by exact Hall.
      rewrite length_fmap. unfold rows. apply length_prod.
Qed.

Lemma relationship_edge_keyed_by_id_witness :
  (relationship_record uses_1 (VStr "rel1") (VStr "i1") (VStr "i2") "uses" ∧
   relationship_record uses_2 (VStr "rel2") (VStr "i1") (VStr "i2") "uses" ∧
   matching (VStr "i1") (nodes two_indicators) = [0] ∧
   matching (VStr "i2") (nodes two_indicators) = [1] ∧
   edges_keyed (VStr "rel1") two_indicators = [] ∧
   edges_keyed (VStr "rel2") two_indicators = []) ∧
  length (edges (deliver [VDict uses_1; VDict uses_2] two_indicators)) = 2 ∧
  length (edges_keyed (VStr "rel1")
            (deliver (replicate 3 (VDict uses_1)) two_indicators)) = 1 ∧
  length (edges_keyed (VStr "rel1")
            (deliver [VDict uses_1]
               (deliver [indicator_i1; malware_i1; indicator_i2] empty_graph)))
    = 2 ∧
  length (edges_keyed (VStr "rel1") (deliver [VDict uses_1] empty_graph)) = 0.
Proof.
  assert (relationship_record uses_1 (VStr "rel1") (VStr "i1") (VStr "i2")
            "uses") as R1 by (repeat split; reflexivity).
  assert (relationship_record uses_2 (VStr "rel2") (VStr "i1") (VStr "i2")
            "uses") as R2 by (repeat split; reflexivity).
  assert (matching (VStr "i1") (nodes two_indicators) = [0]) as M1
    by (vm_compute; reflexivity).
  assert (matching (VStr "i2") (nodes two_indicators) = [1]) as M2
    by (vm_compute; reflexivity).
  assert (edges_keyed (VStr "rel1") two_indicators = []) as F1
    by (vm_compute; reflexivity).
  assert (edges_keyed (VStr "rel2") two_indicators = []) as F2
    by (vm_compute; reflexivity).
  split; [done|].
  destruct relationship_edge_keyed_by_id as [Hone Hrows].
  destruct (Hone two_indicators uses_1 uses_2
              (VStr "rel1") (VStr "rel2") (VStr "i1") (VStr "i2") "uses" 0 1
              R1 R2 ltac:(discriminate) ltac:(discriminate)
              ltac:(discriminate) eq_refl eq_refl M1 M2 F1 F2)
    as [(_ & _ & Hboth) Hagain].
  split; [exact Hboth|]. split; [apply (Hagain 3); lia|]. split.
  - destruct (Hrows (deliver [indicator_i1; malware_i1; indicator_i2]
                       empty_graph)
                uses_1 (VStr "rel1") (VStr "i1") (VStr "i2") "uses"
                R1 ltac:(discriminate) eq_refl eq_refl)
      as (new & _ & _ & _ & ->); [vm_compute; reflexivity|].
    vm_compute. reflexivity.
  - destruct (Hrows empty_graph
                uses_1 (VStr "rel1") (VStr "i1") (VStr "i2") "uses"
                R1 ltac:(discriminate) eq_refl eq_refl)
      as (new & _ & _ & _ & ->); [vm_compute; reflexivity|].
    vm_compute. reflexivity.
Defined.

(** C7, the claim as worded fails: once an id has come under two type tags
    it has two vertices, and one relationship record from it leaves two
    edges carrying the record's id; and with no endpoint in the graph two
    relationship records leave no edge at all. *)
Lemma relationship_id_on_two_edges :
  length (edges_keyed (VStr "rel1")
            (deliver [indicator_i1; malware_i1; indicator_i2; VDict uses_1]
               empty_graph)) = 2 ∧
  length (edges (deliver [VDict uses_1; VDict uses_2] empty_graph)) = 0.
Proof. split; vm_compute; reflexivity. Qed.

(** ** What a record hands to the store *)

Lemma intents_record_txn (t : txn) (g : graph) (left : list bool)
    (s : session) :
  intents (record_txn t g left s) = intents s ++ statements t.
Proof.
  unfold intents, record_txn. simpl.
  by rewrite fmap_app, concat_app; simpl; rewrite app_nil_r.
Qed.

Lemma execute_write_commit (q : stmt) (s : session) (g' : graph) :
  run_stmt q (db s) = Ok g' →
  default false (head (outages s)) = false →
  execute_write (Ok q) s =
    (Ok tt, record_txn (Txn [q] true) g' (tail (outages s)) s).
Proof. intros Hrun Hup. unfold execute_write. by rewrite Hrun, Hup. Qed.

Lemma execute_write_cases (q : stmt) (s : session) :
  (∃ g', run_stmt q (db s) = Ok g' ∧
         default false (head (outages s)) = false ∧
         execute_write (Ok q) s =
           (Ok tt, record_txn (Txn [q] true) g' (tail (outages s)) s)) ∨
  (∃ e, execute_write (Ok q) s =
          (Raise e, record_txn (Txn [q] false) (db s) (tail (outages s)) s)).
Proof.
  unfold execute_write. destruct (run_stmt q (db s)) as [g'|e]; [|eauto].
  destruct (default false (head (outages s))); [right|left]; eauto.
Qed.

Lemma load_plain_eq (d : list (string * pyval)) (q : stmt) (s : session) :
  _create_node (VDict d) = Ok q →
  default (VStr "") (dict_get "type" d) ≠ VStr "relationship" →
  default (VStr "") (dict_get "type" d) ≠ VStr "report" →
  load_stix_object (VDict d) s =
    match execute_write (Ok q) s with
    | (Ok _, s1) => (Ok tt, s1)
    | (Raise e, s1) =>
        (Ok tt,
         Session (db s1) (outages s1) (journal s1)
           (errors s1 ++ [LogExn "Error processing STIX object" e;
                          LogObj "Problematic STIX object" (VDict d)]))
    end.
Proof.
  intros Hnode Hrel Hrep.
  unfold load_stix_object. cbn [py_get]. unfold try_except at 1.
  rewrite bind_lift_ok. rewrite bool_decide_eq_true_2 by done.
  rewrite (bool_decide_eq_false_2 _ Hrep), (bool_decide_eq_false_2 _ Hrel).
  unfold bind at 1. rewrite Hnode.
  destruct (execute_write (Ok q) s) as [[[]|e] s1]; [done|].
  unfold bind, logger_error. simpl. by rewrite <- (assoc_L (++)).
Qed.

Lemma load_plain (d : list (string * pyval)) (q : stmt) (s : session) :
  _create_node (VDict d) = Ok q →
  default (VStr "") (dict_get "type" d) ≠ VStr "relationship" →
  default (VStr "") (dict_get "type" d) ≠ VStr "report" →
  intents (load_stix_object (VDict d) s).2 = intents s ++ [q] ∧
  (∀ g1, run_stmt q (db s) = Ok g1 →
         default false (head (outages s)) = false →
         load_stix_object (VDict d) s =
           (Ok tt, record_txn (Txn [q] true) g1 (tail (outages s)) s)).
Proof.
  intros Hnode Hrel Hrep. rewrite (load_plain_eq d q s) by done.
  destruct (execute_write_cases q s) as [(g0 & Hrun & Hup & Hw)|(e & Hw)];
    rewrite Hw.
  - split; [apply intents_record_txn|].
    intros g1 Hrun1 _. rewrite Hrun in Hrun1. by injection Hrun1 as ->.
  - split; [apply (intents_record_txn (Txn [q] false))|].
    intros g1 Hrun Hup. rewrite (execute_write_commit q s g1) in Hw by done.
    discriminate.
Qed.

(** C9. A record mapping without a [type] key that carries an [id] has its
    node upsert handed to the store under the label [STIXObject], whatever
    the store then does with it; when the id is not null and the store is
    in reach the upsert commits, and a vertex answers to that label and
    id. *)
Theorem untyped_record_gets_default_label (d : list (string * pyval))
    (v : pyval) (s : session) :
  dict_get "type" d = None → dict_get "id" d = Some v →
  _create_node (VDict d) = Ok (MergeNode "STIXObject" v (scalar_props d)) ∧
  intents (load_stix_object (VDict d) s).2
    = intents s ++ [MergeNode "STIXObject" v (scalar_props d)] ∧
  (v ≠ VNone → default false (head (outages s)) = false →
   load_stix_object (VDict d) s =
     (Ok tt,
      record_txn (Txn [MergeNode "STIXObject" v (scalar_props d)] true)
        (merge_node "STIXObject" v (scalar_props d) (db s))
        (tail (outages s)) s) ∧
   ∃ i n, nodes (db (load_stix_object (VDict d) s).2) !! i = Some n ∧
          node_hit "STIXObject" v n = true).
Proof.
  intros Hty Hid.
  assert (_create_node (VDict d)
          = Ok (MergeNode "STIXObject" v (scalar_props d))) as Hnode.
  { unfold _create_node. simpl. by rewrite Hty, Hid. }
  destruct (load_plain d _ s Hnode) as [Hint Hcommit];
    [by rewrite Hty..|].
  split; [done|]. split; [done|]. intros Hv Hup.
  assert (agrees (scalar_props d) v) as Hag.
  { pose proof (scalar_props_agrees d) as H. by rewrite Hid in H. }
  rewrite (Hcommit (merge_node "STIXObject" v (scalar_props d) (db s)));
    [|by simpl; rewrite decide_False|done].
  split; [done|]. simpl. by apply merge_node_hit.
Qed.

Lemma untyped_record_gets_default_label_witness :
  (dict_get "type" untyped_u1 = None ∧
   dict_get "id" untyped_u1 = Some (VStr "u1")) ∧
  n_labels <$> nodes (db (load_stix_object (VDict untyped_u1)
                            (connect empty_graph)).2) = [["STIXObject"]].
Proof.
  split; [by split|].
  destruct (untyped_record_gets_default_label untyped_u1 (VStr "u1")
              (connect empty_graph) eq_refl eq_refl) as (_ & _ & Hcommit).
  destruct (Hcommit ltac:(discriminate) eq_refl) as [-> _].
  vm_compute. reflexivity.
Defined.

(** C9, the claim as worded fails: a mapping with neither [type] nor [id]
    hands no statement to the store and leaves no vertex; [_create_node]
    raises [KeyError] at the id subscript. *)
Lemma untyped_record_without_id_skipped :
  dict_get "type" anonymous = None ∧
  _create_node (VDict anonymous) = Raise (KeyError "id") ∧
  intents (load_stix_object (VDict anonymous) (connect empty_graph)).2 = [] ∧
  db (load_stix_object (VDict anonymous) (connect empty_graph)).2 = empty_graph.
Proof. repeat split; vm_compute; reflexivity. Qed.

Lemma references_any_outage (stix_obj : pyval) (v : pyval)
    (ref_ids : list pyval) (s : session) :
  py_getitem stix_obj "id" = Ok v →
  ∃ s',
    for_each ref_ids (λ ref_id,
      try_except
        (let! id := lift (py_getitem stix_obj "id") in
         execute_write (_create_relationship id ref_id "REFERENCES"))
        (λ e, logger_error
                (LogExn "Error creating report reference relationship" e))) s
    = (Ok tt, s') ∧
    nodes (db s') = nodes (db s) ∧
    edges (db s) `prefix_of` edges (db s') ∧
    intents s' = intents s ++ (MergeReference "REFERENCES" v <$> ref_ids).
Proof.
  intros Hid. set (body := λ ref_id : pyval, try_except _ _).
  revert s. induction ref_ids as [|r rs IH]; intros s.
  - exists s. by rewrite app_nil_r.
  - cbn [for_each]. unfold bind at 1. unfold body at 1.
    unfold try_except at 1. rewrite Hid, bind_lift_ok.
    unfold _create_relationship.
    change (sanitize_rel_type "REFERENCES") with "REFERENCES".
    destruct (execute_write_cases (MergeReference "REFERENCES" v r) s)
      as [(g1 & Hrun & Hup & Hw)|(e & Hw)]; rewrite Hw.
    + destruct (IH (record_txn (Txn [MergeReference "REFERENCES" v r] true) g1
                      (tail (outages s)) s)) as (s' & -> & Hn & He & Hi).
      exists s'. split; [done|]. simpl in Hrun. injection Hrun as <-.
      split; [by rewrite Hn|]. split.
      * etrans; [|exact He]. apply merge_reference_prefix.
      * rewrite Hi, intents_record_txn. simpl. by rewrite <- (assoc_L (++)).
    + unfold logger_error at 1.
      match goal with |- context [for_each rs body ?s1] =>
        destruct (IH s1) as (s' & -> & Hn & He & Hi) end.
      exists s'. split; [done|]. split; [done|]. split; [done|].
      rewrite Hi. unfold intents. simpl.
      rewrite fmap_app, concat_app. simpl. by rewrite <- (assoc_L (++)).
Qed.

Lemma load_report (d : list (string * pyval)) (v refs : pyval)
    (ref_ids : list pyval) (s : session) :
  dict_get "type" d = Some (VStr "report") →
  dict_get "id" d = Some v → v ≠ VNone →
  dict_get "object_refs" d = Some refs → py_iter refs = Ok ref_ids →
  default false (head (outages s)) = false →
  ∃ s', load_stix_object (VDict d) s = (Ok tt, s') ∧
        nodes (db s') = nodes (merge_node "report" v (scalar_props d) (db s)) ∧
        edges (db s) `prefix_of` edges (db s') ∧
        intents s' = intents s ++ MergeNode "report" v (scalar_props d)
                       :: (MergeReference "REFERENCES" v <$> ref_ids).
Proof.
  intros Hty Hid Hv Hrefs Hiter Hup.
  unfold load_stix_object. cbn [py_get py_in]. rewrite Hty. cbn [default from_option id].
  unfold try_except at 1. rewrite bind_lift_ok.
  rewrite bool_decide_eq_true_2 by discriminate.
  rewrite bool_decide_eq_true_2 by done.
  unfold bind at 1.
  assert (_create_node (VDict d)
          = Ok (MergeNode "report" v (scalar_props d))) as ->.
  { unfold _create_node. simpl. by rewrite Hty, Hid. }
  rewrite (execute_write_commit _ s
             (merge_node "report" v (scalar_props d) (db s)));
    [|by simpl; rewrite decide_False|done].
  rewrite bind_lift_ok, Hrefs.
  rewrite bool_decide_eq_true_2 by done.
  cbn [py_getitem]. rewrite Hrefs, bind_lift_ok, Hiter, bind_lift_ok.
  destruct (references_any_outage (VDict d) v ref_ids
              (record_txn (Txn [MergeNode "report" v (scalar_props d)] true)
                 (merge_node "report" v (scalar_props d) (db s))
                 (tail (outages s)) s))
    as (s' & Hrun & Hn & He & Hi); [by simpl; rewrite Hid|].
  cbn [py_getitem] in Hrun. rewrite Hrun. exists s'.
  split; [done|]. split; [done|]. split; [done|].
  rewrite Hi, intents_record_txn. simpl. by rewrite <- (assoc_L (++)).
Qed.

Lemma execute_write_raise (work : result stmt) (s s1 : session) (e : exn) :
  execute_write work s = (Raise e, s1) →
  db s1 = db s ∧ ∃ t, journal s1 = journal s ++ [t] ∧ committed t = false.
Proof.
  unfold execute_write. destruct work as [q|e0].
  - destruct (run_stmt q (db s)) as [g'|e1].
    + destruct (default false (head (outages s))); [|done].
      intros [= <- <-]. simpl. eauto.
    + intros [= <- <-]. simpl. eauto.
  - intros [= <- <-]. simpl. eauto.
Qed.

Lemma load_node_fails (d : list (string * pyval)) (s s1 : session) (e : exn) :
  default (VStr "") (dict_get "type" d) ≠ VStr "relationship" →
  execute_write (_create_node (VDict d)) s = (Raise e, s1) →
  load_stix_object (VDict d) s =
    (Ok tt,
     Session (db s1) (outages s1) (journal s1)
       (errors s1 ++ [LogExn "Error processing STIX object" e;
                      LogObj "Problematic STIX object" (VDict d)])).
Proof.
  intros Hrel Hw.
  unfold load_stix_object. cbn [py_get]. unfold try_except at 1.
  rewrite bind_lift_ok, bool_decide_eq_true_2 by done. unfold bind at 1.
  rewrite Hw. unfold bind, logger_error. simpl. by rewrite <- (assoc_L (++)).
Qed.

Lemma load_other_intents (d : list (string * pyval)) (s : session) :
  default (VStr "") (dict_get "type" d) ≠ VStr "report" →
  default (VStr "") (dict_get "type" d) ≠ VStr "relationship" →
  intents (load_stix_object (VDict d) s).2 =
    intents s ++ match _create_node (VDict d) with
                 | Ok q => [q]
                 | Raise _ => []
                 end.
Proof.
  intros Hrep Hrel. destruct (_create_node (VDict d)) as [q|e] eqn:Hnode.
  - by apply load_plain.
  - rewrite (load_node_fails d s
               (record_txn (Txn [] false) (db s) (outages s) s) e);
      [|done|by rewrite Hnode].
    apply (intents_record_txn (Txn [] false)).
Qed.

(** C3. A record whose type tag is [report], with a non-null [id] and a
    list under [object_refs], hands the store its node upsert and then one
    REFERENCES edge upsert per listed id, in order, once the node upsert has
    committed.  A record whose type tag is neither [report] nor
    [relationship] hands the store no REFERENCES upsert, whatever it lists:
    it hands over the statement [_create_node] builds for it and nothing
    else, which is its node upsert when it carries an [id] and its type tag
    is a string or absent, and nothing at all when it has no [id] or its
    type tag is not a string. *)
Theorem report_emits_reference_edges :
  (∀ d v ref_ids s,
     dict_get "type" d = Some (VStr "report") →
     dict_get "id" d = Some v → v ≠ VNone →
     dict_get "object_refs" d = Some (VList ref_ids) →
     default false (head (outages s)) = false →
     intents (load_stix_object (VDict d) s).2 =
       intents s ++ MergeNode "report" v (scalar_props d)
                      :: (MergeReference "REFERENCES" v <$> ref_ids)) ∧
  (∀ d ty v s,
     dict_get "type" d = Some (VStr ty) →
     ty ≠ "report" → ty ≠ "relationship" →
     dict_get "id" d = Some v →
     intents (load_stix_object (VDict d) s).2 =
       intents s ++ [MergeNode (sanitize_label ty) v (scalar_props d)]) ∧
  (∀ d s,
     default (VStr "") (dict_get "type" d) ≠ VStr "report" →
     default (VStr "") (dict_get "type" d) ≠ VStr "relationship" →
     intents (load_stix_object (VDict d) s).2 =
       intents s ++ match _create_node (VDict d) with
                    | Ok q => [q]
                    | Raise _ => []
                    end ∧
     (dict_get "id" d = None →
      intents (load_stix_object (VDict d) s).2 = intents s) ∧
     (∀ w, dict_get "type" d = Some w → (∀ ty, w ≠ VStr ty) →
      intents (load_stix_object (VDict d) s).2 = intents s) ∧
     (∀ v, dict_get "type" d = None → dict_get "id" d = Some v →
      intents (load_stix_object (VDict d) s).2 =
        intents s ++ [MergeNode "STIXObject" v (scalar_props d)])).
Proof.
  split; [|split].
  - intros d v ref_ids s Hty Hid Hv Hrefs Hup.
    destruct (load_report d v (VList ref_ids) ref_ids s)
      as (s' & -> & _ & _ & Hi); done.
  - intros d ty v s Hty Hrep Hrel Hid.
    apply load_plain; rewrite ?Hty; simpl; try congruence.
    unfold _create_node. simpl. by rewrite Hty, Hid.
  - intros d s Hrep Hrel. rewrite !load_other_intents by done.
    split; [done|]. split; [|split].
    + intros Hid.
      assert (∃ e, _create_node (VDict d) = Raise e) as [e ->].
      { unfold _create_node. simpl. rewrite Hid.
        destruct (default (VStr "STIXObject") (dict_get "type" d));
          simpl; eauto. }
      apply app_nil_r.
    + intros w Hty Hw.
      assert (∃ e, _create_node (VDict d) = Raise e) as [e ->].
      { unfold _create_node. simpl. rewrite Hty. simpl.
        destruct w as [| | | |ty| |]; simpl; eauto. by destruct (Hw ty). }
      apply app_nil_r.
    + intros v Hty Hid. unfold _create_node. simpl. by rewrite Hty, Hid.
Qed.

Lemma report_emits_reference_edges_witness :
  (dict_get "type" report_fields = Some (VStr "report") ∧
   dict_get "object_refs" report_fields = Some (VList [VStr "i1"; VStr "i2"]) ∧
   dict_get "type" note_fields = Some (VStr "note") ∧
   default (VStr "") (dict_get "type" anonymous) ≠ VStr "report" ∧
   default (VStr "") (dict_get "type" anonymous) ≠ VStr "relationship" ∧
   dict_get "id" anonymous = None) ∧
  length (intents (load_stix_object report_r1 (connect empty_graph)).2) = 3 ∧
  length (intents (load_stix_object note_n1 (connect empty_graph)).2) = 1 ∧
  intents (load_stix_object (VDict anonymous) (connect empty_graph)).2 = [].
Proof.
  split; [by repeat split|].
  destruct report_emits_reference_edges as (Hreport & Hother & Hany).
  unfold report_r1, note_n1. split; [|split].
  - rewrite (Hreport report_fields (VStr "r1") [VStr "i1"; VStr "i2"]
               (connect empty_graph)
               eq_refl eq_refl ltac:(discriminate) eq_refl eq_refl).
    reflexivity.
  - rewrite (Hother note_fields "note" (VStr "n1") (connect empty_graph)
               eq_refl ltac:(discriminate) ltac:(discriminate) eq_refl).
    reflexivity.
  - destruct (Hany anonymous (connect empty_graph)
                ltac:(discriminate) ltac:(discriminate)) as (_ & Hnone & _).
    exact (Hnone eq_refl).
Defined.

(** C3, the claim as worded fails: a note that lists a reference hands the
    store its node upsert only. *)
Lemma note_with_refs_emits_no_reference :
  intents (load_stix_object note_n1 (connect two_indicators)).2 =
    [MergeNode "note" (VStr "n1")
       {[ "id" := VStr "n1"; "type" := VStr "note" ]}] ∧
  edges (db (load_stix_object note_n1 (connect two_indicators)).2) = [].
Proof. split; vm_compute; reflexivity. Qed.

(** ** Transactions *)

Lemma committed_statements_app (ts ts' : list txn) :
  committed_statements (ts ++ ts')
    = committed_statements ts ++ committed_statements ts'.
Proof.
  unfold committed_statements. by rewrite filter_app, fmap_app, concat_app.
Qed.

Lemma committed_statements_cons (q : stmt) (b : bool) (ts : list txn) :
  committed_statements (Txn [q] b :: ts)
    = (if b then [q] else []) ++ committed_statements ts.
Proof.
  unfold committed_statements. rewrite filter_cons. simpl.
  destruct b; [by rewrite decide_True|by rewrite decide_False].
Qed.

Lemma effect_commit (q : stmt) (g g' : graph) :
  run_stmt q g = Ok g' → effect [q] g = g'.
Proof. intros Hrun. unfold effect. simpl. by rewrite Hrun. Qed.

Lemma process_objects_committed (objs : list pyval) (s : session) :
  ∃ ts, journal (process_objects objs s).2 = journal s ++ ts ∧
        db (process_objects objs s).2 = effect (committed_statements ts) (db s).
Proof.
  apply (steps_process_objects
           (λ s s', ∃ ts, journal s' = journal s ++ ts ∧
                          db s' = effect (committed_statements ts) (db s))).
  - intros s0. exists []. by rewrite app_nil_r.
  - intros s1 s2 s3 (ts & Hj & Hd) (ts' & Hj' & Hd'). exists (ts ++ ts').
    split; [by rewrite Hj', Hj, (assoc_L (++))|].
    by rewrite committed_statements_app, effect_app, <- Hd.
  - intros l s0. exists []. by rewrite app_nil_r.
  - intros work s0 _. unfold execute_write. destruct work as [q|e].
    + destruct (run_stmt q (db s0)) as [g'|e] eqn:Hrun.
      * destruct (default false (head (outages s0))).
        -- by exists [Txn [q] false].
        -- exists [Txn [q] true]. split; [done|]. simpl.
           symmetry. by apply effect_commit.
      * by exists [Txn [q] false].
    + by exists [Txn [] false].
Qed.

Lemma references_journal (stix_obj : pyval) (v : pyval)
    (ref_ids : list pyval) (s : session) :
  py_getitem stix_obj "id" = Ok v →
  ∃ s' ts,
    for_each ref_ids (λ ref_id,
      try_except
        (let! id := lift (py_getitem stix_obj "id") in
         execute_write (_create_relationship id ref_id "REFERENCES"))
        (λ e, logger_error
                (LogExn "Error creating report reference relationship" e))) s
    = (Ok tt, s') ∧
    journal s' = journal s ++ ts ∧
    statements <$> ts = (λ r, [MergeReference "REFERENCES" v r]) <$> ref_ids ∧
    committed <$> ts
      = (λ i, negb (default false (outages s !! i))) <$> seq 0 (length ref_ids) ∧
    db s' = effect (committed_statements ts) (db s).
Proof.
  intros Hid. set (body := λ ref_id : pyval, try_except _ _).
  revert s. induction ref_ids as [|r rs IH]; intros s.
  - exists s, []. by rewrite app_nil_r.
  - cbn [for_each]. unfold bind at 1. unfold body at 1.
    unfold try_except at 1. rewrite Hid, bind_lift_ok.
    unfold _create_relationship.
    change (sanitize_rel_type "REFERENCES") with "REFERENCES".
    assert (default false (outages s !! 0) = default false (head (outages s)))
      as H0 by (by destruct (outages s)).
    assert ((λ i, negb (default false (outages s !! i))) <$> seq 1 (length rs)
            = (λ i, negb (default false (tail (outages s) !! i)))
                <$> seq 0 (length rs)) as Hrest.
    { rewrite <- fmap_S_seq, <- list_fmap_compose. apply list_fmap_ext.
      intros i j _. simpl. by rewrite lookup_tail. }
    destruct (execute_write_cases (MergeReference "REFERENCES" v r) s)
      as [(g1 & Hrun & Hup & Hw)|(e & Hw)]; rewrite Hw.
    + destruct (IH (record_txn (Txn [MergeReference "REFERENCES" v r] true) g1
                      (tail (outages s)) s))
        as (s' & ts & -> & Hj & Hst & Hco & Hdb).
      exists s', (Txn [MergeReference "REFERENCES" v r] true :: ts).
      split; [done|]. simpl in Hj, Hco, Hdb.
      split; [by rewrite Hj, <- (assoc_L (++))|].
      split; [by rewrite !fmap_cons, Hst|].
      split.
      * cbn [length seq]. rewrite !fmap_cons, Hco, Hrest, H0, Hup. done.
      * by rewrite Hdb, committed_statements_cons, effect_app,
          (effect_commit _ _ _ Hrun).
    + unfold logger_error at 1.
      match goal with |- context [for_each rs body ?s1] =>
        destruct (IH s1) as (s' & ts & -> & Hj & Hst & Hco & Hdb) end.
      exists s', (Txn [MergeReference "REFERENCES" v r] false :: ts).
      split; [done|]. simpl in Hj, Hco, Hdb.
      split; [by rewrite Hj, <- (assoc_L (++))|].
      split; [by rewrite !fmap_cons, Hst|].
      assert (default false (head (outages s)) = true) as Hdown.
      { unfold execute_write in Hw. simpl in Hw.
        destruct (default false (head (outages s))); [done|discriminate]. }
      split.
      * cbn [length seq]. rewrite !fmap_cons, Hco, Hrest, H0, Hdown. done.
      * by rewrite Hdb, committed_statements_cons.
Qed.

Lemma load_report_journal (d : list (string * pyval)) (v : pyval)
    (ref_ids : list pyval) (s : session) :
  dict_get "type" d = Some (VStr "report") →
  dict_get "id" d = Some v → v ≠ VNone →
  dict_get "object_refs" d = Some (VList ref_ids) →
  default false (head (outages s)) = false →
  ∃ s' ts,
    load_stix_object (VDict d) s = (Ok tt, s') ∧
    journal s'
      = journal s ++ Txn [MergeNode "report" v (scalar_props d)] true :: ts ∧
    statements <$> ts = (λ r, [MergeReference "REFERENCES" v r]) <$> ref_ids ∧
    committed <$> ts
      = (λ i, negb (default false (tail (outages s) !! i)))
          <$> seq 0 (length ref_ids) ∧
    db s'
      = effect (committed_statements
                  (Txn [MergeNode "report" v (scalar_props d)] true :: ts))
          (db s).
Proof.
  intros Hty Hid Hv Hrefs Hup.
  unfold load_stix_object. cbn [py_get py_in]. rewrite Hty. cbn [default from_option id].
  unfold try_except at 1. rewrite bind_lift_ok.
  rewrite bool_decide_eq_true_2 by discriminate.
  rewrite bool_decide_eq_true_2 by done.
  unfold bind at 1.
  assert (_create_node (VDict d)
          = Ok (MergeNode "report" v (scalar_props d))) as ->.
  { unfold _create_node. simpl. by rewrite Hty, Hid. }
  assert (run_stmt (MergeNode "report" v (scalar_props d)) (db s)
          = Ok (merge_node "report" v (scalar_props d) (db s))) as Hrun
    by (by simpl; rewrite decide_False).
  rewrite (execute_write_commit _ s
             (merge_node "report" v (scalar_props d) (db s))) by done.
  rewrite bind_lift_ok, Hrefs.
  rewrite bool_decide_eq_true_2 by done.
  cbn [py_getitem]. rewrite Hrefs, bind_lift_ok. cbn [py_iter].
  rewrite bind_lift_ok.
  destruct (references_journal (VDict d) v ref_ids
              (record_txn (Txn [MergeNode "report" v (scalar_props d)] true)
                 (merge_node "report" v (scalar_props d) (db s))
                 (tail (outages s)) s))
    as (s' & ts & Hrun' & Hj & Hst & Hco & Hdb); [by simpl; rewrite Hid|].
  cbn [py_getitem] in Hrun'. rewrite Hrun'. exists s', ts.
  simpl in Hj, Hco, Hdb. split; [done|].
  split; [by rewrite Hj, <- (assoc_L (++))|]. split; [done|]. split; [done|].
  by rewrite Hdb, committed_statements_cons, effect_app,
    (effect_commit _ _ _ Hrun).
Qed.

(** C2. Every transaction the loop of [main] opens carries at most one
    statement: the intents of a record go one per transaction, the node
    upsert first.  The graph is at every moment what the committed
    transactions wrote, in their order: a transaction that fails undoes
    none that committed before it and hinders none that commits after it,
    of the same record or of another.  When the transaction of the node
    upsert fails, nothing of the record takes effect and no edge upsert is
    attempted.  When it commits for a report, one transaction follows per
    listed reference, each committing unless the store is out of reach for
    it, and the graph is the former one with the node upsert and exactly
    the committed reference upserts applied. *)
Theorem one_transaction_per_intent :
  (∀ objs s, one_statement_each s (process_objects objs s).2) ∧
  (∀ objs s, ∃ ts,
     journal (process_objects objs s).2 = journal s ++ ts ∧
     db (process_objects objs s).2 = effect (committed_statements ts) (db s)) ∧
  (∀ d s e,
     default (VStr "") (dict_get "type" d) ≠ VStr "relationship" →
     (execute_write (_create_node (VDict d)) s).1 = Raise e →
     db (load_stix_object (VDict d) s).2 = db s ∧
     ∃ t, journal (load_stix_object (VDict d) s).2 = journal s ++ [t] ∧
          committed t = false) ∧
  (∀ d v ref_ids s,
     dict_get "type" d = Some (VStr "report") →
     dict_get "id" d = Some v → v ≠ VNone →
     dict_get "object_refs" d = Some (VList ref_ids) →
     default false (head (outages s)) = false →
     nodes (db (load_stix_object (VDict d) s).2)
       = nodes (merge_node "report" v (scalar_props d) (db s)) ∧
     edges (db s) `prefix_of` edges (db (load_stix_object (VDict d) s).2) ∧
     ∃ ts,
       journal (load_stix_object (VDict d) s).2
         = journal s ++ Txn [MergeNode "report" v (scalar_props d)] true :: ts ∧
       statements <$> ts
         = (λ r, [MergeReference "REFERENCES" v r]) <$> ref_ids ∧
       committed <$> ts
         = (λ i, negb (default false (tail (outages s) !! i)))
             <$> seq 0 (length ref_ids) ∧
       db (load_stix_object (VDict d) s).2
         = effect (committed_statements
                     (Txn [MergeNode "report" v (scalar_props d)] true :: ts))
             (db s)).
Proof.
  split; [|split; [|split]].
  - intros objs. apply steps_process_objects.
    + intros s. exists []. by rewrite app_nil_r.
    + intros s1 s2 s3 (ts & H12 & Hts) (ts' & H23 & Hts'). exists (ts ++ ts').
      split; [by rewrite H23, H12, (assoc_L (++))|by apply Forall_app].
    + intros l s. exists []. by rewrite app_nil_r.
    + intros work s _. unfold execute_write. destruct work as [q|e].
      * destruct (run_stmt q (db s)); [destruct (default false _)|];
          (eexists; split; [reflexivity|]; repeat constructor).
      * eexists; split; [reflexivity|]. repeat constructor.
  - apply process_objects_committed.
  - intros d s e Hrel Hfail.
    destruct (execute_write (_create_node (VDict d)) s) as [r s1] eqn:Hw.
    simpl in Hfail. subst r. rewrite (load_node_fails d s s1 e) by done.
    apply execute_write_raise in Hw as (Hdb & t & Hj & Hc). simpl. eauto.
  - intros d v ref_ids s Hty Hid Hv Hrefs Hup.
    split; [|split].
    + destruct (load_report d v (VList ref_ids) ref_ids s)
        as (s' & -> & Hn & He & _); done.
    + destruct (load_report d v (VList ref_ids) ref_ids s)
        as (s' & -> & Hn & He & _); done.
    + destruct (load_report_journal d v ref_ids s)
        as (s' & ts & -> & Hrest); [done..|]. by exists ts.
Qed.

Lemma one_transaction_per_intent_witness :
  (default (VStr "") (dict_get "type" anonymous) ≠ VStr "relationship" ∧
   (execute_write (_create_node (VDict anonymous)) (connect empty_graph)).1
     = Raise (KeyError "id") ∧
   dict_get "type" report_fields = Some (VStr "report") ∧
   default false (head (outages flaky_session)) = false) ∧
  db (load_stix_object (VDict anonymous) (connect empty_graph)).2 = empty_graph ∧
  length (nodes (db (load_stix_object report_r1 flaky_session).2)) = 3 ∧
  (∃ ts, committed <$> ts = [false; true] ∧
         journal (load_stix_object report_r1 flaky_session).2
           = journal flaky_session
               ++ Txn [MergeNode "report" (VStr "r1") (scalar_props report_fields)]
                    true :: ts) ∧
  one_statement_each flaky_session (process_objects [report_r1] flaky_session).2.
Proof.
  assert (default (VStr "") (dict_get "type" anonymous) ≠ VStr "relationship")
    as H1 by discriminate.
  assert ((execute_write (_create_node (VDict anonymous))
             (connect empty_graph)).1 = Raise (KeyError "id")) as H2
    by reflexivity.
  split; [by repeat split|].
  destruct one_transaction_per_intent as (Heach & _ & Hfail & Hreport).
  destruct (Hreport report_fields (VStr "r1") [VStr "i1"; VStr "i2"]
              flaky_session eq_refl eq_refl ltac:(discriminate)
              eq_refl eq_refl) as (Hn & _ & ts & Hj & _ & Hco & _).
  split; [|split; [|split]].
  - by destruct (Hfail anonymous (connect empty_graph) (KeyError "id") H1 H2).
  - unfold report_r1. rewrite Hn. vm_compute. reflexivity.
  - exists ts. split; [exact Hco|exact Hj].
  - apply Heach.
Defined.

(** C2, the claim as worded fails: the report's three intents go in three
    transactions; the second meets an outage and is given up, and the
    vertex of the report and its other edge are in the graph all the
    same. *)
Lemma report_intents_in_three_transactions :
  committed <$> journal (load_stix_object report_r1 flaky_session).2
    = [true; false; true] ∧
  length ∘ statements <$> journal (load_stix_object report_r1 flaky_session).2
    = [1; 1; 1] ∧
  n_labels <$> nodes (db (load_stix_object report_r1 flaky_session).2)
    = [["indicator"]; ["indicator"]; ["report"]] ∧
  (λ e, (e_src e, e_tgt e, e_type e))
    <$> edges (db (load_stix_object report_r1 flaky_session).2)
    = [(2, 1, "REFERENCES")].
Proof. repeat split; vm_compute; reflexivity. Qed.

(** ** Sanitized names *)

Lemma replace_letters (old new : ascii) (s : string) :
  letters (replace old new s)
    = (λ c, if Ascii.eqb c old then new else c) <$> letters s.
Proof.
  unfold letters. induction s as [|c s IH]; [done|].
  cbn [replace String.list_ascii_of_string]. rewrite fmap_cons. by f_equal.
Qed.

Lemma upper_letters (s : string) :
  letters (upper s) = upper_char <$> letters s.
Proof.
  unfold letters. induction s as [|c s IH]; [done|].
  cbn [upper String.list_ascii_of_string]. rewrite fmap_cons. by f_equal.
Qed.

Lemma upper_char_not_lower (c : ascii) : is_lower (upper_char c) = false.
Proof.
  unfold upper_char, is_lower.
  destruct ((97 <=? nat_of_ascii c)%nat && (nat_of_ascii c <=? 122)%nat)
    eqn:Hc; [|done].
  apply andb_true_iff in Hc as [H1%Nat.leb_le H2%Nat.leb_le].
  rewrite nat_ascii_embedding by lia.
  apply andb_false_iff. left. apply Nat.leb_gt. lia.
Qed.

Lemma sanitize_rel_type_letters (s : string) (c : ascii) :
  c ∈ letters (sanitize_rel_type s) →
  c ≠ "-"%char ∧ c ≠ " "%char ∧
  (c = "_"%char ∨ c ∈ letters s).
Proof.
  unfold sanitize_rel_type. rewrite !replace_letters, <- list_fmap_compose.
  intros (c0 & -> & Hc0)%list_elem_of_fmap. simpl.
  destruct (Ascii.eqb_spec c0 "-"%char) as [->|Hh]; simpl.
  - repeat split; try discriminate. by left.
  - destruct (Ascii.eqb_spec c0 " "%char) as [->|Hb];
      repeat split; try done; try discriminate; auto.
Qed.

Lemma sanitize_label_letters (s : string) (c : ascii) :
  c ∈ letters (sanitize_label s) →
  c ≠ "-"%char ∧ (c = "_"%char ∨ c ∈ letters s).
Proof.
  unfold sanitize_label. rewrite replace_letters.
  intros (c0 & -> & Hc0)%list_elem_of_fmap.
  destruct (Ascii.eqb_spec c0 "-"%char) as [->|Hh];
    split; try done; try discriminate; auto.
Qed.

Lemma sanitized_upper_letters (s : string) (c : ascii) :
  c ∈ letters (sanitize_rel_type (upper s)) →
  c ≠ "-"%char ∧ c ≠ " "%char ∧ is_lower c = false.
Proof.
  intros Hc. destruct (sanitize_rel_type_letters _ _ Hc) as (H1 & H2 & [->|H3]).
  - done.
  - repeat split; try done. rewrite upper_letters in H3.
    apply list_elem_of_fmap in H3 as (c0 & -> & _). apply upper_char_not_lower.
Qed.

Lemma length_letters_replace (old new : ascii) (s : string) :
  length (letters (replace old new s)) = length (letters s).
Proof. by rewrite replace_letters, length_fmap. Qed.

(** ** Relationship records, path by path *)

Lemma truthy_py_and (a b : pyval) :
  truthy (py_and a b) = truthy a && truthy b.
Proof. unfold py_and. by destruct (truthy a) eqn:Ha; rewrite ?Ha. Qed.

Lemma try_except_ext {A} (m m' : M A) (h : exn → M A) (s : session) :
  m s = m' s → try_except m h s = try_except m' h s.
Proof. unfold try_except. by intros ->. Qed.

Lemma bind_ret_ok {A B} (a : A) (k : A → M B) (s : session) :
  bind (ret a) k s = k a s.
Proof. reflexivity. Qed.

Lemma load_relationship_head (d : list (string * pyval)) (s : session) :
  dict_get "type" d = Some (VStr "relationship") →
  load_stix_object (VDict d) s =
    try_except
      (let! relationship_type :=
         lift (str_method "upper" upper
                 (default (VStr "RELATED_TO") (dict_get "relationship_type" d))) in
       if truthy (py_and (default VNone (dict_get "source_ref" d))
                         (default VNone (dict_get "target_ref" d))) then
         try_except
           (execute_write
              (_create_stix_relationship
                 (default VNone (dict_get "source_ref" d))
                 (default VNone (dict_get "target_ref" d))
                 relationship_type (default VNone (dict_get "id" d))
                 (scalar_props d)))
           (λ e, logger_error (LogExn "Error creating STIX relationship" e))
       else ret tt)
      (λ e,
         logger_error (LogExn "Error processing STIX object" e) >>
         logger_error (LogObj "Problematic STIX object" (VDict d))) s.
Proof.
  intros Hty. unfold load_stix_object. apply try_except_ext.
  cbn [py_get py_in py_scalar_props]. rewrite Hty. cbn [default from_option id].
  rewrite bind_lift_ok.
  rewrite (bool_decide_eq_false_2 (VStr "relationship" ≠ VStr "relationship"))
    by (by intros ?).
  rewrite (bool_decide_eq_false_2 (VStr "relationship" = VStr "report"))
    by discriminate.
  rewrite (bool_decide_eq_true_2 (VStr "relationship" = VStr "relationship"))
    by done.
  rewrite !bind_ret_ok, !bind_lift_ok. reflexivity.
Qed.

Lemma load_relationship_eq (d : list (string * pyval)) (declared : string)
    (s : session) :
  dict_get "type" d = Some (VStr "relationship") →
  default (VStr "RELATED_TO") (dict_get "relationship_type" d) = VStr declared →
  truthy (default VNone (dict_get "source_ref" d)) = true →
  truthy (default VNone (dict_get "target_ref" d)) = true →
  load_stix_object (VDict d) s =
    match
      execute_write
        (Ok (MergeRelationship (sanitize_rel_type (upper declared))
               (default VNone (dict_get "source_ref" d))
               (default VNone (dict_get "target_ref" d))
               (default VNone (dict_get "id" d)) (scalar_props d))) s
    with
    | (Ok _, s1) => (Ok tt, s1)
    | (Raise e, s1) =>
        (Ok tt,
         Session (db s1) (outages s1) (journal s1)
           (errors s1 ++ [LogExn "Error creating STIX relationship" e]))
    end.
Proof.
  intros Hty Hdecl Hs Ht. rewrite load_relationship_head by done.
  rewrite Hdecl. cbn [str_method]. unfold try_except at 1.
  rewrite bind_lift_ok, truthy_py_and, Hs, Ht. cbn [andb].
  unfold try_except, _create_stix_relationship.
  by destruct (execute_write _ s) as [[[]|e] s1].
Qed.

(** X1. A relationship record whose [relationship_type] is a string or
    absent and whose [source_ref] or [target_ref] is absent, null, empty
    or otherwise false is passed over in silence: nothing is handed to the
    store, nothing is logged, the session is as it was. *)
Theorem relationship_without_endpoint_is_passed_over
    (d : list (string * pyval)) (declared : string) (s : session) :
  dict_get "type" d = Some (VStr "relationship") →
  default (VStr "RELATED_TO") (dict_get "relationship_type" d) = VStr declared →
  truthy (default VNone (dict_get "source_ref" d)) = false ∨
  truthy (default VNone (dict_get "target_ref" d)) = false →
  load_stix_object (VDict d) s = (Ok tt, s).
Proof.
  intros Hty Hdecl Hmiss. rewrite load_relationship_head by done.
  rewrite Hdecl. cbn [str_method]. unfold try_except at 1.
  rewrite bind_lift_ok, truthy_py_and.
  destruct Hmiss as [-> | ->]; [done|]. by rewrite andb_false_r.
Qed.

Lemma relationship_without_endpoint_is_passed_over_witness :
  (dict_get "type" rel_no_target
     = Some (VStr "relationship") ∧
   truthy (default VNone
             (dict_get "target_ref" rel_no_target)) = false) ∧
  load_stix_object
    (VDict rel_no_target)
    (connect two_indicators) = (Ok tt, connect two_indicators).
Proof.
  split; [by split|].
  apply (relationship_without_endpoint_is_passed_over rel_no_target
           "RELATED_TO");
    [reflexivity|reflexivity|right; reflexivity].
Defined.

(** X2. A relationship record with both endpoints whose relationship type
    is absent or a string of ASCII characters hands the store exactly one
    statement, whatever the store then does with it: the edge upsert
    between its endpoints under its own id, with its scalar fields as
    properties, typed by the declared relationship type in upper case and
    sanitized, [RELATED_TO] when none is declared.  That type holds no
    hyphen, no blank and no lower-case letter. *)
Theorem relationship_record_hands_one_typed_upsert
    (d : list (string * pyval)) (declared : string) (s : session) :
  dict_get "type" d = Some (VStr "relationship") →
  default (VStr "RELATED_TO") (dict_get "relationship_type" d) = VStr declared →
  Forall (λ c, is_ascii c = true) (letters declared) →
  truthy (default VNone (dict_get "source_ref" d)) = true →
  truthy (default VNone (dict_get "target_ref" d)) = true →
  intents (load_stix_object (VDict d) s).2 =
    intents s ++
    [MergeRelationship (sanitize_rel_type (upper declared))
       (default VNone (dict_get "source_ref" d))
       (default VNone (dict_get "target_ref" d))
       (default VNone (dict_get "id" d)) (scalar_props d)] ∧
  (∀ c, c ∈ letters (sanitize_rel_type (upper declared)) →
        c ≠ "-"%char ∧ c ≠ " "%char ∧ is_lower c = false) ∧
  (dict_get "relationship_type" d = None →
   sanitize_rel_type (upper declared) = "RELATED_TO").
Proof.
  intros Hty Hdecl _ Hs Ht. split; [|split].
  - rewrite (load_relationship_eq d declared s) by done.
    destruct (execute_write_cases
                (MergeRelationship (sanitize_rel_type (upper declared))
                   (default VNone (dict_get "source_ref" d))
                   (default VNone (dict_get "target_ref" d))
                   (default VNone (dict_get "id" d)) (scalar_props d)) s)
      as [(g' & _ & _ & ->)|(e & ->)].
    + apply intents_record_txn.
    + apply (intents_record_txn (Txn [_] false)).
  - apply sanitized_upper_letters.
  - intros Hnone. rewrite Hnone in Hdecl. simpl in Hdecl.
    by injection Hdecl as <-.
Qed.

Lemma relationship_record_hands_one_typed_upsert_witness :
  (dict_get "type" rel_attributed
     = Some (VStr "relationship") ∧
   Forall (λ c, is_ascii c = true) (letters "attributed-to") ∧
   truthy (VStr "i1") = true ∧ truthy (VStr "i2") = true) ∧
  intents (load_stix_object
             (VDict rel_attributed)
             (connect two_indicators)).2 =
    [MergeRelationship "ATTRIBUTED_TO" (VStr "i1") (VStr "i2") (VStr "rel7")
       (scalar_props rel_attributed)].
Proof.
  assert (Forall (λ c, is_ascii c = true) (letters "attributed-to")) as Ha
    by (repeat constructor).
  split; [by repeat split|].
  destruct (relationship_record_hands_one_typed_upsert
              rel_attributed
              "attributed-to" (connect two_indicators)
              eq_refl eq_refl Ha eq_refl eq_refl) as [H _].
  exact H.
Defined.

(** X3. A relationship record whose [relationship_type] is not a string
    never reaches the store, even with both endpoints given: [.upper()]
    raises outside the inner handler, the outer one logs the error and the
    object, and the graph, the journal and the outages are as before. *)
Theorem relationship_type_not_a_string_is_logged
    (d : list (string * pyval)) (v : pyval) (s : session) :
  dict_get "type" d = Some (VStr "relationship") →
  dict_get "relationship_type" d = Some v →
  (∀ text, v ≠ VStr text) →
  load_stix_object (VDict d) s =
    (Ok tt,
     Session (db s) (outages s) (journal s)
       (errors s ++ [LogExn "Error processing STIX object"
                       (AttributeError "upper");
                     LogObj "Problematic STIX object" (VDict d)])).
Proof.
  intros Hty Hv Hnot. rewrite load_relationship_head by done.
  rewrite Hv. cbn [default from_option id]. unfold try_except at 1.
  destruct v as [| | | |text| |]; try (by destruct (Hnot text));
    cbn [str_method]; rewrite bind_lift_raise;
    unfold bind, logger_error; simpl; by rewrite <- (assoc_L (++)).
Qed.

Lemma relationship_type_not_a_string_is_logged_witness :
  (dict_get "type" rel_numeric_type
     = Some (VStr "relationship") ∧
   ∀ text, VInt 7 ≠ VStr text) ∧
  intents (load_stix_object
             (VDict rel_numeric_type)
             (connect two_indicators)).2 = [].
Proof.
  assert (∀ text, VInt 7 ≠ VStr text) as Hnot by discriminate.
  split; [by split|].
  rewrite (relationship_type_not_a_string_is_logged rel_numeric_type (VInt 7)
             (connect two_indicators) eq_refl eq_refl Hnot).
  reflexivity.
Defined.



(** ** Entity records, property by property *)

Lemma py_items_lookup (d : list (string * pyval)) (k : string) (v : pyval) :
  dict_get k d = Some v → (k, v) ∈ py_items d.
Proof.
  induction d as [|[k' v'] d IH]; simpl; [done|].
  destruct (decide (k' = k)) as [->|Hne].
  - intros [= ->]. by left.
  - intros Hget. right. apply list_elem_of_filter. split; [by simpl|by apply IH].
Qed.

Lemma scalar_props_spec (d : list (string * pyval)) (k : string) :
  scalar_props d !! k =
    match dict_get k d with
    | Some w => if is_scalar w then Some w else None
    | None => None
    end.
Proof.
  destruct (scalar_props d !! k) as [w|] eqn:Hw.
  - pose proof Hw as Hin. unfold scalar_props in Hin.
    apply elem_of_list_to_map_2, list_elem_of_filter in Hin as [Hsc _].
    simpl in Hsc. apply scalar_props_lookup in Hw. by rewrite Hw, Hsc.
  - destruct (dict_get k d) as [w|] eqn:Hget; [|done].
    destruct (is_scalar w) eqn:Hsc; [|done].
    assert (scalar_props d !! k = Some w) as Hsome; [|congruence].
    unfold scalar_props. apply elem_of_list_to_map_1'.
    + intros y [_ Hy]%list_elem_of_filter. apply elem_of_py_items in Hy.
      congruence.
    + apply list_elem_of_filter. split; [done|by apply py_items_lookup].
Qed.

Lemma set_props_lookup (props p : gmap string pyval) (k : string) :
  set_props props p !! k =
    match props !! k with Some w => Some w | None => p !! k end.
Proof.
  unfold set_props. destruct (props !! k) as [w|] eqn:Hk.
  - by erewrite lookup_union_Some_l.
  - by rewrite lookup_union_r.
Qed.

Lemma deliver_entity_nodes (d : list (string * pyval)) (ty : string)
    (v : pyval) (g : graph) :
  dict_get "type" d = Some (VStr ty) → ty ≠ "relationship" →
  dict_get "id" d = Some v → v ≠ VNone →
  nodes (deliver [VDict d] g) =
    nodes (merge_node (sanitize_label ty) v (scalar_props d) g).
Proof.
  intros Hty Hne Hid Hv.
  destruct (statements_of_entity d (sanitize_label ty) v (scalar_props d))
    as [refs Hst]; [|rewrite Hty; simpl; congruence|done|].
  { unfold _create_node. simpl. by rewrite Hty, Hid. }
  by rewrite deliver_one, Hst, effect_entity, effect_references_nodes.
Qed.

(** X5. Delivering an entity record to a graph that holds the vertex of its
    label and id keeps the vertex where it is, with its labels, and settles
    each property by itself: the record's value where that value is a
    string, number or boolean, and what the vertex had before where the
    record has no such key or holds null, a list or a mapping under it. *)
Theorem entity_redelivery_settles_each_property
    (d : list (string * pyval)) (ty : string) (v : pyval) (g : graph)
    (i : nat) (n : node) :
  dict_get "type" d = Some (VStr ty) → ty ≠ "relationship" →
  dict_get "id" d = Some v →
  nodes g !! i = Some n → node_hit (sanitize_label ty) v n = true →
  ∃ n', nodes (deliver [VDict d] g) !! i = Some n' ∧
        n_labels n' = n_labels n ∧
        ∀ k, n_props n' !! k =
               match dict_get k d with
               | Some w => if is_scalar w then Some w else n_props n !! k
               | None => n_props n !! k
               end.
Proof.
  intros Hty Hne Hid Hn Hhit.
  assert (v ≠ VNone) as Hv.
  { apply andb_true_iff in Hhit as [_ [? _]%has_id_true]. done. }
  rewrite (deliver_entity_nodes d ty v g) by done.
  assert (List.existsb (node_hit (sanitize_label ty) v) (nodes g) = true)
    as Hex.
  { apply existsb_elem_of. exists n. split; [|done].
    by eapply list_elem_of_lookup_2. }
  unfold merge_node, merged_over. rewrite Hex. simpl.
  rewrite list_lookup_fmap, Hn. simpl. unfold node_set. rewrite Hhit.
  eexists. split; [done|]. split; [done|]. intros k. simpl.
  rewrite set_props_lookup, scalar_props_spec.
  destruct (dict_get k d) as [w|]; [|done]. by destruct (is_scalar w).
Qed.

Lemma entity_redelivery_settles_each_property_witness :
  (dict_get "type" [("id", VStr "i1"); ("type", VStr "indicator");
                    ("pattern", VList [VStr "y"]); ("score", VInt 7)]
     = Some (VStr "indicator") ∧
   "indicator" ≠ "relationship" ∧
   nodes two_indicators !! 0
     = Some (Node ["indicator"]
               {[ "id" := VStr "i1"; "type" := VStr "indicator";
                  "pattern" := VStr "x" ]})) ∧
  ∃ n', nodes (deliver [VDict [("id", VStr "i1"); ("type", VStr "indicator");
                               ("pattern", VList [VStr "y"]);
                               ("score", VInt 7)]] two_indicators) !! 0
          = Some n' ∧
        n_props n' !! "pattern" = Some (VStr "x") ∧
        n_props n' !! "score" = Some (VInt 7).
Proof.
  assert (nodes two_indicators !! 0
          = Some (Node ["indicator"]
                    {[ "id" := VStr "i1"; "type" := VStr "indicator";
                       "pattern" := VStr "x" ]})) as Hn
    by (vm_compute; reflexivity).
  split; [split; [reflexivity|split; [discriminate|exact Hn]]|].
  destruct (entity_redelivery_settles_each_property
              [("id", VStr "i1"); ("type", VStr "indicator");
               ("pattern", VList [VStr "y"]); ("score", VInt 7)]
              "indicator" (VStr "i1") two_indicators 0 _
              eq_refl ltac:(discriminate) eq_refl Hn)
    as (n' & Hn' & _ & Hprops); [vm_compute; reflexivity|].
  exists n'. split; [exact Hn'|].
  split; rewrite Hprops; vm_compute; reflexivity.
Defined.

(** X6. Delivering an entity record with a non-null id to a graph in which
    no vertex answers to its label and id adds one vertex at the end, under
    the sanitized type as its only label, with the id and the record's
    scalar fields as properties, and leaves every other vertex as it is. *)
Theorem entity_first_delivery_adds_one_vertex
    (d : list (string * pyval)) (ty : string) (v : pyval) (g : graph) :
  dict_get "type" d = Some (VStr ty) → ty ≠ "relationship" →
  dict_get "id" d = Some v → v ≠ VNone →
  (∀ n, n ∈ nodes g → node_hit (sanitize_label ty) v n = false) →
  nodes (deliver [VDict d] g) =
    nodes g ++ [Node [sanitize_label ty]
                  (set_props (scalar_props d) {["id" := v]})].
Proof.
  intros Hty Hne Hid Hv Hfresh.
  rewrite (deliver_entity_nodes d ty v g) by done.
  assert (List.existsb (node_hit (sanitize_label ty) v) (nodes g) = false)
    as Hex.
  { destruct (List.existsb _ (nodes g)) eqn:Hex; [|done].
    apply existsb_elem_of in Hex as (n & Hn & Hhit).
    rewrite Hfresh in Hhit; done. }
  unfold merge_node, merged_over. rewrite Hex. simpl.
  rewrite fmap_app. f_equal.
  - rewrite <- (list_fmap_id (nodes g)) at 2. apply list_fmap_ext.
    intros i n Hn. unfold node_set. rewrite Hfresh; [done|].
    by eapply list_elem_of_lookup_2.
  - simpl. unfold node_set. by rewrite node_hit_new.
Qed.

Lemma entity_first_delivery_adds_one_vertex_witness :
  (dict_get "type" [("id", VStr "m1"); ("type", VStr "threat-actor");
                    ("aliases", VList [VStr "a"]); ("name", VStr "x")]
     = Some (VStr "threat-actor") ∧
   "threat-actor" ≠ "relationship" ∧ VStr "m1" ≠ VNone ∧
   ∀ n, n ∈ nodes two_indicators → node_hit "threat_actor" (VStr "m1") n = false) ∧
  nodes (deliver [VDict [("id", VStr "m1"); ("type", VStr "threat-actor");
                         ("aliases", VList [VStr "a"]); ("name", VStr "x")]]
           two_indicators) =
    nodes two_indicators ++
    [Node ["threat_actor"]
       {[ "id" := VStr "m1"; "type" := VStr "threat-actor";
          "name" := VStr "x" ]}].
Proof.
  assert (∀ n, n ∈ nodes two_indicators →
               node_hit "threat_actor" (VStr "m1") n = false) as Hfresh.
  { intros n Hn. apply (existsb_false_elem_of _ (nodes two_indicators));
      [vm_compute; reflexivity|done]. }
  split; [split; [reflexivity|split; [discriminate|split; [discriminate|done]]]|].
  rewrite (entity_first_delivery_adds_one_vertex
             [("id", VStr "m1"); ("type", VStr "threat-actor");
              ("aliases", VList [VStr "a"]); ("name", VStr "x")]
             "threat-actor" (VStr "m1") two_indicators
             eq_refl ltac:(discriminate) eq_refl ltac:(discriminate) Hfresh).
  vm_compute. reflexivity.
Defined.

(** ** Reports whose references are not a list *)

Lemma load_report_not_iterable (d : list (string * pyval)) (v refs : pyval)
    (e : exn) (s : session) :
  dict_get "type" d = Some (VStr "report") →
  dict_get "id" d = Some v → v ≠ VNone →
  dict_get "object_refs" d = Some refs → py_iter refs = Raise e →
  default false (head (outages s)) = false →
  load_stix_object (VDict d) s =
    (Ok tt,
     Session (merge_node "report" v (scalar_props d) (db s))
       (tail (outages s))
       (journal s ++ [Txn [MergeNode "report" v (scalar_props d)] true])
       (errors s ++ [LogExn "Error processing STIX object" e;
                     LogObj "Problematic STIX object" (VDict d)])).
Proof.
  intros Hty Hid Hv Hrefs Hiter Hup.
  unfold load_stix_object. cbn [py_get py_in]. rewrite Hty.
  cbn [default from_option id].
  unfold try_except at 1. rewrite bind_lift_ok.
  rewrite bool_decide_eq_true_2 by discriminate.
  rewrite bool_decide_eq_true_2 by done.
  unfold bind at 1.
  assert (_create_node (VDict d)
          = Ok (MergeNode "report" v (scalar_props d))) as ->.
  { unfold _create_node. simpl. by rewrite Hty, Hid. }
  rewrite (execute_write_commit _ s
             (merge_node "report" v (scalar_props d) (db s)));
    [|by simpl; rewrite decide_False|done].
  rewrite bind_lift_ok, Hrefs.
  rewrite bool_decide_eq_true_2 by done.
  cbn [py_getitem]. rewrite Hrefs, bind_lift_ok, Hiter, bind_lift_raise.
  unfold bind, logger_error, record_txn. simpl.
  by rewrite <- (assoc_L (++)).
Qed.

(** X7. A report with a non-null id whose node upsert commits is written
    whatever sits under [object_refs].  If that value can be iterated, one
    REFERENCES upsert is handed to the store for each value the iteration
    yields: the elements of a list, the keys of a mapping, the characters
    of a string.  If it cannot (null, a number, a boolean), the vertex
    stays written, no edge upsert is made, and the [TypeError] is logged by
    the outer handler together with the object. *)
Theorem report_object_refs_of_any_shape
    (d : list (string * pyval)) (v refs : pyval) (s : session) :
  dict_get "type" d = Some (VStr "report") →
  dict_get "id" d = Some v → v ≠ VNone →
  dict_get "object_refs" d = Some refs →
  default false (head (outages s)) = false →
  (∀ ref_ids, py_iter refs = Ok ref_ids →
     intents (load_stix_object (VDict d) s).2 =
       intents s ++ MergeNode "report" v (scalar_props d)
                      :: (MergeReference "REFERENCES" v <$> ref_ids)) ∧
  (∀ text, refs = VStr text → py_iter refs = Ok (chars text)) ∧
  (∀ e, py_iter refs = Raise e →
     load_stix_object (VDict d) s =
       (Ok tt,
        Session (merge_node "report" v (scalar_props d) (db s))
          (tail (outages s))
          (journal s ++ [Txn [MergeNode "report" v (scalar_props d)] true])
          (errors s ++ [LogExn "Error processing STIX object" e;
                        LogObj "Problematic STIX object" (VDict d)]))) ∧
  (is_scalar refs = true ∨ refs = VNone →
   (∀ text, refs ≠ VStr text) →
   py_iter refs = Raise (TypeError "object is not iterable")).
Proof.
  intros Hty Hid Hv Hrefs Hup. split; [|split; [|split]].
  - intros ref_ids Hiter.
    destruct (load_report d v refs ref_ids s) as (s' & -> & _ & _ & Hi); done.
  - by intros text ->.
  - intros e Hiter. by apply (load_report_not_iterable d v refs).
  - intros Hshape Hnot.
    destruct refs as [| | | |text| |]; try done; try (by destruct (Hnot text));
      by destruct Hshape.
Qed.

Lemma report_object_refs_of_any_shape_witness :
  (dict_get "type" [("id", VStr "r2"); ("type", VStr "report");
                    ("object_refs", VStr "i1")] = Some (VStr "report") ∧
   dict_get "object_refs" [("id", VStr "r3"); ("type", VStr "report");
                           ("object_refs", VNone)] = Some VNone ∧
   VStr "r2" ≠ VNone) ∧
  intents (load_stix_object
             (VDict [("id", VStr "r2"); ("type", VStr "report");
                     ("object_refs", VStr "i1")]) (connect empty_graph)).2 =
    [MergeNode "report" (VStr "r2")
       (scalar_props [("id", VStr "r2"); ("type", VStr "report");
                      ("object_refs", VStr "i1")]);
     MergeReference "REFERENCES" (VStr "r2") (VStr "i");
     MergeReference "REFERENCES" (VStr "r2") (VStr "1")] ∧
  length (nodes (db (load_stix_object
                       (VDict [("id", VStr "r3"); ("type", VStr "report");
                               ("object_refs", VNone)])
                       (connect empty_graph)).2)) = 1.
Proof.
  split; [split; [reflexivity|split; [reflexivity|discriminate]]|]. split.
  - destruct (report_object_refs_of_any_shape
                [("id", VStr "r2"); ("type", VStr "report");
                 ("object_refs", VStr "i1")] (VStr "r2") (VStr "i1")
                (connect empty_graph)
                eq_refl eq_refl ltac:(discriminate) eq_refl eq_refl)
      as (Hiter & _).
    exact (Hiter _ eq_refl).
  - destruct (report_object_refs_of_any_shape
                [("id", VStr "r3"); ("type", VStr "report");
                 ("object_refs", VNone)] (VStr "r3") VNone
                (connect empty_graph)
                eq_refl eq_refl ltac:(discriminate) eq_refl eq_refl)
      as (_ & _ & Hfail & _).
    rewrite (Hfail _ eq_refl). reflexivity.
Defined.

(** X8. A relationship record never adds or changes a vertex, whatever
    else it carries and whatever the store does: the vertices after it are
    the vertices before it. *)
Theorem relationship_record_touches_no_vertex
    (d : list (string * pyval)) (s : session) :
  dict_get "type" d = Some (VStr "relationship") →
  nodes (db (load_stix_object (VDict d) s).2) = nodes (db s).
Proof.
  intros Hty. rewrite load_relationship_head by done.
  unfold try_except at 1.
  destruct (default (VStr "RELATED_TO") (dict_get "relationship_type" d))
    as [| | | |declared| |]; cbn [str_method];
    rewrite ?bind_lift_raise, ?bind_lift_ok; try done.
  destruct (truthy _); [|done].
  unfold try_except, _create_stix_relationship.
  destruct (execute_write_cases
              (MergeRelationship (sanitize_rel_type (upper declared))
                 (default VNone (dict_get "source_ref" d))
                 (default VNone (dict_get "target_ref" d))
                 (default VNone (dict_get "id" d)) (scalar_props d)) s)
    as [(g' & Hrun & _ & ->)|(e & ->)]; [|done].
  simpl in *. destruct (decide _); [done|]. by injection Hrun as <-.
Qed.

Lemma relationship_record_touches_no_vertex_witness :
  dict_get "type" uses_1 = Some (VStr "relationship") ∧
  nodes (db (load_stix_object (VDict uses_1) (connect two_indicators)).2)
    = nodes two_indicators.
Proof.
  split; [reflexivity|].
  apply (relationship_record_touches_no_vertex uses_1). reflexivity.
Defined.

(** ** Nothing is ever taken out of the graph *)

Lemma all_kept_refl {A} (kept : A → A → Prop) (l : list A) :
  (∀ x, kept x x) → all_kept kept l l.
Proof. intros Hrefl i x Hx. eauto. Qed.

Lemma all_kept_trans {A} (kept : A → A → Prop) (l1 l2 l3 : list A) :
  (∀ x y z, kept x y → kept y z → kept x z) →
  all_kept kept l1 l2 → all_kept kept l2 l3 → all_kept kept l1 l3.
Proof.
  intros Htrans H12 H23 i x Hx.
  destruct (H12 i x Hx) as (y & Hy & Hxy).
  destruct (H23 i y Hy) as (z & Hz & Hyz). eauto.
Qed.

Lemma all_kept_prefix {A} (kept : A → A → Prop) (l l' : list A) :
  (∀ x, kept x x) → l `prefix_of` l' → all_kept kept l l'.
Proof.
  intros Hrefl Hpre i x Hx. exists x. split; [|done].
  by eapply prefix_lookup_Some.
Qed.

Lemma all_kept_fmap {A} (kept : A → A → Prop) (f : A → A) (l : list A) :
  (∀ x, kept x (f x)) → all_kept kept l (f <$> l).
Proof.
  intros Hf i x Hx. exists (f x). split; [|done].
  by rewrite list_lookup_fmap, Hx.
Qed.

Lemma node_kept_refl (n : node) : node_kept n n.
Proof. by repeat split. Qed.

Lemma node_kept_trans (n1 n2 n3 : node) :
  node_kept n1 n2 → node_kept n2 n3 → node_kept n1 n3.
Proof.
  intros (L12 & I12 & D12) (L23 & I23 & D23).
  split; [congruence|]. split; [congruence|]. set_solver.
Qed.

Lemma edge_kept_refl (e : edge) : edge_kept e e.
Proof. by split. Qed.

Lemma edge_kept_trans (e1 e2 e3 : edge) :
  edge_kept e1 e2 → edge_kept e2 e3 → edge_kept e1 e3.
Proof. intros (K12 & D12) (K23 & D23). split; [congruence|set_solver]. Qed.

Lemma nothing_lost_refl (g : graph) : nothing_lost g g.
Proof.
  split; apply all_kept_refl; [apply node_kept_refl|apply edge_kept_refl].
Qed.

Lemma nothing_lost_trans (g1 g2 g3 : graph) :
  nothing_lost g1 g2 → nothing_lost g2 g3 → nothing_lost g1 g3.
Proof.
  intros [N12 E12] [N23 E23]. split.
  - eapply all_kept_trans; [apply node_kept_trans|done..].
  - eapply all_kept_trans; [apply edge_kept_trans|done..].
Qed.

Lemma dom_set_props (props p : gmap string pyval) :
  dom p ⊆ dom (set_props props p).
Proof. unfold set_props. rewrite dom_union. set_solver. Qed.

Lemma node_kept_node_set (label : string) (v : pyval)
    (props : gmap string pyval) (n : node) :
  agrees props v → node_kept n (node_set label v props n).
Proof.
  intros Hag. split; [apply node_set_labels|].
  split; [by apply node_set_id|].
  unfold node_set. destruct (node_hit label v n); [|done].
  apply dom_set_props.
Qed.

Lemma edge_key_edge_set (rel_type : string) (k : pyval)
    (props : gmap string pyval) (r : nat * nat) (e : edge) :
  agrees props k → edge_key (edge_set rel_type k props r e) = edge_key e.
Proof.
  intros Hag. unfold edge_key. rewrite edge_set_id by done.
  unfold edge_set. by destruct (keyed_hit rel_type k r e).
Qed.

Lemma edge_kept_edge_set (rel_type : string) (k : pyval)
    (props : gmap string pyval) (r : nat * nat) (e : edge) :
  agrees props k → edge_kept e (edge_set rel_type k props r e).
Proof.
  intros Hag. split; [by apply edge_key_edge_set|].
  unfold edge_set. destruct (keyed_hit rel_type k r e); [|done].
  apply dom_set_props.
Qed.

Lemma merge_relationship_row_kept (rel_type : string) (k : pyval)
    (props : gmap string pyval) (es : list edge) (r : nat * nat) :
  agrees props k →
  all_kept edge_kept es (merge_relationship_row rel_type k props es r).
Proof.
  intros Hag. unfold merge_relationship_row.
  eapply all_kept_trans; [apply edge_kept_trans| |].
  - apply (all_kept_prefix edge_kept es
             (if List.existsb (keyed_hit rel_type k r) es then es
              else es ++ [Edge r.1 r.2 rel_type {["id" := k]}]));
      [apply edge_kept_refl|].
    destruct (List.existsb _ es); [done|by apply prefix_app_r].
  - apply all_kept_fmap. intros e. by apply edge_kept_edge_set.
Qed.

Lemma fold_relationship_kept (rel_type : string) (k : pyval)
    (props : gmap string pyval) (rs : list (nat * nat)) (es : list edge) :
  agrees props k →
  all_kept edge_kept es (foldl (merge_relationship_row rel_type k props) es rs).
Proof.
  intros Hag. revert es. induction rs as [|r rs IH]; intros es; simpl.
  - apply all_kept_refl, edge_kept_refl.
  - eapply all_kept_trans; [apply edge_kept_trans| |apply IH].
    by apply merge_relationship_row_kept.
Qed.

Lemma run_stmt_nothing_lost (q : stmt) (g g' : graph) :
  wf_stmt q → run_stmt q g = Ok g' → nothing_lost g g'.
Proof.
  destruct q as [label v props|rel_type s t|rel_type s t k props]; simpl.
  - intros Hag. destruct (decide (v = VNone)); [done|]. intros [= <-].
    split; [|apply all_kept_refl, edge_kept_refl]. simpl.
    eapply all_kept_trans; [apply node_kept_trans| |].
    + apply (all_kept_prefix node_kept (nodes g) (merged_over label v (nodes g)));
        [apply node_kept_refl|].
      unfold merged_over. destruct (List.existsb _ (nodes g)); [done|].
      by apply prefix_app_r.
    + apply all_kept_fmap. intros n0. by apply node_kept_node_set.
  - intros _ [= <-]. split; [apply all_kept_refl, node_kept_refl|].
    apply all_kept_prefix; [apply edge_kept_refl|apply merge_reference_prefix].
  - intros Hag. destruct (decide _); [done|]. intros [= <-].
    split; [apply all_kept_refl, node_kept_refl|].
    by apply fold_relationship_kept.
Qed.

(** X9. Processing records never takes anything out of the graph, whatever
    the records are and whichever transactions fail: every vertex stays at
    its place with its labels and its id, every edge stays at its place with
    its endpoints, its type and its id, and no property of either is
    removed. *)
Theorem processing_loses_nothing (objs : list pyval) (s : session) :
  nothing_lost (db s) (db (process_objects objs s).2).
Proof.
  apply (steps_process_objects (λ s s', nothing_lost (db s) (db s'))).
  - intros s0. apply nothing_lost_refl.
  - intros s1 s2 s3. apply nothing_lost_trans.
  - intros l s0. apply nothing_lost_refl.
  - intros work s0 Hwf. unfold execute_write.
    destruct work as [q|e]; [|apply nothing_lost_refl].
    destruct (run_stmt q (db s0)) as [g'|e] eqn:Hrun;
      [|apply nothing_lost_refl].
    destruct (default false (head (outages s0))); [apply nothing_lost_refl|].
    simpl. eapply run_stmt_nothing_lost; [by apply Hwf|done].
Qed.

(** ** No edge twice *)

Lemma keys_unique_snoc (es : list edge) (x : edge) :
  keys_unique es → (∀ e, e ∈ es → edge_key e ≠ edge_key x) →
  keys_unique (es ++ [x]).
Proof.
  intros Huniq Hfresh i j e e' Hi Hj Hkey.
  apply lookup_app_Some in Hi as [Hi|[Hil Hi]];
    apply lookup_app_Some in Hj as [Hj|[Hjl Hj]].
  - eauto.
  - apply list_lookup_singleton_Some in Hj as [_ <-].
    exfalso. eapply Hfresh; [|done]. by eapply list_elem_of_lookup_2.
  - apply list_lookup_singleton_Some in Hi as [_ <-].
    exfalso. eapply Hfresh; [|done]. by eapply list_elem_of_lookup_2.
  - apply list_lookup_singleton_Some in Hi as [? _].
    apply list_lookup_singleton_Some in Hj as [? _]. lia.
Qed.

Lemma keys_unique_fmap (f : edge → edge) (es : list edge) :
  (∀ e, edge_key (f e) = edge_key e) →
  keys_unique es → keys_unique (f <$> es).
Proof.
  intros Hf Huniq i j e e'. rewrite !list_lookup_fmap.
  intros (e0 & He0 & ->)%fmap_Some (e1 & He1 & ->)%fmap_Some.
  rewrite !Hf. eauto.
Qed.

Lemma merge_reference_row_unique (rel_type : string) (es : list edge)
    (r : nat * nat) :
  keys_unique es → keys_unique (merge_reference_row rel_type es r).
Proof.
  intros Huniq. unfold merge_reference_row.
  destruct (List.existsb (edge_hit rel_type r) es) eqn:Hex; [done|].
  apply keys_unique_snoc; [done|]. intros e He Hkey.
  assert (edge_hit rel_type r e = true) as Hhit.
  { apply bool_decide_eq_true. unfold edge_key in Hkey. simpl in Hkey.
    by injection Hkey as -> -> -> _. }
  by rewrite (existsb_false_elem_of _ es e Hex He) in Hhit.
Qed.

Lemma merge_relationship_row_unique (rel_type : string) (k : pyval)
    (props : gmap string pyval) (es : list edge) (r : nat * nat) :
  k ≠ VNone → agrees props k →
  keys_unique es → keys_unique (merge_relationship_row rel_type k props es r).
Proof.
  intros Hk Hag Huniq. unfold merge_relationship_row.
  apply keys_unique_fmap; [intros e; by apply edge_key_edge_set|].
  destruct (List.existsb (keyed_hit rel_type k r) es) eqn:Hex; [done|].
  apply keys_unique_snoc; [done|]. intros e He Hkey.
  assert (keyed_hit rel_type k r e = true) as Hhit.
  { unfold edge_key in Hkey. simpl in Hkey.
    rewrite lookup_singleton_eq in Hkey. injection Hkey as Hs Ht Hty Hid.
    apply andb_true_iff. split; [by apply bool_decide_eq_true|].
    by apply has_id_true. }
  by rewrite (existsb_false_elem_of _ es e Hex He) in Hhit.
Qed.

Lemma run_stmt_edges_unique (q : stmt) (g g' : graph) :
  wf_stmt q → run_stmt q g = Ok g' → edge_key_unique g → edge_key_unique g'.
Proof.
  unfold edge_key_unique.
  destruct q as [label v props|rel_type s t|rel_type s t k props]; simpl.
  - intros _. destruct (decide (v = VNone)); [done|]. by intros [= <-].
  - intros _ [= <-]. simpl. generalize (rows s t (nodes g)). intros rs.
    generalize (edges g). induction rs as [|r rs IH]; intros es Hes; [done|].
    simpl. by apply IH, merge_reference_row_unique.
  - intros Hag. destruct (decide _) as [|Hok]; [done|]. intros [= <-]. simpl.
    destruct (decide (k = VNone)) as [->|Hk].
    + assert (rows s t (nodes g) = []) as ->; [|done].
      destruct (rows s t (nodes g)); [done|]. exfalso. by apply Hok.
    + generalize (rows s t (nodes g)). intros rs.
      generalize (edges g). induction rs as [|r rs IH]; intros es Hes; [done|].
      simpl. by apply IH, merge_relationship_row_unique.
Qed.

(** X10. No edge is ever written twice: if no two edges of the graph share
    endpoints, type and relationship id, that is still so after any records
    have been processed, whichever transactions fail.  A reference edge
    carries no id, so between two vertices there is at most one of a
    type; a relationship edge is told from the others by its id as well.
    It holds of every graph built from the empty one. *)
Theorem processing_writes_no_edge_twice :
  (∀ objs s,
     edge_key_unique (db s) →
     edge_key_unique (db (process_objects objs s).2)) ∧
  (∀ objs down,
     edge_key_unique
       (db (process_objects objs (Session empty_graph down [] [])).2)).
Proof.
  assert (∀ objs s, edge_key_unique (db s) →
                    edge_key_unique (db (process_objects objs s).2)) as H.
  { intros objs s. apply (keeps_process_objects edge_key_unique objs).
    apply run_stmt_edges_unique. }
  split; [exact H|]. intros objs down. apply H.
  intros i j e e' Hi. simpl in Hi. by rewrite lookup_nil in Hi.
Qed.

Lemma processing_writes_no_edge_twice_witness :
  edge_key_unique (db flaky_session) ∧
  edge_key_unique
    (db (process_objects [report_r1; VDict uses_1; report_r1; VDict uses_1]
           flaky_session).2).
Proof.
  assert (edge_key_unique (db flaky_session)) as H0.
  { assert (edges (db flaky_session) = []) as Hnil by (vm_compute; reflexivity).
    unfold edge_key_unique. rewrite Hnil. intros i j e e' Hi.
    by rewrite lookup_nil in Hi. }
  split; [exact H0|].
  destruct processing_writes_no_edge_twice as [Hkeep _]. by apply Hkeep.
Defined.

(** ** The fetcher when the feed goes wrong *)

Lemma fetch_loop_runs_out (py_repr : pyval → string) (ps : list page) :
  Forall (λ p, continues p = true) ps →
  ∀ url acc asked,
    fetch_loop py_repr (page_body <$> ps) url acc asked =
      FetchRun (FetchFailed ConnectionError)
        (asked ++ url :: (next_url <$> ps)) [].
Proof.
  intros Hps. induction Hps as [|p ps Hp _ IH]; intros url acc asked; [done|].
  simpl. rewrite fetch_page_body, Hp, IH. by rewrite <- (assoc_L (++)).
Qed.

Lemma fetch_loop_bad_page (py_repr : pyval → string) (ps : list page)
    (response : pyval) (later : list pyval) (e : exn) :
  Forall (λ p, continues p = true) ps →
  (∀ acc, fetch_page py_repr response acc = Raise e) →
  ∀ url acc asked,
    fetch_loop py_repr ((page_body <$> ps) ++ response :: later) url acc asked =
      FetchRun (FetchFailed e) (asked ++ url :: (next_url <$> ps)) later.
Proof.
  intros Hps Hbad. induction Hps as [|p ps Hp _ IH]; intros url acc asked.
  - simpl. by rewrite Hbad.
  - simpl. rewrite fetch_page_body, Hp, IH. by rewrite <- (assoc_L (++)).
Qed.

Lemma fetch_page_not_an_object (py_repr : pyval → string) (response : pyval) :
  (∀ d, response ≠ VDict d) →
  ∃ e, ∀ acc, fetch_page py_repr response acc = Raise e.
Proof.
  intros Hnot. unfold fetch_page.
  destruct response as [| | | |text|l|d]; simpl; eauto;
    try (by destruct (Hnot d)).
  - destruct (bool_decide _); simpl; eauto.
  - destruct (bool_decide _); simpl; eauto.
Qed.

(** X11. When the feed stops answering in the middle of a pagination (every
    page so far said there was more), the fetcher fails with the transport
    error after one request per page served and one more; it returns no
    batch, so the records of the pages already read are given up. *)
Theorem fetch_gives_up_when_feed_runs_out (py_repr : pyval → string)
    (ps : list page) :
  Forall (λ p, continues p = true) ps →
  fetch_stix_objects py_repr (page_body <$> ps) =
    FetchRun (FetchFailed ConnectionError)
      (TAXII_BASE_URL :: (next_url <$> ps)) [].
Proof. intros Hps. unfold fetch_stix_objects. by rewrite fetch_loop_runs_out. Qed.

Lemma fetch_gives_up_when_feed_runs_out_witness :
  Forall (λ p, continues p = true) first_pages ∧
  outcome (fetch_stix_objects (λ _, "") (page_body <$> first_pages))
    = FetchFailed ConnectionError ∧
  length (requested (fetch_stix_objects (λ _, "") (page_body <$> first_pages)))
    = 3.
Proof.
  assert (Forall (λ p, continues p = true) first_pages) as H
    by (repeat constructor).
  split; [exact H|].
  rewrite (fetch_gives_up_when_feed_runs_out (λ _, "") first_pages H).
  split; reflexivity.
Defined.

(** X12. A response that is not a JSON object (a list, a string, a number,
    a boolean, null) makes the fetch fail at that request, on the first
    page as after any number of pages that said there was more; no batch is
    returned, and the answers the feed has not given yet are left unread. *)
Theorem fetch_fails_on_response_not_an_object (py_repr : pyval → string)
    (ps : list page) (response : pyval) (later : list pyval) :
  Forall (λ p, continues p = true) ps →
  (∀ d, response ≠ VDict d) →
  ∃ e,
    fetch_stix_objects py_repr ((page_body <$> ps) ++ response :: later) =
      FetchRun (FetchFailed e) (TAXII_BASE_URL :: (next_url <$> ps)) later.
Proof.
  intros Hps Hnot.
  destruct (fetch_page_not_an_object py_repr response Hnot) as [e He].
  exists e. unfold fetch_stix_objects. by rewrite (fetch_loop_bad_page _ _ _ _ e).
Qed.

Lemma fetch_fails_on_response_not_an_object_witness :
  (Forall (λ p, continues p = true) first_pages ∧
   ∀ d, VList [VStr "o9"] ≠ VDict d) ∧
  outcome (fetch_stix_objects (λ _, "")
             ((page_body <$> first_pages) ++ [VList [VStr "o9"]]))
    = FetchFailed (AttributeError "get").
Proof.
  assert (Forall (λ p, continues p = true) first_pages) as H
    by (repeat constructor).
  assert (∀ d, VList [VStr "o9"] ≠ VDict d) as Hnot by discriminate.
  split; [by split|].
  destruct (fetch_fails_on_response_not_an_object (λ _, "") first_pages
              (VList [VStr "o9"]) [] H Hnot) as [e He].
  rewrite He. vm_compute in He. by injection He as <-.
Defined.

(** X13. A page that is a JSON object without [more], or without [next],
    ends the fetch at once, whatever the other of the two says: one
    request, and the batch is the page's record list, or empty when the
    page has no [objects] either. *)
Theorem fetch_stops_without_more_or_next (py_repr : pyval → string)
    (d : list (string * pyval)) (later : list pyval) :
  dict_get "more" d = None ∨ dict_get "next" d = None →
  (dict_get "objects" d = None →
   fetch_stix_objects py_repr (VDict d :: later) =
     FetchRun (Fetched (VDict [("objects", VList [])])) [TAXII_BASE_URL] later) ∧
  (∀ records, dict_get "objects" d = Some (VList records) →
   fetch_stix_objects py_repr (VDict d :: later) =
     FetchRun (Fetched (VDict [("objects", VList records)]))
       [TAXII_BASE_URL] later).
Proof.
  intros Hstop.
  assert (truthy (py_and (default (VBool false) (dict_get "more" d))
                         (default VNone (dict_get "next" d))) = false) as Hno.
  { rewrite truthy_py_and. destruct Hstop as [-> | ->]; [done|].
    apply andb_false_r. }
  split.
  - intros Hobjs. unfold fetch_stix_objects. simpl. unfold fetch_page. simpl.
    rewrite Hobjs. simpl. by rewrite Hno.
  - intros records Hobjs. unfold fetch_stix_objects. simpl.
    unfold fetch_page. simpl. rewrite Hobjs. simpl. by rewrite Hno.
Qed.

Lemma fetch_stops_without_more_or_next_witness :
  (dict_get "next" [("objects", VList [VStr "o1"]); ("more", VBool true)] = None ∧
   dict_get "objects" [("objects", VList [VStr "o1"]); ("more", VBool true)]
     = Some (VList [VStr "o1"])) ∧
  fetch_stix_objects (λ _, "")
    [VDict [("objects", VList [VStr "o1"]); ("more", VBool true)]; VNone] =
    FetchRun (Fetched (VDict [("objects", VList [VStr "o1"])]))
      [TAXII_BASE_URL] [VNone].
Proof.
  split; [by split|].
  destruct (fetch_stops_without_more_or_next (λ _, "")
              [("objects", VList [VStr "o1"]); ("more", VBool true)] [VNone]
              (or_intror eq_refl)) as [_ H].
  exact (H [VStr "o1"] eq_refl).
Defined.

(** ** The loop of main *)

Lemma main_iteration_naps (py_repr : pyval → string) (w : daemon) :
  naps (main_iteration py_repr w) = naps w ++ [POLL_INTERVAL_SECONDS].
Proof.
  unfold main_iteration.
  destruct (outcome (fetch_stix_objects py_repr (web w))) as [body|e]; [|done].
  by destruct ((let! listed := lift (py_getitem body "objects") in
                let! objs := lift (py_iter listed) in
                process_objects objs) (store w)) as [[[]|e] s1].
Qed.

(** X14. The loop sleeps the polling interval once in every turn, whether
    the turn went through or failed, and never longer after a failure:
    after any number of turns the naps taken are that many intervals of
    [POLL_INTERVAL_SECONDS]. *)
Theorem main_loop_sleeps_once_per_turn (py_repr : pyval → string)
    (turns : nat) (w : daemon) :
  naps (main_loop py_repr turns w) =
    naps w ++ replicate turns POLL_INTERVAL_SECONDS.
Proof.
  unfold main_loop. induction turns as [|n IH]; simpl.
  - by rewrite app_nil_r.
  - rewrite main_iteration_naps, IH, <- (assoc_L (++)). f_equal.
    by rewrite <- replicate_cons_app.
Qed.

Lemma process_objects_ok (objs : list pyval) (s : session) :
  (process_objects objs s).1 = Ok tt.
Proof.
  revert s. induction objs as [|obj objs IH]; intros s; [done|].
  rewrite process_objects_cons. apply IH.
Qed.

Lemma main_iteration_fetched (py_repr : pyval → string) (w : daemon)
    (objs : list pyval) :
  outcome (fetch_stix_objects py_repr (web w))
    = Fetched (VDict [("objects", VList objs)]) →
  main_iteration py_repr w =
    Daemon (process_objects objs (store w)).2
      (unread (fetch_stix_objects py_repr (web w)))
      (naps w ++ [POLL_INTERVAL_SECONDS]).
Proof.
  intros Hout. unfold main_iteration. rewrite Hout. simpl.
  rewrite bind_lift_ok. cbn [py_iter]. rewrite bind_lift_ok.
  pose proof (process_objects_ok objs (store w)) as Hok.
  by destruct (process_objects objs (store w)) as [[[]|e] s1].
Qed.

(** X15. A turn of the loop on a feed that serves well-formed pages up to
    one that ends the pagination processes the records of all those pages,
    in page order, as one batch, and leaves the answers the feed has not
    given yet for the next turn.  With the store in reach the graph after
    the turn is the graph before it with that batch delivered. *)
Theorem main_turn_processes_the_whole_batch (py_repr : pyval → string)
    (ps : list page) (last : page) (later : list pyval) (w : daemon) :
  Forall (λ p, continues p = true) ps →
  continues last = false →
  web w = (page_body <$> ps ++ [last]) ++ later →
  main_iteration py_repr w =
    Daemon (process_objects (concat (p_objects <$> ps ++ [last])) (store w)).2
      later (naps w ++ [POLL_INTERVAL_SECONDS]) ∧
  (outages (store w) = [] →
   db (store (main_iteration py_repr w)) =
     deliver (concat (p_objects <$> ps ++ [last])) (db (store w))).
Proof.
  intros Hps Hlast Hweb.
  assert (fetch_stix_objects py_repr (web w) =
          FetchRun
            (Fetched (VDict [("objects",
                              VList (concat (p_objects <$> ps ++ [last])))]))
            (TAXII_BASE_URL :: (next_url <$> ps)) later) as Hfetch.
  { rewrite Hweb. unfold fetch_stix_objects. by rewrite fetch_loop_pages. }
  assert (main_iteration py_repr w =
          Daemon (process_objects (concat (p_objects <$> ps ++ [last]))
                    (store w)).2
            later (naps w ++ [POLL_INTERVAL_SECONDS])) as Hturn.
  { rewrite (main_iteration_fetched py_repr w
               (concat (p_objects <$> ps ++ [last])));
      by rewrite Hfetch. }
  split; [exact Hturn|]. intros Hup. rewrite Hturn. simpl.
  destruct (process_in_reach (concat (p_objects <$> ps ++ [last])) (store w) Hup)
    as (s' & -> & _ & Hdb).
  by rewrite deliver_effect.
Qed.

Lemma main_turn_processes_the_whole_batch_witness :
  (Forall (λ p, continues p = true) [opening_page] ∧
   continues closing_page = false ∧
   web served_daemon = (page_body <$> [opening_page] ++ [closing_page]) ++ []) ∧
  db (store (main_iteration (λ _, "") served_daemon)) =
    deliver [indicator_i1; indicator_i2; report_r1] empty_graph.
Proof.
  assert (Forall (λ p, continues p = true) [opening_page]) as H1
    by (repeat constructor).
  split; [by repeat split|].
  destruct (main_turn_processes_the_whole_batch (λ _, "")
              [opening_page] closing_page [] served_daemon
              H1 eq_refl eq_refl) as [_ Hdb].
  exact (Hdb eq_refl).
Defined.

(** ** Upserts done again *)

Lemma set_props_empty (p : gmap string pyval) : set_props ∅ p = p.
Proof. unfold set_props. by rewrite (left_id_L ∅ (∪)). Qed.

Lemma set_props_assoc (q a p : gmap string pyval) :
  set_props q (set_props a p) = set_props (set_props q a) p.
Proof. unfold set_props. by rewrite (assoc_L (∪)). Qed.

Lemma set_props_settled (q a p : gmap string pyval) :
  set_props a p = p →
  set_props (set_props q a) (set_props q p) = set_props q p.
Proof.
  intros Hap. apply map_eq. intros k. rewrite !set_props_lookup.
  destruct (q !! k) as [w|]; [done|].
  by rewrite <- (set_props_lookup a p), Hap.
Qed.

Section upsert_again.

Context {X : Type}.
Variable getp : X → gmap string pyval.
Variable setp : X → gmap string pyval → X.
Hypothesis getp_setp : ∀ x p, getp (setp x p) = p.
Hypothesis setp_getp : ∀ x, setp x (getp x) = x.
Hypothesis setp_setp : ∀ x p q, setp (setp x p) q = setp x q.

Lemma absorbed_snoc (os : list (upsert X)) (o : upsert X) (x : X) :
  absorbed (os ++ [o]) x =
    if u_hit o x then set_props (u_payload o) (absorbed os x)
    else absorbed os x.
Proof. unfold absorbed. by rewrite foldl_snoc. Qed.

Lemma absorbed_ext (os : list (upsert X)) (x y : X) :
  (∀ o, o ∈ os → u_hit o x = u_hit o y) → absorbed os x = absorbed os y.
Proof.
  induction os as [|o os IH] using rev_ind; intros Hxy; [done|].
  rewrite !absorbed_snoc, Hxy, IH; [done| |].
  - intros o' Ho'. apply Hxy, elem_of_app. by left.
  - apply elem_of_app. right. by left.
Qed.

Lemma absorbed_nothing (os : list (upsert X)) (x : X) :
  (∀ o, o ∈ os → u_hit o x = true → u_payload o = ∅) → absorbed os x = ∅.
Proof.
  induction os as [|o os IH] using rev_ind; intros Hnone; [done|].
  rewrite absorbed_snoc, IH.
  - destruct (u_hit o x) eqn:Hhit; [|done].
    rewrite (Hnone o); [apply set_props_empty| |done].
    apply elem_of_app. right. by left.
  - intros o' Ho'. apply Hnone, elem_of_app. by left.
Qed.

Lemma coherent_prefix (os : list (upsert X)) (o : upsert X) :
  coherent getp setp (os ++ [o]) → coherent getp setp os.
Proof.
  intros (G1 & G2 & G3). split; [|split].
  - intros o1 o2 x H1 H2. apply G1; apply elem_of_app; by left.
  - intros o1 H1. apply G2, elem_of_app. by left.
  - intros o1 o2 H1 H2. apply G3; apply elem_of_app; by left.
Qed.

Lemma existsb_u_set (os : list (upsert X)) (o o' : upsert X) (l : list X) :
  coherent getp setp os → o ∈ os → o' ∈ os →
  List.existsb (u_hit o) (u_set getp setp o' <$> l) = List.existsb (u_hit o) l.
Proof.
  intros (G1 & _) Ho Ho'. induction l as [|x l IH]; [done|].
  rewrite fmap_cons. cbn [List.existsb]. by rewrite G1, IH.
Qed.

Lemma u_step_hit (os : list (upsert X)) (o : upsert X) (l : list X) :
  coherent getp setp os → o ∈ os →
  List.existsb (u_hit o) (u_step getp setp l o) = true.
Proof.
  intros Hco Ho. unfold u_step. rewrite (existsb_u_set os) by done.
  destruct (List.existsb (u_hit o) l) eqn:Hex; [done|].
  apply existsb_elem_of. exists (u_fresh o). split.
  - apply elem_of_app. right. by left.
  - by apply Hco.
Qed.

Lemma u_step_saturated (os : list (upsert X)) (o : upsert X) (l : list X) :
  coherent getp setp (os ++ [o]) →
  saturated getp os l → saturated getp (os ++ [o]) (u_step getp setp l o).
Proof.
  intros Hco [Hhits Hsat].
  assert (o ∈ os ++ [o]) as Ho by (apply elem_of_app; right; by left).
  assert (∀ o', o' ∈ os → o' ∈ os ++ [o]) as Hin
    by (intros o' ?; apply elem_of_app; by left).
  pose proof Hco as (G1 & G2 & G3).
  split.
  - intros o' [Ho'|Ho']%elem_of_app.
    + unfold u_step. rewrite (existsb_u_set (os ++ [o])) by auto.
      destruct (List.existsb (u_hit o) l); [by apply Hhits|].
      eapply existsb_prefix; [by apply prefix_app_r|by apply Hhits].
    + apply list_elem_of_singleton in Ho' as ->. by apply (u_step_hit (os ++ [o])).
  - intros x' (x0 & -> & Hx0)%list_elem_of_fmap.
    assert (absorbed os (u_set getp setp o x0) = absorbed os x0) as Habs.
    { apply absorbed_ext. intros o' Ho'. apply G1; auto. }
    rewrite absorbed_snoc, Habs, G1 by done.
    assert (x0 ∈ l ∨ (List.existsb (u_hit o) l = false ∧ x0 = u_fresh o))
      as [Hold|[Hno ->]].
    { destruct (List.existsb (u_hit o) l); [by left|].
      apply elem_of_app in Hx0 as [?|Hx0]; [by left|right].
      by apply list_elem_of_singleton in Hx0. }
    + unfold u_set. destruct (u_hit o x0); [|by apply Hsat].
      rewrite getp_setp. by apply set_props_settled, Hsat.
    + unfold u_set. rewrite G2 by done. rewrite getp_setp.
      apply set_props_settled.
      rewrite absorbed_nothing; [apply set_props_empty|].
      intros o' Ho' Hhit.
      destruct (G3 o o' Ho (Hin o' Ho') Hhit) as [Hempty|Hsame]; [done|].
      exfalso. apply Hhits in Ho'.
      apply existsb_elem_of in Ho' as (x & Hx & Hx').
      assert (List.existsb (u_hit o) l = true)
        by (apply existsb_elem_of; eauto).
      congruence.
Qed.

Lemma u_run_saturated (os : list (upsert X)) (l : list X) :
  coherent getp setp os → saturated getp os (u_run getp setp os l).
Proof.
  induction os as [|o os IH] using rev_ind; intros Hco.
  - split; [by intros o ?%elem_of_nil|]. intros x _. apply set_props_empty.
  - unfold u_run. rewrite foldl_snoc. apply u_step_saturated; [done|].
    apply IH. by eapply coherent_prefix.
Qed.

Lemma u_run_hits (all os : list (upsert X)) (l : list X) :
  coherent getp setp all → os ⊆ all →
  (∀ o, o ∈ os → List.existsb (u_hit o) l = true) →
  u_run getp setp os l
    = (λ x, setp x (set_props (absorbed os x) (getp x))) <$> l ∧
  ∀ o x, o ∈ all →
    u_hit o (setp x (set_props (absorbed os x) (getp x))) = u_hit o x.
Proof.
  intros Hco. induction os as [|o os IH] using rev_ind; intros Hsub Hhits.
  - split.
    + simpl. rewrite <- (list_fmap_id l) at 1. apply list_fmap_ext.
      intros i x _. by rewrite set_props_empty, setp_getp.
    + intros o x _. by rewrite set_props_empty, setp_getp.
  - destruct IH as [Hrun Hstable].
    { intros o' Ho'. apply Hsub, elem_of_app. by left. }
    { intros o' Ho'. apply Hhits, elem_of_app. by left. }
    assert (o ∈ all) as Ho by (apply Hsub, elem_of_app; right; by left).
    assert (∀ x, u_set getp setp o
                   (setp x (set_props (absorbed os x) (getp x)))
                 = setp x (set_props (absorbed (os ++ [o]) x) (getp x)))
      as Hset.
    { intros x. unfold u_set. rewrite Hstable, absorbed_snoc by done.
      destruct (u_hit o x); [|done].
      by rewrite setp_setp, getp_setp, set_props_assoc. }
    split.
    + unfold u_run in *. rewrite foldl_snoc, Hrun. unfold u_step.
      assert (List.existsb (u_hit o)
                ((λ x, setp x (set_props (absorbed os x) (getp x))) <$> l)
              = true) as ->.
      { specialize (Hhits o). rewrite <- Hhits
          by (apply elem_of_app; right; by left).
        clear -Hstable Ho. induction l as [|x l IHl]; [done|].
        rewrite fmap_cons. cbn [List.existsb]. by rewrite Hstable, IHl. }
      rewrite <- list_fmap_compose. apply list_fmap_ext. intros i x _.
      simpl. apply Hset.
    + intros o' x Ho'. rewrite <- Hset.
      destruct Hco as (G1 & _). by rewrite G1, Hstable.
Qed.

Lemma u_run_fix (os : list (upsert X)) (l : list X) :
  coherent getp setp os → saturated getp os l → u_run getp setp os l = l.
Proof.
  intros Hco [Hhits Hsat].
  destruct (u_run_hits os os l Hco) as [-> _]; [done|done|].
  rewrite <- (list_fmap_id l) at 2. apply list_fmap_ext. intros i x Hx.
  rewrite Hsat by (by eapply list_elem_of_lookup_2). apply setp_getp.
Qed.

Lemma u_run_idempotent (os : list (upsert X)) (l : list X) :
  coherent getp setp os →
  u_run getp setp os (u_run getp setp os l) = u_run getp setp os l.
Proof. intros Hco. by apply u_run_fix, u_run_saturated. Qed.

End upsert_again.

(** ** A batch delivered again and again *)

Lemma node_laws :
  (∀ (x : node) p, n_props (node_setp x p) = p) ∧
  (∀ x : node, node_setp x (n_props x) = x) ∧
  (∀ (x : node) p q, node_setp (node_setp x p) q = node_setp x q).
Proof. split; [done|]. split; [by intros []|done]. Qed.

Lemma edge_laws :
  (∀ (x : edge) p, e_props (edge_setp x p) = p) ∧
  (∀ x : edge, edge_setp x (e_props x) = x) ∧
  (∀ (x : edge) p q, edge_setp (edge_setp x p) q = edge_setp x q).
Proof. split; [done|]. split; [by intros []|done]. Qed.

Lemma u_run_app {X} (getp : X → gmap string pyval) setp
    (os os' : list (upsert X)) (l : list X) :
  u_run getp setp (os ++ os') l = u_run getp setp os' (u_run getp setp os l).
Proof. unfold u_run. by rewrite foldl_app. Qed.

Lemma elem_of_node_ops (qs : list stmt) (o : upsert node) :
  Forall wf_stmt qs → o ∈ qs ≫= node_ops →
  ∃ label v props, o = node_upsert label v props ∧ v ≠ VNone ∧ agrees props v.
Proof.
  intros Hwf (q & Ho & Hq)%list_elem_of_bind.
  rewrite Forall_forall in Hwf. apply Hwf in Hq.
  destruct q as [label v props| |]; simpl in Ho; try by apply elem_of_nil in Ho.
  destruct (decide (v = VNone)); [by apply elem_of_nil in Ho|].
  apply list_elem_of_singleton in Ho as ->. by exists label, v, props.
Qed.

Lemma node_ops_coherent (qs : list stmt) :
  Forall wf_stmt qs → coherent n_props node_setp (qs ≫= node_ops).
Proof.
  intros Hwf. split; [|split].
  - intros o o' x (l & v & p & -> & Hv & Hp)%elem_of_node_ops
                  (l' & v' & p' & -> & Hv' & Hp')%elem_of_node_ops; [|done..].
    by apply (node_hit_node_set l' l v' v p' x).
  - intros o (l & v & p & -> & Hv & Hp)%elem_of_node_ops; [|done].
    by apply node_hit_new.
  - intros o o' (l & v & p & -> & Hv & Hp)%elem_of_node_ops
                (l' & v' & p' & -> & Hv' & Hp')%elem_of_node_ops; [|done..].
    simpl. intros [-> ->]%node_hit_new_inv. by right.
Qed.

Lemma effect_cons (q : stmt) (qs : list stmt) (g : graph) :
  effect (q :: qs) g
    = effect qs (match run_stmt q g with Ok g' => g' | Raise _ => g end).
Proof. done. Qed.

Lemma effect_nodes (qs : list stmt) (g : graph) :
  nodes (effect qs g) = u_run n_props node_setp (qs ≫= node_ops) (nodes g).
Proof.
  revert g. induction qs as [|q qs IH]; intros g; [done|].
  rewrite effect_cons, IH, bind_cons, u_run_app. f_equal.
  destruct q as [label v props|rel_type s t|rel_type s t k props]; simpl.
  - by destruct (decide (v = VNone)).
  - done.
  - by destruct (decide (k = VNone ∧ _)).
Qed.

Lemma matching_ids (v : pyval) (ns ns' : list node) :
  ids ns = ids ns' → matching v ns = matching v ns'.
Proof.
  intros Hids. unfold matching.
  assert (length ns = length ns') as <-.
  { apply (f_equal length) in Hids. unfold ids in Hids.
    by rewrite !length_fmap in Hids. }
  apply list_filter_iff. intros i.
  assert (ids ns !! i = ids ns' !! i) as Hi by by rewrite Hids.
  unfold ids in Hi. rewrite !list_lookup_fmap in Hi.
  destruct (ns !! i) as [n|], (ns' !! i) as [n'|]; simpl in *; try done.
  unfold has_id. injection Hi as Hi. by rewrite Hi.
Qed.

Lemma rows_ids (s t : pyval) (ns ns' : list node) :
  ids ns = ids ns' → rows s t ns = rows s t ns'.
Proof. intros Hids. unfold rows. by rewrite !(matching_ids _ ns ns'). Qed.

Lemma ids_node_set (label : string) (v : pyval) (props : gmap string pyval)
    (ns : list node) :
  agrees props v → ids (node_set label v props <$> ns) = ids ns.
Proof.
  intros Hp. unfold ids. rewrite <- list_fmap_compose.
  apply list_fmap_ext. intros i n _. simpl. by apply node_set_id.
Qed.

Lemma existsb_node_set_any (label label' : string) (v w : pyval)
    (props : gmap string pyval) (ns : list node) :
  agrees props v →
  List.existsb (node_hit label' w) (node_set label v props <$> ns)
    = List.existsb (node_hit label' w) ns.
Proof.
  intros Hp. induction ns as [|n ns IH]; [done|].
  rewrite fmap_cons. cbn [List.existsb]. by rewrite node_hit_node_set, IH.
Qed.

Lemma u_step_reference (rel_type : string) (es : list edge) (r : nat * nat) :
  u_step e_props edge_setp es (ref_upsert rel_type r)
    = merge_reference_row rel_type es r.
Proof.
  unfold u_step, merge_reference_row. simpl.
  rewrite <- (list_fmap_id (if List.existsb _ es then _ else _)) at 2.
  apply list_fmap_ext. intros i e _. unfold u_set. simpl.
  destruct (edge_hit rel_type r e); [|done].
  rewrite set_props_empty. by destruct e.
Qed.

Lemma u_step_relationship (rel_type : string) (k : pyval)
    (props : gmap string pyval) (es : list edge) (r : nat * nat) :
  u_step e_props edge_setp es (rel_upsert rel_type k props r)
    = merge_relationship_row rel_type k props es r.
Proof. done. Qed.

Lemma u_run_fmap {X A} (getp : X → gmap string pyval) setp
    (f : A → upsert X) (step : list X → A → list X) (rs : list A)
    (l : list X) :
  (∀ l r, u_step getp setp l (f r) = step l r) →
  u_run getp setp (f <$> rs) l = foldl step l rs.
Proof.
  intros Hstep. revert l. induction rs as [|r rs IH]; intros l; [done|].
  rewrite fmap_cons. simpl. rewrite <- IH. unfold u_run. simpl.
  by rewrite Hstep.
Qed.

Lemma effect_edges (sk : list node) (qs : list stmt) (g : graph) :
  Forall wf_stmt qs →
  (∀ o, o ∈ qs ≫= node_ops → List.existsb (u_hit o) (nodes g) = true) →
  ids (nodes g) = ids sk →
  edges (effect qs g)
    = u_run e_props edge_setp (qs ≫= edge_ops sk) (edges g).
Proof.
  revert g. induction qs as [|q qs IH]; intros g Hwf Hhits Hids; [done|].
  apply Forall_cons in Hwf as [Hq Hwf].
  rewrite effect_cons, bind_cons, u_run_app.
  destruct q as [label v props|rel_type s t|rel_type s t k props]; simpl.
  - destruct (decide (v = VNone)) as [->|Hv].
    + apply IH; [done| |done].
      intros o Ho. apply Hhits. rewrite bind_cons. apply elem_of_app. by right.
    + assert (List.existsb (node_hit label v) (nodes g) = true) as Hhit.
      { apply (Hhits (node_upsert label v props)). rewrite bind_cons.
        apply elem_of_app. left. simpl. rewrite decide_False by done.
        by left. }
      rewrite IH; [done|done| |].
      * intros o Ho. simpl. unfold merged_over. rewrite Hhit.
        destruct (elem_of_node_ops qs o Hwf Ho) as (l' & v' & p' & -> & _).
        simpl. rewrite existsb_node_set_any by done.
        apply (Hhits (node_upsert l' v' p')). rewrite bind_cons.
        apply elem_of_app. by right.
      * simpl. unfold merged_over. rewrite Hhit.
        by rewrite ids_node_set.
  - rewrite IH; [|done| |done].
    + simpl. f_equal. rewrite (rows_ids s t (nodes g) sk) by done.
      symmetry. apply u_run_fmap. apply u_step_reference.
    + intros o Ho. apply Hhits. rewrite bind_cons. apply elem_of_app. by right.
  - assert (∀ o, o ∈ qs ≫= node_ops →
                 List.existsb (u_hit o) (nodes g) = true) as Hhits'.
    { intros o Ho. apply Hhits. rewrite bind_cons. apply elem_of_app.
      by right. }
    rewrite (rows_ids s t (nodes g) sk) by done.
    destruct (decide (k = VNone)) as [->|Hk].
    + destruct (decide (VNone = VNone ∧ rows s t sk ≠ [])) as [_|Hno].
      * by apply IH.
      * rewrite IH; [|done..]. simpl.
        rewrite (rows_ids s t (nodes g) sk) by done.
        destruct (rows s t sk); [done|]. destruct Hno. by split.
    + rewrite decide_False by (by intros [? _]).
      rewrite IH; [|done..]. simpl. f_equal.
      rewrite (rows_ids s t (nodes g) sk) by done.
      symmetry. apply u_run_fmap. apply u_step_relationship.
Qed.

Lemma elem_of_edge_ops (sk : list node) (qs : list stmt) (o : upsert edge) :
  Forall wf_stmt qs → o ∈ qs ≫= edge_ops sk →
  (∃ rel_type r, o = ref_upsert rel_type r) ∨
  (∃ rel_type k props r,
     o = rel_upsert rel_type k props r ∧ k ≠ VNone ∧ agrees props k).
Proof.
  intros Hwf (q & Ho & Hq)%list_elem_of_bind.
  rewrite Forall_forall in Hwf. apply Hwf in Hq.
  destruct q as [label v props|rel_type s t|rel_type s t k props]; simpl in Ho.
  - by apply elem_of_nil in Ho.
  - apply list_elem_of_fmap in Ho as (r & -> & _). left. by exists rel_type, r.
  - destruct (decide (k = VNone)); [by apply elem_of_nil in Ho|].
    apply list_elem_of_fmap in Ho as (r & -> & _). right.
    by exists rel_type, k, props, r.
Qed.

Lemma u_set_reference (rel_type : string) (r : nat * nat) (e : edge) :
  u_set e_props edge_setp (ref_upsert rel_type r) e = e.
Proof.
  unfold u_set. simpl. destruct (edge_hit rel_type r e); [|done].
  rewrite set_props_empty. by destruct e.
Qed.

Lemma keyed_hit_new_inv (rel_type t : string) (k w : pyval) (r r' : nat * nat) :
  keyed_hit t w r' (Edge r.1 r.2 rel_type {["id" := k]}) = true →
  t = rel_type ∧ w = k ∧ r' = r.
Proof.
  unfold keyed_hit, edge_hit. simpl.
  intros [(H1 & H2 & H3)%bool_decide_eq_true [_ Hid]%has_id_true]%andb_true_iff.
  rewrite lookup_singleton, decide_True in Hid by done.
  split; [done|]. split; [congruence|].
  destruct r, r'; simpl in *; congruence.
Qed.

Lemma edge_ops_coherent (sk : list node) (qs : list stmt) :
  Forall wf_stmt qs → coherent e_props edge_setp (qs ≫= edge_ops sk).
Proof.
  intros Hwf. split; [|split].
  - intros o o' x Ho Ho'.
    destruct (elem_of_edge_ops sk qs o' Hwf Ho')
      as [(t' & r' & ->)|(t' & k' & p' & r' & -> & Hk' & Hp')].
    { by rewrite u_set_reference. }
    destruct (elem_of_edge_ops sk qs o Hwf Ho)
      as [(t & r & ->)|(t & k & p & r & -> & Hk & Hp)].
    + apply (edge_set_ends t' k' p' r r' x t).
    + by apply (keyed_hit_edge_set t' t k' k p' r r' x).
  - intros o Ho.
    destruct (elem_of_edge_ops sk qs o Hwf Ho)
      as [(t & r & ->)|(t & k & p & r & -> & Hk & Hp)].
    + simpl. unfold edge_hit. by apply bool_decide_eq_true.
    + by apply keyed_hit_new.
  - intros o o' Ho Ho' Hhit.
    destruct (elem_of_edge_ops sk qs o' Hwf Ho')
      as [(t' & r' & ->)|(t' & k' & p' & r' & -> & Hk' & Hp')]; [by left|].
    destruct (elem_of_edge_ops sk qs o Hwf Ho)
      as [(t & r & ->)|(t & k & p & r & -> & Hk & Hp)]; simpl in Hhit.
    + unfold keyed_hit in Hhit. apply andb_true_iff in Hhit as [_ Hid].
      apply has_id_true in Hid as [_ Hid]. simpl in Hid.
      by rewrite lookup_empty in Hid.
    + apply keyed_hit_new_inv in Hhit as (-> & -> & ->). by right.
Qed.

Lemma wf_statements_of (objs : list pyval) :
  Forall wf_stmt (objs ≫= statements_of).
Proof.
  apply Forall_forall. intros q (obj & Hq & _)%list_elem_of_bind.
  destruct (statements_of_plan obj) as [|label v props refs Hv Hp
                                         |rel_type s t k props Hp].
  - by apply elem_of_nil in Hq.
  - apply elem_of_cons in Hq as [->|Hq]; [done|].
    by apply list_elem_of_fmap in Hq as (r & -> & _).
  - by apply list_elem_of_singleton in Hq as ->.
Qed.

Lemma effect_twice_nodes (qs : list stmt) (g : graph) :
  Forall wf_stmt qs → nodes (effect qs (effect qs g)) = nodes (effect qs g).
Proof.
  intros Hwf. rewrite (effect_nodes qs (effect qs g)), effect_nodes.
  destruct node_laws as (L1 & L2 & L3).
  by apply u_run_idempotent, node_ops_coherent.
Qed.

Lemma effect_thrice (qs : list stmt) (g : graph) :
  Forall wf_stmt qs →
  effect qs (effect qs (effect qs g)) = effect qs (effect qs g).
Proof.
  intros Hwf.
  destruct node_laws as (N1 & N2 & N3). destruct edge_laws as (E1 & E2 & E3).
  pose proof (node_ops_coherent qs Hwf) as Hco.
  set (g1 := effect qs g). set (g2 := effect qs g1).
  assert (∀ o, o ∈ qs ≫= node_ops →
               List.existsb (u_hit o) (nodes g1) = true) as Hhits.
  { unfold g1. rewrite effect_nodes.
    by apply (u_run_saturated n_props node_setp N1). }
  assert (nodes g2 = nodes g1) as Hn2 by by apply effect_twice_nodes.
  assert (nodes (effect qs g2) = nodes g2) as Hn3
    by by apply effect_twice_nodes.
  assert (edges g2 = u_run e_props edge_setp (qs ≫= edge_ops (nodes g1))
                       (edges g1)) as He2
    by by apply effect_edges.
  assert (edges (effect qs g2) = edges g2) as He3.
  { rewrite (effect_edges (nodes g1)); [|done|by rewrite Hn2|by rewrite Hn2].
    rewrite He2. by apply u_run_idempotent, edge_ops_coherent. }
  destruct (effect qs g2) as [ns es], g2 as [ns2 es2]. simpl in *. congruence.
Qed.

Lemma deliver_app (objs objs' : list pyval) (g : graph) :
  deliver (objs ++ objs') g = deliver objs' (deliver objs g).
Proof. by rewrite !deliver_effect, bind_app, effect_app. Qed.

Lemma deliver_settles (objs : list pyval) (g : graph) (N : nat) :
  deliver (replicate (S (S N)) objs ≫= id) g = deliver (objs ++ objs) g.
Proof.
  revert g. induction N as [|N IH]; intros g.
  - simpl. by rewrite app_nil_r.
  - change (replicate (S (S (S N))) objs ≫= id)
      with (objs ++ (replicate (S (S N)) objs ≫= id)).
    rewrite deliver_app, IH, !deliver_app, !deliver_effect.
    apply effect_thrice, wf_statements_of.
Qed.

Lemma deliver_twice_nodes (objs : list pyval) (g : graph) :
  nodes (deliver (objs ++ objs) g) = nodes (deliver objs g).
Proof.
  rewrite deliver_app, !deliver_effect.
  apply effect_twice_nodes, wf_statements_of.
Qed.

(** The second delivery is not idle in general: a relationship record that
    comes before its endpoints in the batch gets its edge then. *)
Example second_delivery_adds_the_early_edge :
  edges_keyed (VStr "rel1") (deliver edge_first empty_graph) = [] ∧
  edges_keyed (VStr "rel1") (deliver (edge_first ++ edge_first) empty_graph)
    ≠ [].
Proof. split; [vm_compute; reflexivity|]. vm_compute. discriminate. Qed.

(** X17.  A batch that is delivered over and over to a store in reach
    changes the graph at most twice: from any graph, the vertices are as
    the first delivery leaves them, and every delivery after the second
    leaves the graph as the second does, whatever the records are and in
    whatever order they come. *)
Theorem batch_redelivery_converges (objs : list pyval) (g : graph) (N : nat) :
  (2 ≤ N)%nat →
  deliver (replicate N objs ≫= id) g = deliver (objs ++ objs) g ∧
  nodes (deliver (objs ++ objs) g) = nodes (deliver objs g).
Proof.
  intros HN. destruct N as [|[|N]]; [lia..|].
  split; [apply deliver_settles|apply deliver_twice_nodes].
Qed.

Lemma batch_redelivery_converges_witness :
  (2 ≤ 3)%nat ∧
  deliver (replicate 3 edge_first ≫= id) empty_graph
    = deliver (edge_first ++ edge_first) empty_graph ∧
  nodes (deliver (edge_first ++ edge_first) empty_graph)
    = nodes (deliver edge_first empty_graph).
Proof.
  split; [lia|]. apply (batch_redelivery_converges edge_first empty_graph 3).
  lia.
Defined.

Lemma main_iteration_failed (py_repr : pyval → string) (w : daemon) (e : exn) :
  outcome (fetch_stix_objects py_repr (web w)) = FetchFailed e →
  main_iteration py_repr w =
    Daemon (Session (db (store w)) (outages (store w)) (journal (store w))
              (errors (store w) ++ [LogExn "Error in main loop" e]))
      (unread (fetch_stix_objects py_repr (web w)))
      (naps w ++ [POLL_INTERVAL_SECONDS]).
Proof. intros Hout. unfold main_iteration. by rewrite Hout. Qed.

(** X16. A turn of the loop whose fetch breaks on a response that is not
    a JSON object processes nothing, not even the records of the pages it
    had read before: the graph, the journal of transactions and the outages
    to come are as before the turn, the error is logged once, as an error
    of the main loop, the loop sleeps as after any turn, and the answers
    not read yet are left for the next turn. *)
Theorem main_turn_with_failed_fetch_processes_nothing
    (py_repr : pyval → string) (ps : list page) (response : pyval)
    (later : list pyval) (w : daemon) :
  Forall (λ p, continues p = true) ps →
  (∀ d, response ≠ VDict d) →
  web w = (page_body <$> ps) ++ response :: later →
  ∃ e,
    main_iteration py_repr w =
      Daemon (Session (db (store w)) (outages (store w)) (journal (store w))
                (errors (store w) ++ [LogExn "Error in main loop" e]))
        later (naps w ++ [POLL_INTERVAL_SECONDS]).
Proof.
  intros Hps Hnot Hweb.
  destruct (fetch_page_not_an_object py_repr response Hnot) as [e He].
  exists e.
  assert (fetch_stix_objects py_repr (web w) =
          FetchRun (FetchFailed e) (TAXII_BASE_URL :: (next_url <$> ps)) later)
    as Hfetch.
  { rewrite Hweb. unfold fetch_stix_objects.
    by rewrite (fetch_loop_bad_page _ _ _ _ e). }
  rewrite (main_iteration_failed py_repr w e) by by rewrite Hfetch.
  by rewrite Hfetch.
Qed.

Lemma main_turn_with_failed_fetch_processes_nothing_witness :
  (Forall (λ p, continues p = true) [opening_page] ∧
   (∀ d, VList [VStr "o9"] ≠ VDict d) ∧
   web broken_daemon
     = (page_body <$> [opening_page])
         ++ VList [VStr "o9"] :: [page_body closing_page]) ∧
  db (store (main_iteration (λ _, "") broken_daemon)) = empty_graph ∧
  web (main_iteration (λ _, "") broken_daemon) = [page_body closing_page].
Proof.
  assert (Forall (λ p, continues p = true) [opening_page]) as H
    by (repeat constructor).
  assert (∀ d, VList [VStr "o9"] ≠ VDict d) as Hnot by discriminate.
  split; [by repeat split|].
  destruct (main_turn_with_failed_fetch_processes_nothing (λ _, "")
              [opening_page] (VList [VStr "o9"]) [page_body closing_page]
              broken_daemon H Hnot eq_refl) as [e ->].
  by split.
Defined.

Lemma main_iteration_in_reach (py_repr : pyval → string)
    (ps : list page) (last : page) (later : list pyval) (w : daemon) :
  Forall (λ p, continues p = true) ps →
  continues last = false →
  outages (store w) = [] →
  web w = (page_body <$> ps ++ [last]) ++ later →
  outages (store (main_iteration py_repr w)) = [] ∧
  web (main_iteration py_repr w) = later ∧
  db (store (main_iteration py_repr w)) =
    deliver (concat (p_objects <$> ps ++ [last])) (db (store w)).
Proof.
  intros Hps Hlast Hup Hweb.
  assert (fetch_stix_objects py_repr (web w) =
          FetchRun
            (Fetched (VDict [("objects",
                              VList (concat (p_objects <$> ps ++ [last])))]))
            (TAXII_BASE_URL :: (next_url <$> ps)) later) as Hfetch.
  { rewrite Hweb. unfold fetch_stix_objects. by rewrite fetch_loop_pages. }
  rewrite (main_iteration_fetched py_repr w
             (concat (p_objects <$> ps ++ [last]))) by by rewrite Hfetch.
  rewrite Hfetch. simpl.
  destruct (process_in_reach (concat (p_objects <$> ps ++ [last])) (store w) Hup)
    as (s' & -> & Hup' & Hdb).
  by rewrite deliver_effect.
Qed.

Lemma main_loop_in_reach (py_repr : pyval → string)
    (ps : list page) (last : page) (later : list pyval) (N : nat) (w : daemon) :
  Forall (λ p, continues p = true) ps →
  continues last = false →
  outages (store w) = [] →
  web w = (replicate N (page_body <$> ps ++ [last]) ≫= id) ++ later →
  web (main_loop py_repr N w) = later ∧
  db (store (main_loop py_repr N w)) =
    deliver (replicate N (concat (p_objects <$> ps ++ [last])) ≫= id)
      (db (store w)).
Proof.
  intros Hps Hlast. revert w. unfold main_loop.
  induction N as [|N IH]; intros w Hup Hweb; [done|].
  rewrite Nat.iter_succ_r.
  destruct (main_iteration_in_reach py_repr ps last
              ((replicate N (page_body <$> ps ++ [last]) ≫= id) ++ later)
              w Hps Hlast Hup) as (Hup1 & Hweb1 & Hdb1).
  { rewrite Hweb. simpl. by rewrite <- (assoc_L (++)). }
  destruct (IH (main_iteration py_repr w) Hup1 Hweb1) as [-> ->].
  split; [done|]. rewrite Hdb1.
  change (replicate (S N) ?b ≫= id) with (b ++ (replicate N b ≫= id)).
  by rewrite deliver_app.
Qed.

(** X18. The loop of [main] on a steady feed: when every turn is served
    the same pages up to one that ends the pagination and the store stays
    in reach, the graph after any number of turns from the second on is
    the graph after the second turn, the batch delivered twice, and its
    vertices are those the first turn left. *)
Theorem main_loop_settles_on_a_steady_feed (py_repr : pyval → string)
    (ps : list page) (last : page) (later : list pyval) (N : nat) (w : daemon) :
  Forall (λ p, continues p = true) ps →
  continues last = false →
  outages (store w) = [] →
  web w = (replicate N (page_body <$> ps ++ [last]) ≫= id) ++ later →
  (2 ≤ N)%nat →
  db (store (main_loop py_repr N w)) =
    deliver (concat (p_objects <$> ps ++ [last])
               ++ concat (p_objects <$> ps ++ [last])) (db (store w)) ∧
  nodes (db (store (main_loop py_repr N w))) =
    nodes (db (store (main_loop py_repr 1 w))) ∧
  web (main_loop py_repr N w) = later.
Proof.
  intros Hps Hlast Hup Hweb HN.
  destruct (main_loop_in_reach py_repr ps last later N w Hps Hlast Hup Hweb)
    as [Hlater ->].
  destruct N as [|[|N]]; [lia..|].
  rewrite deliver_settles, deliver_twice_nodes. split; [done|].
  split; [|done].
  destruct (main_iteration_in_reach py_repr ps last
              ((replicate (S N) (page_body <$> ps ++ [last]) ≫= id) ++ later)
              w Hps Hlast Hup) as (_ & _ & Hdb).
  { rewrite Hweb. simpl. by rewrite <- !(assoc_L (++)). }
  unfold main_loop. simpl. by rewrite Hdb.
Qed.

Lemma main_loop_settles_on_a_steady_feed_witness :
  (Forall (λ p, continues p = true) [opening_page] ∧
   continues closing_page = false ∧
   outages (store steady_daemon) = [] ∧
   web steady_daemon
     = (replicate 3 (page_body <$> [opening_page] ++ [closing_page]) ≫= id)
         ++ [] ∧
   (2 ≤ 3)%nat) ∧
  db (store (main_loop (λ _, "") 3 steady_daemon)) =
    deliver ([indicator_i1; indicator_i2; report_r1]
               ++ [indicator_i1; indicator_i2; report_r1]) empty_graph.
Proof.
  assert (Forall (λ p, continues p = true) [opening_page]) as H1
    by (repeat constructor).
  assert (2 ≤ 3)%nat as H5 by lia.
  split; [by repeat split|].
  destruct (main_loop_settles_on_a_steady_feed (λ _, "")
              [opening_page] closing_page [] 3 steady_daemon
              H1 eq_refl eq_refl eq_refl H5) as [Hdb _].
  exact Hdb.
Defined.
